(** * sbom2doc: the license and copyright pipeline of [simple_format_generator.py]

  A shallow embedding of [src/sbom2doc/simple_format_generator.py].

  - Python [str] values are [string]; one [ascii] stands for one Python
    character, so the text helpers below ([upper], [strip], ...) agree with
    Python's on ASCII text.
  - A Python [dict] is an association list in insertion order ([PyDict]),
    since the source iterates over [freq.keys()] and
    [licenses_by_id.items()].
  - The three module-level diagnostic dicts, the lines sent to [print], the
    URLs passed to [requests.get] and the files opened for writing make up
    the [World]; code runs in a state-and-exception monad [M] over it.
  - [lib4sbom.license.LicenseScanner] and the SPDX web service are not part
    of the repository: they are the classes [LicenseScanner] and [Platform],
    and the code is stated for every instance of them.  The document builders
    of [sbom2doc.docbuilder] are not among the sources: the calls that fill
    the builder are left out, and its [publish] is the class [DocBuilder],
    free to write files and to raise. *)

From Stdlib Require Import String Ascii List ZArith Lia Bool Arith Permutation Sorted.
Import ListNotations.
Open Scope string_scope.
Open Scope list_scope.

(** ** Python text operations *)

Module PyStr.

(** [c in s] for a one-character string [c]. *)
Fixpoint char_in (c : ascii) (s : string) : bool :=
  match s with
  | EmptyString => false
  | String a r => Ascii.eqb a c || char_in c r
  end.

Definition newline : ascii := "010"%char.
Definition space : ascii := " "%char.
Definition dquote : ascii := ascii_of_nat 34.

(** [s[:stop]], with Python's reading of a negative [stop]. *)
Definition slice_to (s : string) (stop : Z) : string :=
  let n := Z.of_nat (String.length s) in
  let stop' := if (stop <? 0)%Z then Z.max 0 (n + stop) else Z.min stop n in
  substring 0 (Z.to_nat stop') s.

Definition startswith (s p : string) : bool := prefix p s.

Definition upper_char (c : ascii) : ascii :=
  let n := nat_of_ascii c in
  if ((97 <=? n) && (n <=? 122))%nat then ascii_of_nat (n - 32) else c.

Fixpoint upper (s : string) : string :=
  match s with
  | EmptyString => EmptyString
  | String a r => String (upper_char a) (upper r)
  end.

(** [str.isspace] on ASCII: TAB, LF, VT, FF, CR, FS, GS, RS, US, SPACE. *)
Definition isspace (c : ascii) : bool :=
  let n := nat_of_ascii c in
  (((9 <=? n) && (n <=? 13)) || ((28 <=? n) && (n <=? 32)))%nat.

Fixpoint lstrip (s : string) : string :=
  match s with
  | EmptyString => EmptyString
  | String a r => if isspace a then lstrip r else s
  end.

Fixpoint rstrip (s : string) : string :=
  match s with
  | EmptyString => EmptyString
  | String a r =>
      match rstrip r with
      | EmptyString => if isspace a then EmptyString else String a EmptyString
      | r' => String a r'
      end
  end.

Definition strip (s : string) : string := rstrip (lstrip s).

(** [s.replace(c, empty)] for a one-character string [c]: every [c] is dropped. *)
Fixpoint remove_char (c : ascii) (s : string) : string :=
  match s with
  | EmptyString => EmptyString
  | String a r => if Ascii.eqb a c then remove_char c r else String a (remove_char c r)
  end.

(** [s.find(c)] for a one-character string [c]: the first index, or -1. *)
Fixpoint find_char (c : ascii) (s : string) : Z :=
  match s with
  | EmptyString => (-1)%Z
  | String a r =>
      if Ascii.eqb a c then 0%Z
      else let i := find_char c r in if (i <? 0)%Z then (-1)%Z else (i + 1)%Z
  end.

(** [sep.join(l)] *)
Fixpoint join (sep : string) (l : list string) : string :=
  match l with
  | [] => EmptyString
  | [x] => x
  | x :: r => x ++ sep ++ join sep r
  end.

(** [sorted(l, key=key)], and with [reverse=True] when [le] is the converse
    order: a stable insertion sort. *)
Section Sorted.
Context {A K : Type} (le : K -> K -> bool) (key : A -> K).

Fixpoint insert (x : A) (l : list A) : list A :=
  match l with
  | [] => [x]
  | y :: r => if le (key x) (key y) then x :: y :: r else y :: insert x r
  end.

Fixpoint sorted_by (l : list A) : list A :=
  match l with
  | [] => []
  | x :: r => insert x (sorted_by r)
  end.

End Sorted.

(** [sorted(l)] on strings. *)
Definition sorted (l : list string) : list string :=
  sorted_by String.leb (fun x => x) l.

End PyStr.

(** ** Python dictionaries with string keys, in insertion order *)

Module PyDict.
Section Dict.
Context {V : Type}.

Definition dict := list (string * V).

Definition empty : dict := [].

(** [d.get(k)] *)
Fixpoint get (d : dict) (k : string) : option V :=
  match d with
  | [] => None
  | (k', v) :: r => if k' =? k then Some v else get r k
  end.

(** [k in d] *)
Definition contains (d : dict) (k : string) : bool :=
  match get d k with Some _ => true | None => false end.

(** [d[k] = v]: an existing key keeps its position, a new one goes last. *)
Fixpoint set (d : dict) (k : string) (v : V) : dict :=
  match d with
  | [] => [(k, v)]
  | (k', v') :: r => if k' =? k then (k', v) :: r else (k', v') :: set r k v
  end.

Definition keys (d : dict) : list string := map fst d.
Definition values (d : dict) : list V := map snd d.
Definition items (d : dict) : list (string * V) := d.

End Dict.
Arguments dict V : clear implicits.
End PyDict.

Import PyDict.
Import PyStr.
Open Scope string_scope.

(** ** Data model *)

(** The value under the key [license] of an entry of [licenselist]. *)
Record LicenseObject := {
  lic_id : option string;
  lic_name : option string;
  lic_text : option string
}.

(** A package or file record of the parser; an absent key is [None].  An
    entry of [licenselist] is [None] when it has no key [license]. *)
Record SbomRecord := {
  sbom_id : option string;
  sbom_name : option string;
  sbom_version : option string;
  sbom_type : option string;
  sbom_supplier : option string;
  sbom_licenselist : option (list (option LicenseObject));
  sbom_licenseconcluded : option string;
  sbom_copyrighttext : option string
}.

(** A value of [licenses_by_id]: the dict with keys [id] and [license_text]. *)
Record LicenseEntry := {
  entry_id : string;
  license_text : option string
}.

(** What [generate_document] and its helpers pass to [print]. *)
Inductive Msg :=
| MissingLicense (package_name : string) (o : SbomRecord)
| LicenseInformation
| TimesLine (f : nat) (shown : option string)
| ExpressionWarning (k : string)
| ResolvedWith (shown : option string) (resolved : string)
| ConflictVersions (k license_text existing_text : string)
| ConflictCheckWithDebug (k : string)
| IgnoreLongKey (len : nat)
| IgnoreExpression (key : string)
| IgnoreSpace (key_stripped : string)
| NoSpdxText (key_stripped : string)
| NoLicenseText (key_stripped : string)
| Writing (filename : string).

Inductive Exn :=
| Exception (msg : string)
| KeyError (key : string)
| TypeError
| RequestException
| FileExistsError (filename : string)
| AttributeError
| FileNotFoundError
| OtherError (name : string).

(** The module-level dicts and the outside world the code acts on. *)
Record World := {
  copyright_info_missing_package_name_list : dict bool;
  unknown_license_text_id_list : dict bool;
  license_info_missing_package_id_list : dict bool;
  stdout : list Msg;
  requested : list string;
  filesystem : dict (list string)
}.

Definition initial_world : World := {|
  copyright_info_missing_package_name_list := empty;
  unknown_license_text_id_list := empty;
  license_info_missing_package_id_list := empty;
  stdout := [];
  requested := [];
  filesystem := empty
|}.

(** ** The state-and-exception monad *)

Inductive Outcome (A : Type) : Type :=
| Returns (a : A) (w : World)
| Raises (e : Exn) (w : World).
Arguments Returns {A} a w.
Arguments Raises {A} e w.

Definition M (A : Type) : Type := World -> Outcome A.

Definition ret {A} (a : A) : M A := fun w => Returns a w.

Definition bind {A B} (m : M A) (f : A -> M B) : M B :=
  fun w => match m w with
           | Returns a w' => f a w'
           | Raises e w' => Raises e w'
           end.

Definition raise {A} (e : Exn) : M A := fun w => Raises e w.

Declare Scope py_scope.
Delimit Scope py_scope with py.
Notation "x <- m ;; k" := (bind m (fun x => k))
  (at level 61, m at next level, right associativity) : py_scope.
Notation "' p <- m ;; k" := (bind m (fun p => k))
  (at level 61, p pattern, m at next level, right associativity) : py_scope.
Notation "m ;; k" := (bind m (fun _ => k))
  (at level 61, right associativity) : py_scope.
Open Scope py_scope.

Definition world_after {A} (o : Outcome A) : World :=
  match o with Returns _ w => w | Raises _ w => w end.

Definition when (b : bool) (m : M unit) : M unit := if b then m else ret tt.

(** [for x in l: acc = body(acc, x)] *)
Fixpoint for_each {A S} (l : list A) (body : S -> A -> M S) (acc : S) : M S :=
  match l with
  | [] => ret acc
  | x :: r => acc' <- body acc x ;; for_each r body acc'
  end.

(** [for key, value in d.items()], the body updating [value] in place. *)
Fixpoint for_items {V} (d : dict V) (body : string -> V -> M V) : M (dict V) :=
  match d with
  | [] => ret []
  | (key, value) :: r =>
      value' <- body key value ;;
      r' <- for_items r body ;;
      ret ((key, value') :: r')
  end.

(** [try: body except exc: handler] *)
Definition try_except {A} (body : M A) (exc : Exn -> bool) (handler : M A) : M A :=
  fun w => match body w with
           | Returns a w' => Returns a w'
           | Raises e w' => if exc e then handler w' else Raises e w'
           end.

Definition print (m : Msg) : M unit :=
  fun w => Returns tt {|
    copyright_info_missing_package_name_list := copyright_info_missing_package_name_list w;
    unknown_license_text_id_list := unknown_license_text_id_list w;
    license_info_missing_package_id_list := license_info_missing_package_id_list w;
    stdout := stdout w ++ [m];
    requested := requested w;
    filesystem := filesystem w |}.

(** [d[k]] *)
Definition getitem {V} (d : dict V) (k : string) : M V :=
  match get d k with
  | Some v => ret v
  | None => raise (KeyError k)
  end.

(** [copyright_info_missing_package_name_list[name] = True] *)
Definition set_copyright_info_missing (name : string) : M unit :=
  fun w => Returns tt {|
    copyright_info_missing_package_name_list :=
      set (copyright_info_missing_package_name_list w) name true;
    unknown_license_text_id_list := unknown_license_text_id_list w;
    license_info_missing_package_id_list := license_info_missing_package_id_list w;
    stdout := stdout w;
    requested := requested w;
    filesystem := filesystem w |}.

(** [unknown_license_text_id_list[id] = True] *)
Definition set_unknown_license_text (id : string) : M unit :=
  fun w => Returns tt {|
    copyright_info_missing_package_name_list := copyright_info_missing_package_name_list w;
    unknown_license_text_id_list := set (unknown_license_text_id_list w) id true;
    license_info_missing_package_id_list := license_info_missing_package_id_list w;
    stdout := stdout w;
    requested := requested w;
    filesystem := filesystem w |}.

(** [license_info_missing_package_id_list[package_name] = True] *)
Definition set_license_info_missing (package_name : string) : M unit :=
  fun w => Returns tt {|
    copyright_info_missing_package_name_list := copyright_info_missing_package_name_list w;
    unknown_license_text_id_list := unknown_license_text_id_list w;
    license_info_missing_package_id_list :=
      set (license_info_missing_package_id_list w) package_name true;
    stdout := stdout w;
    requested := requested w;
    filesystem := filesystem w |}.

(** [with open(filename, "x") as f: f.writelines(lines)] *)
Definition write_new_file (filename : string) (lines : list string) : M unit :=
  fun w =>
    if contains (filesystem w) filename then Raises (FileExistsError filename) w
    else Returns tt {|
      copyright_info_missing_package_name_list := copyright_info_missing_package_name_list w;
      unknown_license_text_id_list := unknown_license_text_id_list w;
      license_info_missing_package_id_list := license_info_missing_package_id_list w;
      stdout := stdout w;
      requested := requested w;
      filesystem := set (filesystem w) filename lines |}.

(** ** External collaborators *)

(** [lib4sbom.license.LicenseScanner]; [license_expression] is the truth
    value the source tests.  Its methods are taken to return for every
    string. *)
Class LicenseScanner := {
  DEFAULT_LICENSE : string;
  find_license_id : string -> string;
  license_expression : string -> bool
}.

(** What [requests.get(url).json()] gives: a [RequestException]; a JSON
    object, with its [licenseText] member, a string, if it has one; a JSON
    value that is no object (a list, a string, a number, [null]); or an
    exception [e] that is raised instead. *)
Inductive Response :=
| Failed
| Json (licenseText : option string)
| JsonOther
| Crashed (e : Exn).

Class Platform := {
  spdx_response : string -> Response;
  linesep : string
}.

Definition gets {A} (f : World -> A) : M A := fun w => Returns (f w) w.

(** [requests.get(url).json()] of line 257 with the
    [license_text.get("licenseText")] of line 258: a value that is no object
    has no [get], which is an [AttributeError]. *)
Definition requests_get_json `{Platform} (url : string) : M (option string) :=
  fun w =>
    let w' := {|
      copyright_info_missing_package_name_list := copyright_info_missing_package_name_list w;
      unknown_license_text_id_list := unknown_license_text_id_list w;
      license_info_missing_package_id_list := license_info_missing_package_id_list w;
      stdout := stdout w;
      requested := requested w ++ [url];
      filesystem := filesystem w |} in
    match spdx_response url with
    | Failed => Raises RequestException w'
    | Json licenseText => Returns licenseText w'
    | JsonOther => Raises AttributeError w'
    | Crashed e => Raises e w'
    end.

(** [o.get(key, default)] for a field [field] of a record. *)
Definition get_default {A} (field : option A) (default : A) : A :=
  match field with Some v => v | None => default end.

(** ** The synonym table (lines 15-51) *)

Definition license_syns : dict (list string) := [
  ("Apache-2.0", [
     "https://www.apache.org/licenses/LICENSE-2.0;description=Apache-2.0";
     "https://www.apache.org/licenses/LICENSE-2.0.txt";
     "http://www.apache.org/licenses/LICENSE-2.0.txt";
     "https://www.apache.org/licenses/LICENSE-2.0.html";
     "https://www.apache.org/licenses/LICENSE-2.0";
     ("http://www.apache.org/licenses/LICENSE-2.0.html;" ++
      "description=Apache 2.0 License")%string;
     "Apache-2.0 license";
     (String dquote "Apache License 2.0" ++ String dquote ";link=" ++
      String dquote "http://www.apache.org/licenses/LICENSE-2.0.html" ++
      String dquote EmptyString)%string
   ]);
  ("BSD-3-Clause", [
     "https://opensource.org/licenses/BSD-3-Clause";
     "3-Clause BSD License";
     "http://www.eclipse.org/org/documents/edl-v10.php";
     "BSD 3-Clause";
     "BSD 3-Clause License"
   ]);
  ("BSD-2-Clause", [
     "https://opensource.org/licenses/BSD-2-Clause";
     "https://opensource.org/licenses/BSD-2-Clause;description=BSD 2-Clause License"
   ]);
  ("CDDL-1.1", [
     "https://github.com/javaee/activation/blob/master/LICENSE.txt"
   ]);
  ("ZPL-2.1", [
     "ZPL 2.1"
   ]);
  ("MIT", [
     "http://www.opensource.org/licenses/mit-license.php"
   ])
].

Definition license_syns_reverse : dict string :=
  fold_left
    (fun rev '(k, v) => fold_left (fun rev kk => set rev kk k) v rev)
    (items license_syns) empty.

(** ** Helpers (lines 58-101) *)

Definition _ensure_len (text : option string) (max_len : Z) : M (option string) :=
  if (max_len <? 3)%Z then raise (Exception "At least 3 min length! Better 10...")
  else
    match text with
    | Some text =>
        if (max_len <? Z.of_nat (String.length text))%Z
        then ret (Some (slice_to text (max_len - 3) ++ "..."))
        else ret (Some text)
    | None => ret None
    end.

(** The loop over [license_list] in [_get_licenses]. *)
Definition license_list_simple (license_list : list (option LicenseObject)) : list string :=
  fold_left
    (fun acc l =>
       match l with
       | None => acc
       | Some license =>
           match lic_id license, lic_name license, lic_text license with
           | Some id, _, _ => (acc ++ [id])%list
           | None, Some name, _ => (acc ++ [name])%list
           | None, None, Some text => (acc ++ [text])%list
           | None, None, None => acc
           end
       end)
    license_list [].

(** Lines 89-93 of [_get_licenses]. *)
Definition concluded_license (o : SbomRecord) (package_name : string) : M (list string) :=
  let license := get_default (sbom_licenseconcluded o) "NOT KNOWN" in
  when (license =? "NOT KNOWN")
    (print (MissingLicense package_name o) ;;
     set_license_info_missing package_name) ;;
  ret [license].

Definition _get_licenses (o : SbomRecord) : M (list string) :=
  let package_name := get_default (sbom_name o) "(package name missing)" in
  match sbom_licenselist o with
  | Some license_list =>
      if (0 <? List.length license_list)%nat then
        let simple := license_list_simple license_list in
        if (0 <? List.length simple)%nat then ret simple
        else concluded_license o package_name
      else concluded_license o package_name
  | None => concluded_license o package_name
  end.

Definition _get_copyright (o : SbomRecord) : M string :=
  let name := get_default (sbom_name o) "(package name missing)" in
  let failed_text := "Not extracted, please search " ++ name in
  let result := get_default (sbom_copyrighttext o) failed_text in
  when (failed_text =? result) (set_copyright_info_missing name) ;;
  ret result.

(** ** The document builder (lines 10-13, 127-134, 364) *)

(** What the builder holds when [publish] is called.  The calls that fill it
    (headings, paragraphs, the table of the component types) are taken to
    return and are not modelled: the document is given by the values they
    are computed from. *)
Record Document := {
  doc_filename : string;
  doc_packages : list SbomRecord;
  doc_files : list SbomRecord;
  doc_include_license : bool;
  doc_licenses_by_id : dict LicenseEntry
}.

(** What [publish] has done when it ends: the files as they are then, and
    the exception, if it raised one. *)
Record Published := {
  published_files : dict (list string);
  published_raised : option Exn
}.

(** The builders of [sbom2doc.docbuilder], modules of the repository that
    are not among the sources at hand.  [publish format outfile doc files] is
    [publish(outfile)] of the builder chosen for [format], holding [doc],
    with the files [files] there: what it writes, and whether it raises, is
    left open. *)
Class DocBuilder := {
  publish : string -> string -> Document -> dict (list string) -> Published
}.

(** Line 364. *)
Definition publish_document `{DocBuilder} (format outfile : string) (doc : Document)
  : M unit :=
  fun w =>
    let done := publish format outfile doc (filesystem w) in
    let w' := {|
      copyright_info_missing_package_name_list := copyright_info_missing_package_name_list w;
      unknown_license_text_id_list := unknown_license_text_id_list w;
      license_info_missing_package_id_list := license_info_missing_package_id_list w;
      stdout := stdout w;
      requested := requested w;
      filesystem := published_files done |} in
    match published_raised done with
    | Some e => Raises e w'
    | None => Returns tt w'
    end.

(** ** [generate_document] (lines 103-394) *)

Section Generator.
Context {license_info : LicenseScanner} {platform : Platform} {builder : DocBuilder}.

(** Lines 114-124. *)
Definition _find_license_id (value : string) : M string :=
  if contains license_syns_reverse value then getitem license_syns_reverse value
  else
    let found := find_license_id value in
    if negb (found =? DEFAULT_LICENSE) then ret found else ret value.

(** Lines 160-169: the license references of all packages and files. *)
Definition collect_licenses (packages files : list SbomRecord) : M (list string) :=
  sbom_licenses <-
    for_each packages
      (fun sbom_licenses package =>
         licenses <- _get_licenses package ;; ret (sbom_licenses ++ licenses)%list) [] ;;
  for_each files
    (fun sbom_licenses f =>
       licenses <- _get_licenses f ;; ret (sbom_licenses ++ licenses)%list) sbom_licenses.

(** [sbom_licenses.count(items)] *)
Definition count (sbom_licenses : list string) (items : string) : nat :=
  count_occ string_dec sbom_licenses items.

(** Lines 171-173. *)
Definition build_freq (sbom_licenses : list string) : dict nat :=
  fold_left
    (fun freq items => set freq items (count sbom_licenses items))
    (sorted sbom_licenses) empty.

(** Lines 175-180. *)
Definition print_license_information (freq : dict nat) : M unit :=
  let freq_sorted := map (fun '(license, f) => (f, license)) (items freq) in
  let freq_sorted := sorted_by (fun x y => (y <=? x)%nat) fst freq_sorted in
  print LicenseInformation ;;
  for_each freq_sorted
    (fun _ '(f, licenses) =>
       shown <- _ensure_len (Some licenses) 200 ;; print (TimesLine f shown)) tt.

(** Line 188: the value is taken to be a license text. *)
Definition is_license_text (k : string) : bool :=
  (200 <? String.length k)%nat && char_in newline k.

(** Lines 184-220: the body of the loop over [freq.keys()]. *)
Definition group_license (debug : bool) (licenses_by_id : dict LicenseEntry)
    (k : string) : M (dict LicenseEntry) :=
  if k =? "NOT KNOWN" then ret licenses_by_id
  else
    let text := if is_license_text k then Some k else None in
    (if is_license_text k then ret tt
     else if license_expression k then print (ExpressionWarning k)
     else ret tt) ;;
    resolved <- _find_license_id k ;;
    k <- (if negb (resolved =? k) then
            when debug
              (shown <- _ensure_len (Some k) 20 ;; print (ResolvedWith shown resolved)) ;;
            ret resolved
          else ret k) ;;
    text <-
      (if contains licenses_by_id k then
         entry <- getitem licenses_by_id k ;;
         let existing_text := license_text entry in
         match text, existing_text with
         | Some new_text, Some old_text =>
             when (negb (new_text =? old_text))
               (print (if debug then ConflictVersions k new_text old_text
                       else ConflictCheckWithDebug k))
         | _, _ => ret tt
         end ;;
         ret (match existing_text with Some _ => existing_text | None => text end)
       else ret text) ;;
    ret (set licenses_by_id k {| entry_id := k; license_text := text |}).

(** Lines 182-220. *)
Definition group_licenses (debug : bool) (freq : dict nat) : M (dict LicenseEntry) :=
  for_each (keys freq) (group_license debug) empty.

(** Lines 225-252: the entries the loop passes over without a lookup. *)
Definition skip_lookup (key : string) (value : LicenseEntry) : bool :=
  (key =? "NOASSERTION")
  || (match license_text value with Some _ => true | None => false end)
  || (200 <? String.length key)%nat
  || license_expression key
  || char_in space (strip key)
  || startswith (strip key) "http".

(** Lines 225-268: the body of the loop over [licenses_by_id.items()]. *)
Definition fetch_license_text (debug : bool)
    (additional_license_texts : option (dict string))
    (key : string) (value : LicenseEntry) : M LicenseEntry :=
  if key =? "NOASSERTION" then ret value
  else if match license_text value with Some _ => true | None => false end then ret value
  else if (200 <? String.length key)%nat then
    when debug (print (IgnoreLongKey (String.length key))) ;; ret value
  else if license_expression key then
    when debug (print (IgnoreExpression key)) ;; ret value
  else
    let key_stripped := strip key in
    if char_in space key_stripped then
      when debug (print (IgnoreSpace key_stripped)) ;; ret value
    else if startswith key_stripped "http" then ret value
    else
      let license_url := "https://spdx.org/licenses/" ++ key_stripped ++ ".json" in
      '(value, license_done) <-
        try_except
          (licenseText <- requests_get_json license_url ;;
           match licenseText with
           | Some t => ret ({| entry_id := entry_id value; license_text := Some t |}, true)
           | None => ret (value, false)
           end)
          (fun e => match e with RequestException => true | _ => false end)
          (print (NoSpdxText key_stripped) ;; ret (value, false)) ;;
      if negb license_done then
        match additional_license_texts with
        | Some texts =>
            if contains texts (upper key_stripped) then
              t <- getitem texts (upper key_stripped) ;;
              ret {| entry_id := entry_id value; license_text := Some t |}
            else print (NoLicenseText key_stripped) ;; ret value
        | None => print (NoLicenseText key_stripped) ;; ret value
        end
      else ret value.

(** Lines 222-268. *)
Definition fetch_license_texts (debug : bool)
    (additional_license_texts : option (dict string))
    (licenses_by_id : dict LicenseEntry) : M (dict LicenseEntry) :=
  for_items licenses_by_id (fetch_license_text debug additional_license_texts).

(** Lines 270-312: the calls with an effect; [sbom_components] and
    [sbom_suppliers] are returned. *)
Definition package_information (packages : list SbomRecord)
  : M (list (option string) * list string) :=
  if (0 <? List.length packages)%nat then
    for_each packages
      (fun '(sbom_components, sbom_suppliers) package =>
         let type := sbom_type package in
         let supplier := sbom_supplier package in
         licenses <- _get_licenses package ;;
         licenses <- for_each licenses
                       (fun acc l => r <- _find_license_id l ;; ret (acc ++ [r])%list) [] ;;
         let licenses_multiline := join (String newline EmptyString) licenses in
         let sbom_components := (sbom_components ++ [type])%list in
         let sbom_suppliers :=
           match supplier with
           | Some s => (sbom_suppliers ++ [s])%list
           | None => sbom_suppliers
           end in
         copyright <- _get_copyright package ;;
         ret (sbom_components, sbom_suppliers))
      ([], [])
  else ret ([], []).

(** Lines 319-333: the body of the loop over the sorted entries. *)
Definition license_text_paragraph (l : LicenseEntry) : M unit :=
  if existsb (String.eqb (entry_id l)) ["UNKNOWN"; "NOASSERTION"; EmptyString]
  then ret tt
  else
    limited_length_id <- _ensure_len (Some (entry_id l)) 50 ;;
    match license_text l with
    | Some paragraph_text => ret tt
    | None => set_unknown_license_text (entry_id l)
    end.

(** Lines 314-333. *)
Definition license_texts_section (licenses_by_id : dict LicenseEntry) : M unit :=
  let licenses := values licenses_by_id in
  let licenses := sorted_by String.leb entry_id licenses in
  for_each licenses (fun _ l => license_text_paragraph l) tt.

(** Line 340: [sorted(sbom_components)] compares the types of the packages,
    and Python does not compare [None]. *)
Definition component_type_summary (sbom_components : list (option string)) : M unit :=
  if (2 <=? List.length sbom_components)%nat
     && existsb (fun c => match c with None => true | Some _ => false end) sbom_components
  then raise TypeError
  else ret tt.

Definition quoted (s : string) : string := String dquote s ++ String dquote EmptyString.

(** Lines 367-368. *)
Definition csv_timestamp (now : string) : string :=
  let timestamp := remove_char ":"%char now in
  slice_to timestamp (find_char "."%char timestamp).

Definition missing_license_info_lines (ids : dict bool) : list string :=
  (quoted "package id" ++ "," ++ quoted "license id" ++ linesep)
  :: map (fun k => quoted k ++ "," ++ quoted EmptyString ++ linesep) (keys ids).

Definition missing_copyright_info_lines (names : dict bool) : list string :=
  (quoted "package id" ++ "," ++ quoted "copyright info" ++ linesep)
  :: map (fun k => quoted k ++ "," ++ quoted EmptyString ++ linesep) (keys names).

Definition unknown_license_text_lines (ids : dict bool) : list string :=
  (quoted "license id" ++ "," ++ quoted "original id synonym" ++ ","
   ++ quoted "license text" ++ linesep)
  :: map (fun k => quoted k ++ "," ++ quoted EmptyString ++ ","
                   ++ quoted EmptyString ++ linesep) (keys ids).

(** Lines 366-394; [now] is [datetime.datetime.now().isoformat()]. *)
Definition write_diagnostics (now : string) : M unit :=
  let timestamp := csv_timestamp now in
  ids <- gets license_info_missing_package_id_list ;;
  when (0 <? List.length ids)%nat
    (let missing_license_info_filename :=
       "packages_missing_license_info-" ++ timestamp ++ ".csv" in
     print (Writing missing_license_info_filename) ;;
     write_new_file missing_license_info_filename (missing_license_info_lines ids)) ;;
  names <- gets copyright_info_missing_package_name_list ;;
  when (0 <? List.length names)%nat
    (let missing_copyright_info_filename :=
       "packages_missing_copyright_info-" ++ timestamp ++ ".csv" in
     print (Writing missing_copyright_info_filename) ;;
     write_new_file missing_copyright_info_filename (missing_copyright_info_lines names)) ;;
  ids <- gets unknown_license_text_id_list ;;
  when (0 <? List.length ids)%nat
    (let unknown_license_text_filename :=
       "license_ids_missing_text-" ++ timestamp ++ ".csv" in
     print (Writing unknown_license_text_filename) ;;
     write_new_file unknown_license_text_filename (unknown_license_text_lines ids)).

(** Everything before the document is published (lines 160-346). *)
Definition build_document (packages files : list SbomRecord)
    (include_license debug : bool)
    (additional_license_texts : option (dict string)) : M (dict nat * dict LicenseEntry) :=
  sbom_licenses <- collect_licenses packages files ;;
  let freq := build_freq sbom_licenses in
  when debug (print_license_information freq) ;;
  licenses_by_id <- group_licenses debug freq ;;
  licenses_by_id <-
    (if include_license
     then fetch_license_texts debug additional_license_texts licenses_by_id
     else ret licenses_by_id) ;;
  '(sbom_components, sbom_suppliers) <- package_information packages ;;
  when include_license (license_texts_section licenses_by_id) ;;
  component_type_summary sbom_components ;;
  ret (freq, licenses_by_id).

(** Lines 103-394; [packages] and [files] are what [sbom_parser] returns,
    [now] is [datetime.datetime.now().isoformat()]. *)
Definition generate_document (format : string) (packages files : list SbomRecord)
    (filename outfile : string) (include_license debug : bool)
    (additional_license_texts : option (dict string)) (now : string) : M unit :=
  '(freq, licenses_by_id) <-
    build_document packages files include_license debug additional_license_texts ;;
  publish_document format outfile {|
    doc_filename := filename;
    doc_packages := packages;
    doc_files := files;
    doc_include_license := include_license;
    doc_licenses_by_id := licenses_by_id |} ;;
  when debug (write_diagnostics now).

End Generator.

(** ** Sample collaborators and records for the examples *)

Definition has_substring (sub s : string) : bool :=
  match index 0 sub s with Some _ => true | None => false end.

(** A few entries of the SPDX license list: id and name. *)
Definition spdx_licenses : list (string * string) := [
  ("MIT", "MIT License");
  ("Apache-2.0", "Apache License 2.0");
  ("GPL-2.0-or-later", "GNU General Public License v2.0 or later")
].

(** A scanner in the manner of lib4sbom's: ids and names are matched without
    regard to case, and an expression is a string with an operator in it. *)
Definition sample_scanner : LicenseScanner := {|
  DEFAULT_LICENSE := "UNKNOWN";
  find_license_id := fun license =>
    match find (fun '(id, name) =>
                  (upper id =? upper license) || (upper name =? upper license))
               spdx_licenses with
    | Some (id, _) => id
    | None => "UNKNOWN"
    end;
  license_expression := fun expression =>
    existsb (fun op => has_substring op (upper expression)) [" AND "; " OR "; " WITH "]
|}.

(** No network: every request fails. *)
Definition offline : Platform := {|
  spdx_response := fun _ => Failed;
  linesep := String newline EmptyString
|}.

(** A builder that writes the output file, when one is named and the format
    is not [console], and nothing else. *)
Definition file_builder : DocBuilder := {|
  publish := fun format outfile doc files =>
    {| published_files :=
         if (format =? "console") || (outfile =? EmptyString) then files
         else set files outfile [format];
       published_raised := None |}
|}.

Definition package (id name type : string) (licenseconcluded copyrighttext : option string)
  : SbomRecord := {|
  sbom_id := Some id;
  sbom_name := Some name;
  sbom_version := Some "1.0";
  sbom_type := Some type;
  sbom_supplier := None;
  sbom_licenselist := None;
  sbom_licenseconcluded := licenseconcluded;
  sbom_copyrighttext := copyrighttext
|}.

(** A package with an id and a name, and neither license nor copyright. *)
Definition package_foo : SbomRecord :=
  package "SPDXRef-foo" "foo" "library" None None.

(** A package whose copyright text is the text of the placeholder. *)
Definition package_placeholder : SbomRecord :=
  package "SPDXRef-foo" "foo" "library" (Some "MIT")
    (Some "Not extracted, please search foo").

(** ** Predicates of the statements *)

(** The structured license list of [o] yields no entry. *)
Definition no_listed_license (o : SbomRecord) : Prop :=
  match sbom_licenselist o with
  | Some license_list => license_list_simple license_list = []
  | None => True
  end.

(** The license references [_get_licenses] gives for [o]; they do not
    depend on the world (see [get_licenses_returns]). *)
Definition licenses_of (o : SbomRecord) : list string :=
  match _get_licenses o initial_world with
  | Returns licenses _ => licenses
  | Raises _ _ => []
  end.

(** The number of times [x] is in [l]. *)
Definition occurrences (x : string) (l : list string) : nat :=
  List.length (filter (String.eqb x) l).

(** [w] after [msgs] have been printed. *)
Definition printed (w : World) (msgs : list Msg) : World := {|
  copyright_info_missing_package_name_list := copyright_info_missing_package_name_list w;
  unknown_license_text_id_list := unknown_license_text_id_list w;
  license_info_missing_package_id_list := license_info_missing_package_id_list w;
  stdout := stdout w ++ msgs;
  requested := requested w;
  filesystem := filesystem w |}.

(** The text stored under [k] in [licenses_by_id], if any. *)
Definition stored_text (licenses_by_id : dict LicenseEntry) (k : string) : option string :=
  match get licenses_by_id k with
  | Some entry => license_text entry
  | None => None
  end.

(** Two packages whose licenses are synonyms of Apache-2.0. *)
Definition package_apache_url : SbomRecord :=
  package "SPDXRef-a" "a" "library"
    (Some "https://www.apache.org/licenses/LICENSE-2.0") None.

Definition package_apache_name : SbomRecord :=
  package "SPDXRef-b" "b" "library" (Some "Apache-2.0 license") None.

(** A package whose license is the name of GPL-2.0-or-later. *)
Definition package_gpl : SbomRecord :=
  package "SPDXRef-g" "g" "library"
    (Some "GNU General Public License v2.0 or later") None.

(** A package whose license is the scanner's default. *)
Definition package_unknown : SbomRecord :=
  package "SPDXRef-u" "u" "library" (Some "UNKNOWN") None.

Section Characterisations.
Context {license_info : LicenseScanner}.

(** The value [_find_license_id] returns (see [find_license_id_value]). *)
Definition resolved_id (value : string) : string :=
  match get license_syns_reverse value with
  | Some id => id
  | None =>
      if negb (find_license_id value =? DEFAULT_LICENSE)
      then find_license_id value else value
  end.

(** The value [_ensure_len] returns for a string and [3 <= max_len]. *)
Definition shortened (text : string) (max_len : Z) : string :=
  if (max_len <? Z.of_nat (String.length text))%Z
  then slice_to text (max_len - 3) ++ "..." else text.

(** What [group_license] prints for [k] (see [group_license_value]). *)
Definition group_messages (debug : bool) (licenses_by_id : dict LicenseEntry)
    (k : string) : list Msg :=
  ((if is_license_text k then []
    else if license_expression k then [ExpressionWarning k] else [])
   ++ (if negb (resolved_id k =? k) && debug
       then [ResolvedWith (Some (shortened k 20)) (resolved_id k)] else [])
   ++ (match (if is_license_text k then Some k else None),
             stored_text licenses_by_id (resolved_id k) with
       | Some new_text, Some old_text =>
           if negb (new_text =? old_text)
           then [if debug then ConflictVersions (resolved_id k) new_text old_text
                 else ConflictCheckWithDebug (resolved_id k)]
           else []
       | _, _ => []
       end))%list.

(** The entry [group_license] stores for [k]. *)
Definition group_entry (licenses_by_id : dict LicenseEntry) (k : string) : LicenseEntry := {|
  entry_id := resolved_id k;
  license_text :=
    match stored_text licenses_by_id (resolved_id k) with
    | Some old_text => Some old_text
    | None => if is_license_text k then Some k else None
    end
|}.

(** The dict the loop over the keys [ks] leaves, from [licenses_by_id]
    (see [group_loop_value]). *)
Definition grouped (ks : list string) (licenses_by_id : dict LicenseEntry)
  : dict LicenseEntry :=
  fold_left
    (fun d k => if k =? "NOT KNOWN" then d else set d (resolved_id k) (group_entry d k))
    ks licenses_by_id.

(** Every value of [licenses_by_id] has its key as [id]. *)
Definition keyed_by_id (licenses_by_id : dict LicenseEntry) : Prop :=
  forall key value, In (key, value) licenses_by_id -> entry_id value = key.

(** A message about a conflict for the id [k]. *)
Definition is_conflict (k : string) (m : Msg) : bool :=
  match m with
  | ConflictVersions k' _ _ => k' =? k
  | ConflictCheckWithDebug k' => k' =? k
  | _ => false
  end.

End Characterisations.

Fixpoint replicate (n : nat) (s : string) : string :=
  match n with
  | O => EmptyString
  | S n' => s ++ replicate n' s
  end.

(** Two license texts: more than 200 characters, with a line break. *)
Definition mit_text_one : string :=
  "MIT License" ++ String newline (replicate 10 "Permission is hereby granted. ").

Definition mit_text_two : string :=
  "MIT License, as amended" ++ String newline (replicate 10 "Permission is granted. ").

(** A scanner that knows a text of the MIT license by its first line. *)
Definition text_scanner : LicenseScanner := {|
  DEFAULT_LICENSE := "UNKNOWN";
  find_license_id := fun license =>
    if prefix "MIT License" license then "MIT" else "UNKNOWN";
  license_expression := fun _ => false
|}.

(** The three diagnostic dicts are the same in [w] and [w']. *)
Definition same_diagnostics (w w' : World) : Prop :=
  copyright_info_missing_package_name_list w' = copyright_info_missing_package_name_list w
  /\ unknown_license_text_id_list w' = unknown_license_text_id_list w
  /\ license_info_missing_package_id_list w' = license_info_missing_package_id_list w.

(** [w'] is [w] after some lines were printed and [urls] were requested. *)
Definition after_requests (w w' : World) (urls : list string) : Prop :=
  same_diagnostics w w'
  /\ filesystem w' = filesystem w
  /\ requested w' = (requested w ++ urls)%list
  /\ exists msgs, stdout w' = (stdout w ++ msgs)%list.

Section Enrichment.
Context {license_info : LicenseScanner} {platform : Platform}.

(** Line 254. *)
Definition license_url (key : string) : string :=
  "https://spdx.org/licenses/" ++ strip key ++ ".json".

(** Lines 265-266: what the table of additional texts has for [key]. *)
Definition override_text (additional_license_texts : option (dict string))
    (key : string) : option string :=
  match additional_license_texts with
  | Some texts => get texts (upper (strip key))
  | None => None
  end.

(** The entry [fetch_license_text] returns, when it returns (see
    [fetch_license_text_value]). *)
Definition fetched_entry (additional_license_texts : option (dict string))
    (key : string) (value : LicenseEntry) : LicenseEntry :=
  if skip_lookup key value then value
  else
    match spdx_response (license_url key) with
    | Json (Some t) => {| entry_id := entry_id value; license_text := Some t |}
    | Failed | Json None =>
        match override_text additional_license_texts key with
        | Some t => {| entry_id := entry_id value; license_text := Some t |}
        | None => value
        end
    | JsonOther | Crashed _ => value
    end.

(** The URLs [fetch_license_text] requests. *)
Definition fetched_urls (key : string) (value : LicenseEntry) : list string :=
  if skip_lookup key value then [] else [license_url key].

End Enrichment.

(** Lines 320-331: the entry gets a paragraph and has no text, so that its
    id goes to [unknown_license_text_id_list]. *)
Definition reported_without_text (l : LicenseEntry) : bool :=
  negb (existsb (String.eqb (entry_id l)) ["UNKNOWN"; "NOASSERTION"; EmptyString])
  && match license_text l with None => true | Some _ => false end.

(** A package whose license is an id unknown to SPDX. *)
Definition package_house : SbomRecord :=
  package "SPDXRef-h" "h" "library" (Some "LicenseRef-house") None.

(** The three module-level diagnostic dicts. *)
Inductive Diagnostic :=
| MissingLicenseInfo
| MissingCopyrightInfo
| UnknownLicenseText.

Definition diagnostic_keys (s : Diagnostic) (w : World) : list string :=
  match s with
  | MissingLicenseInfo => keys (license_info_missing_package_id_list w)
  | MissingCopyrightInfo => keys (copyright_info_missing_package_name_list w)
  | UnknownLicenseText => keys (unknown_license_text_id_list w)
  end.

(** [w] with the three diagnostic dicts emptied: what a reset before a call
    would give. *)
Definition cleared (w : World) : World := {|
  copyright_info_missing_package_name_list := empty;
  unknown_license_text_id_list := empty;
  license_info_missing_package_id_list := empty;
  stdout := stdout w;
  requested := requested w;
  filesystem := filesystem w |}.

(** From [w] to [w'] the diagnostic dicts gained the keys [add], and no
    file was written. *)
Definition grows (add : Diagnostic -> list string) (w w' : World) : Prop :=
  (forall s k,
     In k (diagnostic_keys s w') <-> In k (diagnostic_keys s w) \/ In k (add s))
  /\ filesystem w' = filesystem w.

(** [m] ends the same way in every world, and adds the same keys to the
    diagnostic dicts: it does not read them. *)
Definition steady {A} (m : M A) : Prop :=
  exists (o : A + Exn) (add : Diagnostic -> list string),
    forall w, exists w',
      m w = match o with inl a => Returns a w' | inr e => Raises e w' end
      /\ grows add w w'.

(** [sorted(sbom_components)] at line 340 does not raise: fewer than two
    packages, or every package has a type. *)
Definition components_sortable (packages : list SbomRecord) : Prop :=
  List.length packages < 2
  \/ forall package, In package packages -> sbom_type package <> None.

(** The arguments of one call of [generate_document], [now] with them. *)
Record Call := {
  call_format : string;
  call_packages : list SbomRecord;
  call_files : list SbomRecord;
  call_filename : string;
  call_outfile : string;
  call_include_license : bool;
  call_debug : bool;
  call_additional_license_texts : option (dict string);
  call_now : string
}.

Definition run `{LicenseScanner} `{Platform} `{DocBuilder} (c : Call) : M unit :=
  generate_document (call_format c) (call_packages c) (call_files c)
    (call_filename c) (call_outfile c) (call_include_license c)
    (call_debug c) (call_additional_license_texts c) (call_now c).

(** The row of [k] in the CSV files with two columns, and with three. *)
Definition csv_row2 `{Platform} (k : string) : string :=
  quoted k ++ "," ++ quoted EmptyString ++ linesep.

Definition csv_row3 `{Platform} (k : string) : string :=
  quoted k ++ "," ++ quoted EmptyString ++ "," ++ quoted EmptyString ++ linesep.

(** The names of the three CSV files of a call at [now] (lines 373, 382, 391). *)
Definition missing_license_info_filename (now : string) : string :=
  "packages_missing_license_info-" ++ csv_timestamp now ++ ".csv".

Definition missing_copyright_info_filename (now : string) : string :=
  "packages_missing_copyright_info-" ++ csv_timestamp now ++ ".csv".

Definition unknown_license_text_filename (now : string) : string :=
  "license_ids_missing_text-" ++ csv_timestamp now ++ ".csv".

(** None of the three CSV files of a call at [now] is there yet. *)
Definition csv_files_new (now : string) (w : World) : Prop :=
  contains (filesystem w) (missing_license_info_filename now) = false
  /\ contains (filesystem w) (missing_copyright_info_filename now) = false
  /\ contains (filesystem w) (unknown_license_text_filename now) = false.

(** A first call, without debug output, and a later one with it. *)
Definition first_call : Call := {|
  call_format := "markdown";
  call_packages := [package_foo];
  call_files := [];
  call_filename := "sbom.json";
  call_outfile := "sbom.md";
  call_include_license := true;
  call_debug := false;
  call_additional_license_texts := None;
  call_now := "2026-11-04T09:43:00.123456"
|}.

Definition later_call : Call := {|
  call_format := "markdown";
  call_packages := [package "SPDXRef-bar" "bar" "library" (Some "MIT") (Some "(c) bar")];
  call_files := [];
  call_filename := "sbom.json";
  call_outfile := "sbom.md";
  call_include_license := false;
  call_debug := true;
  call_additional_license_texts := None;
  call_now := "2026-11-04T09:44:10.654321"
|}.

(** [m] takes every world to one related to it by [I], however it ends. *)
Definition keeps {A} (I : World -> World -> Prop) (m : M A) : Prop :=
  forall w, I w (world_after (m w)).

(** Nothing was requested and no id was added to
    [unknown_license_text_id_list] from [w] to [w']. *)
Definition no_lookup (w w' : World) : Prop :=
  requested w' = requested w
  /\ unknown_license_text_id_list w' = unknown_license_text_id_list w.

(** From [w] to [w'] every file kept its lines, and a file that is new is
    one of the three CSV files of a call at [now]. *)
Definition files_kept (now : string) (w w' : World) : Prop :=
  (forall f lines, get (filesystem w) f = Some lines ->
                   get (filesystem w') f = Some lines)
  /\ (forall f, contains (filesystem w') f = true ->
                contains (filesystem w) f = true
                \/ In f [missing_license_info_filename now;
                         missing_copyright_info_filename now;
                         unknown_license_text_filename now]).

(** Two packages, the second without a type. *)
Definition package_untyped : SbomRecord := {|
  sbom_id := Some "SPDXRef-n";
  sbom_name := Some "n";
  sbom_version := Some "1.0";
  sbom_type := None;
  sbom_supplier := None;
  sbom_licenselist := None;
  sbom_licenseconcluded := Some "MIT";
  sbom_copyrighttext := Some "(c) n"
|}.

Definition untyped_call : Call := {|
  call_format := "markdown";
  call_packages := [package_foo; package_untyped];
  call_files := [];
  call_filename := "sbom.json";
  call_outfile := "sbom.md";
  call_include_license := false;
  call_debug := true;
  call_additional_license_texts := None;
  call_now := "2026-11-04T09:45:00.000001"
|}.

(** ** [cli.py] *)

(** What [open] and [json.load] give for a path: they raise, or the JSON
    value read is not an object, or it is one; the members of the object are
    taken to be strings. *)
Inductive JsonFile :=
| Unreadable
| NotAnObject
| JsonObject (members : dict string).

(** What [SBOMParser.parse_file] gives: [FileNotFoundError], or the packages
    and files [get_packages] and [get_files] return afterwards. *)
Inductive ParsedSbom :=
| SbomNotFound
| Sbom (packages files : list SbomRecord).

(** The values of the command line arguments. *)
Inductive PyValue :=
| PyStr (s : string)
| PyBool (b : bool)
| PyNone.

(** The namespace [parser.parse_args] returns. *)
Record Namespace := {
  ns_input_file : string;
  ns_debug : bool;
  ns_include_license : bool;
  ns_additional_license_texts : option string;
  ns_format : string;
  ns_content_structure : string;
  ns_output_file : string
}.

(** What [main] prints. *)
Inductive CliMsg :=
| ErrorSbomName
| ErrorOutputFilename
| InputFile (v : PyValue)
| OutputFile (v : PyValue)
| IncludeLicenseText (v : PyValue)
| ErrorContentStructure
| SbomFileNotFound (input_file : string).

(** The collaborators of [main]: the file of additional texts, the parser,
    the clock, and [sbom2doc.generator.generate_document], a module of the
    repository that is not among the sources at hand. *)
Class Shell := {
  json_load : string -> JsonFile;
  parse_file : string -> ParsedSbom;
  datetime_now : string;
  generator_generate_document :
    PyValue -> list SbomRecord -> list SbomRecord -> string -> PyValue ->
    bool -> bool -> option (dict string) -> M unit
}.

(** Lines 19-31; whatever is raised inside [try] is raised again as the
    [Exception] of line 31. *)
Definition parse_additional_license_texts `{Shell}
    (additional_license_texts_file : string) : M (dict string) :=
  let failed :=
    Exception ("Expected path to JSON file with object, got '"
               ++ additional_license_texts_file ++ "'") in
  match json_load additional_license_texts_file with
  | Unreadable => raise failed
  | NotAnObject => raise failed
  | JsonObject additional_license_texts =>
      try_except
        (for_each (keys additional_license_texts)
           (fun additional_license_texts_caps k =>
              v <- getitem additional_license_texts k ;;
              ret (set additional_license_texts_caps (upper k) v))
           empty)
        (fun _ => true)
        (raise failed)
  end.

(** How [main] goes on: to the next statement, out by [return], or out by an
    exception nobody catches. *)
Inductive CliOutcome (A : Type) : Type :=
| Next (a : A) (out : list CliMsg) (w : World)
| Return (code : Z) (out : list CliMsg) (w : World)
| Uncaught (e : Exn) (out : list CliMsg) (w : World).
Arguments Next {A} a out w.
Arguments Return {A} code out w.
Arguments Uncaught {A} e out w.

Definition Cli (A : Type) : Type := list CliMsg -> World -> CliOutcome A.

Definition cli_ret {A} (a : A) : Cli A := fun out w => Next a out w.

Definition cli_bind {A B} (m : Cli A) (f : A -> Cli B) : Cli B :=
  fun out w =>
    match m out w with
    | Next a out' w' => f a out' w'
    | Return code out' w' => Return code out' w'
    | Uncaught e out' w' => Uncaught e out' w'
    end.

Definition cli_return {A} (code : Z) : Cli A := fun out w => Return code out w.

Definition cli_print (m : CliMsg) : Cli unit := fun out w => Next tt (out ++ [m])%list w.

(** A call of code of the generator. *)
Definition cli_call {A} (m : M A) : Cli A :=
  fun out w =>
    match m w with
    | Returns a w' => Next a out w'
    | Raises e w' => Uncaught e out w'
    end.

(** [try: body except exc: handler] in [main]. *)
Definition cli_try_except {A} (body : Cli A) (exc : Exn -> bool) (handler : Cli A)
  : Cli A :=
  fun out w =>
    match body out w with
    | Uncaught e out' w' => if exc e then handler out' w' else Uncaught e out' w'
    | o => o
    end.

Declare Scope cli_scope.
Delimit Scope cli_scope with cli.
Notation "x <- m ;; k" := (cli_bind m (fun x => k))
  (at level 61, m at next level, right associativity) : cli_scope.
Notation "m ;; k" := (cli_bind m (fun _ => k))
  (at level 61, right associativity) : cli_scope.

Definition truthy (v : PyValue) : bool :=
  match v with
  | PyStr s => negb (s =? EmptyString)
  | PyBool b => b
  | PyNone => false
  end.

(** [v == s] for a string [s]. *)
Definition is_str (v : PyValue) (s : string) : bool :=
  match v with
  | PyStr s' => s' =? s
  | _ => false
  end.

(** [vars(raw_args)] *)
Definition vars (raw_args : Namespace) : dict PyValue := [
  ("input_file", PyStr (ns_input_file raw_args));
  ("debug", PyBool (ns_debug raw_args));
  ("include_license", PyBool (ns_include_license raw_args));
  ("additional_license_texts",
   match ns_additional_license_texts raw_args with
   | Some path => PyStr path
   | None => PyNone
   end);
  ("format", PyStr (ns_format raw_args));
  ("content_structure", PyStr (ns_content_structure raw_args));
  ("output_file", PyStr (ns_output_file raw_args))
].

(** Lines 104-112. *)
Definition defaults : dict PyValue := [
  ("input_file", PyStr EmptyString);
  ("output_file", PyStr EmptyString);
  ("debug", PyBool false);
  ("cotent_structure", PyStr "full");
  ("format", PyStr "console");
  ("include_license", PyBool false);
  ("additional_license_texts", PyNone)
].

(** [ChainMap(args, defaults)[key]] *)
Definition chain_getitem (args : dict PyValue) (key : string) : Cli PyValue :=
  match get args key with
  | Some v => cli_ret v
  | None => cli_call (getitem defaults key)
  end.

(** The string a value is; the values of [format] and [output_file] are
    strings. *)
Definition str_of (v : PyValue) : string :=
  match v with PyStr s => s | _ => EmptyString end.

(** Line 141: [sbom_parser.parse_file(input_file)], the packages and files
    the parser has afterwards returned. *)
Definition sbom_parser_parse_file `{Shell} (input_file : string)
  : Cli (list SbomRecord * list SbomRecord) :=
  match parse_file input_file with
  | SbomNotFound => cli_call (raise FileNotFoundError)
  | Sbom packages files => cli_ret (packages, files)
  end.

(** Lines 138-163 of [main]: the [try] statement, which has the call of the
    generator in it, and the [return] after it. *)
Definition main_generate `{LicenseScanner} `{Platform} `{DocBuilder} `{Shell}
    (args : dict PyValue) (input_file : string) : Cli Z :=
  (cli_try_except
     (parsed <- sbom_parser_parse_file input_file ;;
      let packages := fst parsed in
      let files := snd parsed in
      path <- chain_getitem args "additional_license_texts" ;;
      additional_license_texts <-
        match path with
        | PyStr path =>
            texts <- cli_call (parse_additional_license_texts path) ;;
            cli_ret (Some texts)
        | _ => cli_ret None
        end ;;
      content_structure <- chain_getitem args "content_structure" ;;
      format <- chain_getitem args "format" ;;
      output_file <- chain_getitem args "output_file" ;;
      include_license <- chain_getitem args "include_license" ;;
      debug <- chain_getitem args "debug" ;;
      if is_str content_structure "simple" then
        cli_call (generate_document (str_of format) packages files input_file
                    (str_of output_file) (truthy include_license) (truthy debug)
                    additional_license_texts datetime_now)
      else
        cli_call (generator_generate_document format packages files input_file
                    output_file (truthy include_license) (truthy debug)
                    additional_license_texts))
     (fun e => match e with FileNotFoundError => true | _ => false end)
     (cli_print (SbomFileNotFound input_file)) ;;
   cli_return 0%Z)%cli.

(** Lines 114-163 of [main]; [raw_args] is what [parser.parse_args] gave. *)
Definition main `{LicenseScanner} `{Platform} `{DocBuilder} `{Shell}
    (raw_args : Namespace) : Cli Z :=
  (let args := filter (fun '(key, value) => truthy value) (vars raw_args) in
   input_file <- chain_getitem args "input_file" ;;
   if is_str input_file EmptyString then
     cli_print ErrorSbomName ;; cli_return (-1)%Z
   else
   format <- chain_getitem args "format" ;;
   missing_output <-
     (if negb (is_str format "console") then
        output_file <- chain_getitem args "output_file" ;;
        cli_ret (is_str output_file EmptyString)
      else cli_ret false) ;;
   if (missing_output : bool) then
     cli_print ErrorOutputFilename ;; cli_return (-1)%Z
   else
   debug <- chain_getitem args "debug" ;;
   (if truthy debug then
      v <- chain_getitem args "input_file" ;; cli_print (InputFile v) ;;
      v <- chain_getitem args "output_file" ;; cli_print (OutputFile v) ;;
      v <- chain_getitem args "include_license" ;; cli_print (IncludeLicenseText v)
    else cli_ret tt) ;;
   content_structure <- chain_getitem args "content_structure" ;;
   (if negb (is_str content_structure "full" || is_str content_structure "simple")
    then cli_print ErrorContentStructure else cli_ret tt) ;;
   main_generate args
     match input_file with PyStr s => s | _ => EmptyString end)%cli.

(** The names [main] asks for are given: an SBOM file, and an output file
    unless the format is [console]. *)
Definition names_given (raw_args : Namespace) : Prop :=
  ns_input_file raw_args <> EmptyString
  /\ (ns_format raw_args = EmptyString \/ ns_format raw_args = "console"
      \/ ns_output_file raw_args <> EmptyString).

(** What [main] prints before it calls the parser (lines 130-137). *)
Definition main_messages (raw_args : Namespace) : list CliMsg :=
  ((if ns_debug raw_args
    then [InputFile (PyStr (ns_input_file raw_args));
          OutputFile (PyStr (ns_output_file raw_args));
          IncludeLicenseText (PyBool (ns_include_license raw_args))]
    else [])
   ++ (if (ns_content_structure raw_args =? "full")
          || (ns_content_structure raw_args =? "simple")
       then [] else [ErrorContentStructure]))%list.

(** A command line. *)
Definition command_line (input_file : string) : Namespace := {|
  ns_input_file := input_file;
  ns_debug := false;
  ns_include_license := true;
  ns_additional_license_texts := Some "texts.json";
  ns_format := "console";
  ns_content_structure := "simple";
  ns_output_file := EmptyString
|}.

(** A shell with one SBOM and one file of additional texts. *)
Definition sample_shell : Shell := {|
  json_load := fun path =>
    if path =? "texts.json"
    then JsonObject [("mit", "MIT text"); ("LicenseRef-house", "House text")]
    else if path =? "list.json" then NotAnObject else Unreadable;
  parse_file := fun path =>
    if path =? "sbom.json" then Sbom [package_house] [] else SbomNotFound;
  datetime_now := "2026-11-04T09:46:00.000001";
  generator_generate_document := fun _ _ _ _ _ _ _ _ => ret tt
|}.

(** Lines 48-51, for a table [syns]. *)
Definition reverse_syns (syns : dict (list string)) : dict string :=
  fold_left
    (fun rev '(k, v) => fold_left (fun rev kk => set rev kk k) v rev)
    (items syns) empty.

(** Lines 78-85: what an entry of [licenselist] adds to the list. *)
Definition listed_license (l : option LicenseObject) : list string :=
  match l with
  | None => []
  | Some license =>
      match lic_id license, lic_name license, lic_text license with
      | Some id, _, _ => [id]
      | None, Some name, _ => [name]
      | None, None, Some text => [text]
      | None, None, None => []
      end
  end.

(** A package with a structured license list. *)
Definition package_listed : SbomRecord := {|
  sbom_id := Some "SPDXRef-l";
  sbom_name := Some "l";
  sbom_version := Some "1.0";
  sbom_type := Some "library";
  sbom_supplier := None;
  sbom_licenselist :=
    Some [None;
          Some {| lic_id := None; lic_name := Some "MIT License"; lic_text := Some "text" |};
          Some {| lic_id := None; lic_name := None; lic_text := None |};
          Some {| lic_id := Some "MIT"; lic_name := Some "MIT License"; lic_text := None |}];
  sbom_licenseconcluded := Some "Apache-2.0";
  sbom_copyrighttext := None
|}.

(** What [main] prints with [debug] (lines 130-133). *)
Definition debug_messages (raw_args : Namespace) : list CliMsg :=
  if ns_debug raw_args
  then [InputFile (PyStr (ns_input_file raw_args));
        OutputFile (PyStr (ns_output_file raw_args));
        IncludeLicenseText (PyBool (ns_include_license raw_args))]
  else [].

(** The file of additional texts, if one is named, holds a JSON object. *)
Definition additional_texts_readable `{Shell} (raw_args : Namespace) : Prop :=
  match ns_additional_license_texts raw_args with
  | Some path =>
      path = EmptyString
      \/ exists o, json_load path = JsonObject o /\ NoDup (keys o)
  | None => True
  end.

(** The table [main] passes on as [additional_license_texts] then. *)
Definition additional_texts_of `{Shell} (raw_args : Namespace) : option (dict string) :=
  match ns_additional_license_texts raw_args with
  | Some path =>
      if path =? EmptyString then None
      else
        match json_load path with
        | JsonObject o =>
            Some (fold_left (fun caps '(k, v) => set caps (upper k) v) o empty)
        | _ => None
        end
  | None => None
  end.

(** SPDX knows the text of MIT, and nothing else. *)
Definition spdx_online : Platform := {|
  spdx_response := fun url =>
    if url =? "https://spdx.org/licenses/MIT.json"
    then Json (Some "MIT License text") else Failed;
  linesep := String newline EmptyString
|}.

(** Line 70 and line 96: the name under which a record is recorded. *)
Definition record_name (o : SbomRecord) : string :=
  get_default (sbom_name o) "(package name missing)".

(** Lines 73, 86 and 90: [_get_licenses] comes to [NOT KNOWN] for [o]. *)
Definition lacks_license (o : SbomRecord) : bool :=
  match sbom_licenselist o with
  | Some license_list =>
      match license_list_simple license_list with [] => true | _ => false end
  | None => true
  end
  && (get_default (sbom_licenseconcluded o) "NOT KNOWN" =? "NOT KNOWN").

(** Lines 97-99: [_get_copyright] comes to the placeholder for [o]. *)
Definition lacks_copyright (o : SbomRecord) : bool :=
  ("Not extracted, please search " ++ record_name o)
  =? get_default (sbom_copyrighttext o) ("Not extracted, please search " ++ record_name o).

(** From [w] to [w'] the names [L] were added to
    [license_info_missing_package_id_list] and the names [C] to
    [copyright_info_missing_package_name_list]. *)
Definition names_added (L C : list string) (w w' : World) : Prop :=
  (forall k, In k (keys (license_info_missing_package_id_list w'))
             <-> In k (keys (license_info_missing_package_id_list w)) \/ In k L)
  /\ (forall k, In k (keys (copyright_info_missing_package_name_list w'))
                <-> In k (keys (copyright_info_missing_package_name_list w)) \/ In k C).

(** A file without license and without copyright text. *)
Definition file_bare : SbomRecord := {|
  sbom_id := Some "SPDXRef-File";
  sbom_name := Some "main.c";
  sbom_version := None;
  sbom_type := None;
  sbom_supplier := None;
  sbom_licenselist := Some [];
  sbom_licenseconcluded := None;
  sbom_copyrighttext := None
|}.

(** The answer of SPDX to [url] is a JSON object or a [RequestException]:
    lines 257-261 do not raise for it. *)
Definition answered `{Platform} (url : string) : Prop :=
  spdx_response url = Failed \/ exists licenseText, spdx_response url = Json licenseText.

(** Every entry of [licenses_by_id] that is looked up is answered so. *)
Definition lookups_answered `{LicenseScanner} `{Platform}
    (licenses_by_id : dict LicenseEntry) : Prop :=
  forall key value,
    In (key, value) licenses_by_id -> skip_lookup key value = false ->
    answered (license_url key).

(** The enrichment of a call cannot raise: the call has none, or SPDX
    answers every URL with a JSON object or a [RequestException]. *)
Definition enrichment_answered `{Platform} (include_license : bool) : Prop :=
  include_license = false \/ forall url, answered url.

(** [publish] returns for the call [c] when the files are those of [w], and
    leaves the three CSV files of the call as they are. *)
Definition publish_returns `{DocBuilder} (c : Call) (w : World) : Prop :=
  forall doc,
    published_raised (publish (call_format c) (call_outfile c) doc (filesystem w)) = None
    /\ forall f,
         In f [missing_license_info_filename (call_now c);
               missing_copyright_info_filename (call_now c);
               unknown_license_text_filename (call_now c)] ->
         get (published_files
                (publish (call_format c) (call_outfile c) doc (filesystem w))) f
         = get (filesystem w) f.


(** SPDX answers every request with a JSON list. *)
Definition spdx_lists : Platform := {|
  spdx_response := fun _ => JsonOther;
  linesep := String newline EmptyString
|}.

(** * Facts *)

(** ** Text *)

Module PyStrFacts.

Lemma length_substring0 (m : nat) (s : string) :
  String.length (substring 0 m s) = Nat.min m (String.length s).
Proof.
  revert m; induction s as [|a s IH]; intros [|m]; simpl; auto.
Qed.

Lemma length_append (s t : string) :
  String.length (s ++ t)%string = String.length s + String.length t.
Proof. induction s; simpl; auto. Qed.

Lemma length_slice_to (s : string) (stop : Z) :
  (0 <= stop)%Z ->
  String.length (slice_to s stop) = Nat.min (Z.to_nat stop) (String.length s).
Proof.
  intros H. unfold slice_to.
  destruct (Z.ltb_spec stop 0); [lia|].
  rewrite length_substring0. lia.
Qed.

Lemma slice_to_prefix (s : string) (stop : Z) :
  (0 <= stop)%Z -> slice_to s stop = substring 0 (Z.to_nat stop) s.
Proof.
  intros H. unfold slice_to.
  destruct (Z.ltb_spec stop 0); [lia|].
  destruct (Z.le_ge_cases stop (Z.of_nat (String.length s))) as [Hle|Hge].
  - rewrite Z.min_l by lia. reflexivity.
  - rewrite Z.min_r by lia. rewrite Nat2Z.id.
    assert (Hn : String.length s <= Z.to_nat stop) by lia.
    clear -Hn. revert Hn. generalize (Z.to_nat stop) as m.
    induction s as [|a s IH]; intros [|m] Hn; simpl in *; try lia; auto.
    f_equal. apply IH. lia.
Qed.

Example slice_to_negative : slice_to "2026-11-04T094300" (-1) = "2026-11-04T09430".
Proof. reflexivity. Qed.

Example strip_spaces : strip "  BSD 3-Clause  " = "BSD 3-Clause".
Proof. reflexivity. Qed.

Example upper_id : upper "Apache-2.0" = "APACHE-2.0".
Proof. reflexivity. Qed.

Example sorted_strings : sorted ["mit"; "Apache-2.0"; "MIT"; "Apache-2.0"]
                         = ["Apache-2.0"; "Apache-2.0"; "MIT"; "mit"].
Proof. reflexivity. Qed.

End PyStrFacts.

(** ** Dictionaries *)

Module PyDictFacts.
Section DictFacts.
Context {V : Type}.
Implicit Types (d : dict V) (k : string) (v : V).

Lemma get_set_same d k v : get (set d k v) k = Some v.
Proof.
  induction d as [|[k' v'] r IH]; simpl.
  - now rewrite String.eqb_refl.
  - destruct (String.eqb_spec k' k) as [->|Hne]; simpl.
    + now rewrite String.eqb_refl.
    + destruct (String.eqb_spec k' k); [contradiction|exact IH].
Qed.

Lemma get_set_other d k k0 v : k <> k0 -> get (set d k v) k0 = get d k0.
Proof.
  intros Hne. induction d as [|[k' v'] r IH]; simpl.
  - destruct (String.eqb_spec k k0); [contradiction|reflexivity].
  - destruct (String.eqb_spec k' k) as [->|Hk]; simpl.
    + destruct (String.eqb_spec k k0); [contradiction|reflexivity].
    + now rewrite IH.
Qed.

Lemma get_Some_In d k v : get d k = Some v -> In k (keys d).
Proof.
  induction d as [|[k' v'] r IH]; simpl; [discriminate|].
  destruct (String.eqb_spec k' k); auto.
Qed.

Lemma In_get_Some d k : In k (keys d) -> exists v, get d k = Some v.
Proof.
  induction d as [|[k' v'] r IH]; simpl; [tauto|].
  intros [->|Hin].
  - rewrite String.eqb_refl. eauto.
  - destruct (String.eqb_spec k' k); eauto.
Qed.

Lemma contains_In d k : contains d k = true <-> In k (keys d).
Proof.
  unfold contains. split.
  - destruct (get d k) eqn:E; [|discriminate]. intros _. eapply get_Some_In; eauto.
  - intros H. destruct (In_get_Some _ _ H) as [v ->]. reflexivity.
Qed.

Lemma contains_false d k : contains d k = false <-> ~ In k (keys d).
Proof.
  rewrite <- contains_In. destruct (contains d k); split; congruence.
Qed.

Lemma keys_set d k v :
  keys (set d k v) = if contains d k then keys d else (keys d ++ [k])%list.
Proof.
  unfold contains.
  induction d as [|[k' v'] r IH]; simpl; [reflexivity|].
  destruct (String.eqb_spec k' k) as [->|Hne]; simpl; [reflexivity|].
  rewrite IH. now destruct (get r k).
Qed.

Lemma In_keys_set d k v k0 :
  In k0 (keys (set d k v)) <-> k0 = k \/ In k0 (keys d).
Proof.
  rewrite keys_set. destruct (contains d k) eqn:E.
  - apply contains_In in E. split; [auto|]. intros [->|H]; auto.
  - rewrite in_app_iff; simpl. intuition.
Qed.

Lemma NoDup_keys_set d k v : NoDup (keys d) -> NoDup (keys (set d k v)).
Proof.
  intros H. rewrite keys_set. destruct (contains d k) eqn:E; [exact H|].
  apply contains_false in E.
  apply NoDup_app; [exact H|repeat constructor; simpl; tauto|].
  intros x Hx [<-|[]]. contradiction.
Qed.

Lemma In_set_inv d k k0 v v0 :
  In (k0, v0) (set d k v) -> (k0 = k /\ v0 = v) \/ In (k0, v0) d.
Proof.
  induction d as [|[k' v'] r IH]; simpl.
  - intros [H|[]]. inversion H. auto.
  - destruct (String.eqb_spec k' k) as [->|Hne]; simpl.
    + intros [H|H]; [inversion H; auto|auto].
    + intros [H|H]; [auto|]. destruct (IH H); auto.
Qed.

Lemma get_In_items d k v : get d k = Some v -> In (k, v) d.
Proof.
  induction d as [|[k' v'] r IH]; simpl; [discriminate|].
  destruct (String.eqb_spec k' k) as [->|Hne].
  - intros H. inversion H. now left.
  - intros H. right. now apply IH.
Qed.

Lemma NoDup_In_get d k v : NoDup (keys d) -> In (k, v) d -> get d k = Some v.
Proof.
  induction d as [|[k' v'] r IH]; simpl; [tauto|].
  intros Hnd [Heq|Hin].
  - inversion Heq; subst. now rewrite String.eqb_refl.
  - inversion Hnd as [|? ? Hk Hnd']; subst.
    destruct (String.eqb_spec k' k) as [->|Hne].
    + elim Hk. change (In (fst (k, v)) (map fst r)). now apply in_map.
    + now apply IH.
Qed.

Lemma get_map_values (f : string -> V -> V) d k :
  get (map (fun '(key, value) => (key, f key value)) d) k
  = match get d k with Some v => Some (f k v) | None => None end.
Proof.
  induction d as [|[k' v'] r IH]; simpl; [reflexivity|].
  destruct (String.eqb_spec k' k) as [->|Hne]; [reflexivity|exact IH].
Qed.

Lemma keys_map_values (f : string -> V -> V) d :
  keys (map (fun '(key, value) => (key, f key value)) d) = keys d.
Proof.
  unfold keys. induction d as [|[k' v'] r IH]; simpl; [reflexivity|].
  now rewrite IH.
Qed.

End DictFacts.
End PyDictFacts.

Import PyStrFacts PyDictFacts.

(** ** The monad *)

Lemma bind_Returns {A B} (m : M A) (f : A -> M B) (w w' : World) (a : A) :
  m w = Returns a w' -> bind m f w = f a w'.
Proof. intros H. unfold bind. now rewrite H. Qed.

Lemma bind_Raises {A B} (m : M A) (f : A -> M B) (w w' : World) (e : Exn) :
  m w = Raises e w' -> bind m f w = Raises e w'.
Proof. intros H. unfold bind. now rewrite H. Qed.

(** ** The helpers *)

Lemma getitem_get {V} (d : dict V) (k : string) (v : V) (w : World) :
  get d k = Some v -> getitem d k w = Returns v w.
Proof. intros H. unfold getitem. now rewrite H. Qed.

Lemma getitem_contains {V} (d : dict V) (k : string) (w : World) :
  contains d k = true -> exists v, get d k = Some v /\ getitem d k w = Returns v w.
Proof.
  unfold contains, getitem. destruct (get d k) as [v|]; [|discriminate].
  intros _. now exists v.
Qed.

(** C8: for every text and every maximum length [n >= 3], [_ensure_len]
    returns a string of length at most [n]: the first [n - 3] characters
    followed by the three-character marker [...] when the text is longer than
    [n], the text itself otherwise; for [n < 3] it raises, whatever the text
    argument is.  The world is left as it was. *)
Theorem ensure_len_truncates (text : string) (n : Z) (w : World) :
  ((3 <= n)%Z ->
     exists r, _ensure_len (Some text) n w = Returns (Some r) w
       /\ (Z.of_nat (String.length r) <= n)%Z
       /\ ((n < Z.of_nat (String.length text))%Z ->
             r = substring 0 (Z.to_nat (n - 3)) text ++ "...")
       /\ ((Z.of_nat (String.length text) <= n)%Z -> r = text))
  /\ ((n < 3)%Z ->
        forall t : option string, exists e, _ensure_len t n w = Raises e w).
Proof.
  split.
  - intros Hn. unfold _ensure_len.
    destruct (Z.ltb_spec n 3) as [|_]; [lia|].
    destruct (Z.ltb_spec n (Z.of_nat (String.length text))) as [Hlong|Hshort].
    + exists (slice_to text (n - 3) ++ "..."). split; [reflexivity|].
      split; [|split].
      * rewrite length_append, length_slice_to by lia. simpl. lia.
      * intros _. now rewrite slice_to_prefix by lia.
      * lia.
    + exists text. repeat split; auto; lia.
  - intros Hn t. unfold _ensure_len.
    destruct (Z.ltb_spec n 3) as [_|]; [|lia].
    eexists. reflexivity.
Qed.

Lemma ensure_len_truncates_witness :
  (exists r, _ensure_len (Some "abcdefghij") 5 initial_world
             = Returns (Some r) initial_world
     /\ (Z.of_nat (String.length r) <= 5)%Z
     /\ ((5 < Z.of_nat (String.length "abcdefghij"))%Z ->
           r = substring 0 (Z.to_nat (5 - 3)) "abcdefghij" ++ "...")
     /\ ((Z.of_nat (String.length "abcdefghij") <= 5)%Z -> r = "abcdefghij"))
  /\ (forall t : option string,
        exists e, _ensure_len t 2 initial_world = Raises e initial_world).
Proof.
  split.
  - apply (proj1 (ensure_len_truncates "abcdefghij" 5 initial_world)). lia.
  - apply (proj2 (ensure_len_truncates "abcdefghij" 2 initial_world)). lia.
Defined.

(** [None] goes through [_ensure_len] as it is. *)
Lemma ensure_len_None (n : Z) (w : World) :
  (3 <= n)%Z -> _ensure_len None n w = Returns None w.
Proof.
  intros Hn. unfold _ensure_len. destruct (Z.ltb_spec n 3); [lia|reflexivity].
Qed.

Lemma ensure_len_returns (text : string) (n : Z) (w : World) :
  (3 <= n)%Z -> exists r, _ensure_len (Some text) n w = Returns (Some r) w.
Proof.
  intros Hn. unfold _ensure_len. destruct (Z.ltb_spec n 3); [lia|].
  destruct (n <? Z.of_nat (String.length text))%Z; eauto.
Qed.

(** With a fraction of a second [now] is cut at the dot; without one
    [find] gives -1 and the last character is cut. *)
Example csv_timestamp_fraction :
  csv_timestamp "2026-11-04T09:43:00.123456" = "2026-11-04T094300".
Proof. reflexivity. Qed.

Example csv_timestamp_whole_second :
  csv_timestamp "2026-11-04T09:43:00" = "2026-11-04T09430".
Proof. reflexivity. Qed.

Example license_syns_reverse_size : List.length license_syns_reverse = 18.
Proof. reflexivity. Qed.

Section HelperFacts.
Context {license_info : LicenseScanner}.

Lemma license_syns_reverse_spec (id value : string) (syns : list string) :
  In (id, syns) license_syns -> In value syns ->
  get license_syns_reverse value = Some id.
Proof.
  intros Hin Hv. unfold license_syns in Hin. simpl in Hin.
  repeat (destruct Hin as [Heq|Hin];
          [ inversion Heq; subst; clear Heq; simpl in Hv;
            repeat (destruct Hv as [<-|Hv]; [vm_compute; reflexivity|]);
            destruct Hv
          | ]).
  destruct Hin.
Qed.

Lemma find_license_id_synonym (value id : string) (w : World) :
  get license_syns_reverse value = Some id ->
  _find_license_id value w = Returns id w.
Proof.
  intros H. unfold _find_license_id, contains. rewrite H.
  now apply getitem_get.
Qed.

Lemma find_license_id_returns (value : string) (w : World) :
  exists r, _find_license_id value w = Returns r w.
Proof.
  unfold _find_license_id, contains, getitem.
  destruct (get license_syns_reverse value) as [id|].
  - now exists id.
  - destruct (negb _); eexists; reflexivity.
Qed.

(** C2: for a raw string that is a key of the synonym table
    [license_syns_reverse] (that is, listed under an id in [license_syns]),
    [_find_license_id] returns the id it is mapped to; for a raw string that
    is not a key and for which the scanner gives [DEFAULT_LICENSE], it returns
    the string as it is; and it returns, without raising, for every string. *)
Theorem find_license_id_resolves (value : string) (w : World) :
  (forall id, get license_syns_reverse value = Some id ->
     _find_license_id value w = Returns id w)
  /\ (forall id syns, In (id, syns) license_syns -> In value syns ->
        _find_license_id value w = Returns id w)
  /\ (contains license_syns_reverse value = false ->
      find_license_id value = DEFAULT_LICENSE ->
      _find_license_id value w = Returns value w)
  /\ (exists r, _find_license_id value w = Returns r w).
Proof.
  split; [|split; [|split]].
  - intros id. apply find_license_id_synonym.
  - intros id syns Hin Hv. apply find_license_id_synonym.
    eapply license_syns_reverse_spec; eauto.
  - intros Hc Hd. unfold _find_license_id. rewrite Hc, Hd.
    now rewrite String.eqb_refl.
  - apply find_license_id_returns.
Qed.

End HelperFacts.

Lemma find_license_id_resolves_witness :
  @_find_license_id sample_scanner "Apache-2.0 license" initial_world
  = Returns "Apache-2.0" initial_world
  /\ @_find_license_id sample_scanner "BSD 3-Clause" initial_world
     = Returns "BSD-3-Clause" initial_world
  /\ @_find_license_id sample_scanner "LicenseRef-house" initial_world
     = Returns "LicenseRef-house" initial_world.
Proof.
  split; [|split].
  - apply (proj1 (@find_license_id_resolves sample_scanner
                    "Apache-2.0 license" initial_world)).
    reflexivity.
  - apply (proj1 (proj2 (@find_license_id_resolves sample_scanner
                           "BSD 3-Clause" initial_world))
             "BSD-3-Clause"
             ["https://opensource.org/licenses/BSD-3-Clause";
              "3-Clause BSD License";
              "http://www.eclipse.org/org/documents/edl-v10.php";
              "BSD 3-Clause";
              "BSD 3-Clause License"]).
    + simpl. auto.
    + simpl. auto.
  - apply (proj1 (proj2 (proj2 (@find_license_id_resolves sample_scanner
                                  "LicenseRef-house" initial_world)))).
    + reflexivity.
    + reflexivity.
Defined.

(** ** The extractors *)

Lemma get_licenses_concluded (o : SbomRecord) (w : World) :
  no_listed_license o ->
  _get_licenses o w
  = concluded_license o (get_default (sbom_name o) "(package name missing)") w.
Proof.
  unfold no_listed_license, _get_licenses.
  destruct (sbom_licenselist o) as [license_list|]; [|reflexivity].
  intros ->. simpl. now destruct (0 <? List.length license_list)%nat.
Qed.

Lemma get_licenses_listed (o : SbomRecord) (license_list : list (option LicenseObject))
    (w : World) :
  sbom_licenselist o = Some license_list ->
  license_list_simple license_list <> [] ->
  _get_licenses o w = Returns (license_list_simple license_list) w.
Proof.
  intros Hl Hne. unfold _get_licenses. rewrite Hl.
  destruct license_list as [|l r]; [now elim Hne|].
  simpl List.length. simpl Nat.ltb.
  destruct (license_list_simple (l :: r)) eqn:E; [now elim Hne|reflexivity].
Qed.

(** C5, as the code has it: for a record whose structured license list
    yields no entry and which has no [licenseconcluded], [_get_licenses]
    returns exactly [["NOT KNOWN"]] and records the NAME of the record (the
    text [(package name missing)] when it has none) in
    [license_info_missing_package_id_list]; when the structured list yields at
    least one entry, those entries are returned whatever [licenseconcluded]
    is, and the world (the diagnostic dicts with it) is left as it was. *)
Theorem get_licenses_fallback (o : SbomRecord) (w : World) :
  (no_listed_license o -> sbom_licenseconcluded o = None ->
   exists w',
     _get_licenses o w = Returns ["NOT KNOWN"] w'
     /\ license_info_missing_package_id_list w'
        = set (license_info_missing_package_id_list w)
              (get_default (sbom_name o) "(package name missing)") true
     /\ In (get_default (sbom_name o) "(package name missing)")
           (keys (license_info_missing_package_id_list w'))
     /\ copyright_info_missing_package_name_list w'
        = copyright_info_missing_package_name_list w
     /\ unknown_license_text_id_list w' = unknown_license_text_id_list w)
  /\ (forall license_list,
        sbom_licenselist o = Some license_list ->
        license_list_simple license_list <> [] ->
        _get_licenses o w = Returns (license_list_simple license_list) w).
Proof.
  split.
  - intros Hnone Hconc. rewrite get_licenses_concluded by assumption.
    unfold concluded_license. rewrite Hconc. simpl.
    eexists. split; [reflexivity|]. simpl. repeat split.
    apply In_keys_set. now left.
  - intros license_list. apply get_licenses_listed.
Qed.

Lemma get_licenses_fallback_witness :
  (exists w',
     _get_licenses package_foo initial_world = Returns ["NOT KNOWN"] w'
     /\ license_info_missing_package_id_list w'
        = set (license_info_missing_package_id_list initial_world)
              (get_default (sbom_name package_foo) "(package name missing)") true
     /\ In (get_default (sbom_name package_foo) "(package name missing)")
           (keys (license_info_missing_package_id_list w'))
     /\ copyright_info_missing_package_name_list w'
        = copyright_info_missing_package_name_list initial_world
     /\ unknown_license_text_id_list w' = unknown_license_text_id_list initial_world).
Proof.
  apply (proj1 (get_licenses_fallback package_foo initial_world)).
  - exact I.
  - reflexivity.
Defined.

(** C5 as it is worded fails: the dict receives the name of the package, not
    its id. *)
Lemma get_licenses_records_name_not_id :
  ~ (forall (o : SbomRecord) (w : World) (id : string),
       no_listed_license o -> sbom_licenseconcluded o = None ->
       sbom_id o = Some id ->
       In id (keys (license_info_missing_package_id_list
                      (world_after (_get_licenses o w))))).
Proof.
  intros H.
  specialize (H package_foo initial_world "SPDXRef-foo" I eq_refl eq_refl).
  vm_compute in H. destruct H as [H|[]]. discriminate H.
Qed.

(** C9, as the code has it: [_get_copyright] returns [copyrighttext] when
    the record has it, and then leaves the world as it was provided that text
    is not the text of the placeholder for the record; without
    [copyrighttext] it returns the placeholder [Not extracted, please search
    {name}] and records the name in
    [copyright_info_missing_package_name_list]. *)
Theorem get_copyright_spec (o : SbomRecord) (w : World) :
  (forall text, sbom_copyrighttext o = Some text ->
     exists w', _get_copyright o w = Returns text w'
       /\ (text <> "Not extracted, please search "
                   ++ get_default (sbom_name o) "(package name missing)" ->
           w' = w))
  /\ (sbom_copyrighttext o = None ->
      exists w',
        _get_copyright o w
        = Returns ("Not extracted, please search "
                   ++ get_default (sbom_name o) "(package name missing)") w'
        /\ copyright_info_missing_package_name_list w'
           = set (copyright_info_missing_package_name_list w)
                 (get_default (sbom_name o) "(package name missing)") true
        /\ In (get_default (sbom_name o) "(package name missing)")
              (keys (copyright_info_missing_package_name_list w'))
        /\ license_info_missing_package_id_list w'
           = license_info_missing_package_id_list w
        /\ unknown_license_text_id_list w' = unknown_license_text_id_list w).
Proof.
  split.
  - intros text Ht. unfold _get_copyright. rewrite Ht. simpl get_default.
    destruct (String.eqb_spec
                ("Not extracted, please search "
                 ++ get_default (sbom_name o) "(package name missing)") text)
      as [Heq|Hne].
    + eexists. split; [reflexivity|]. intros Hd. now elim Hd.
    + exists w. split; [reflexivity|auto].
  - intros Hnone. unfold _get_copyright. rewrite Hnone. simpl get_default.
    rewrite String.eqb_refl. eexists. split; [reflexivity|]. simpl.
    repeat split. apply In_keys_set. now left.
Qed.

Lemma get_copyright_spec_witness :
  (exists w',
     _get_copyright (package "SPDXRef-bar" "bar" "library" None (Some "(c) 2023 bar"))
       initial_world = Returns "(c) 2023 bar" w'
     /\ w' = initial_world)
  /\ (exists w',
        _get_copyright package_foo initial_world
        = Returns "Not extracted, please search foo" w'
        /\ In "foo" (keys (copyright_info_missing_package_name_list w'))).
Proof.
  split.
  - destruct (proj1 (get_copyright_spec
                       (package "SPDXRef-bar" "bar" "library" None (Some "(c) 2023 bar"))
                       initial_world) "(c) 2023 bar" eq_refl) as (w' & Hr & Hw).
    exists w'. split; [exact Hr|]. apply Hw. discriminate.
  - destruct (proj2 (get_copyright_spec package_foo initial_world) eq_refl)
      as (w' & Hr & _ & Hin & _).
    exists w'. split; [exact Hr|exact Hin].
Defined.

(** C9 as it is worded fails: a [copyrighttext] that reads like the
    placeholder is returned, and the name is recorded all the same. *)
Lemma get_copyright_records_with_text_present :
  ~ (forall (o : SbomRecord) (w : World) (text : string),
       sbom_copyrighttext o = Some text ->
       copyright_info_missing_package_name_list (world_after (_get_copyright o w))
       = copyright_info_missing_package_name_list w).
Proof.
  intros H.
  specialize (H package_placeholder initial_world
                "Not extracted, please search foo" eq_refl).
  vm_compute in H. discriminate H.
Qed.

(** ** Collecting and counting (lines 160-173) *)

Lemma get_licenses_returns (o : SbomRecord) (w : World) :
  exists w', _get_licenses o w = Returns (licenses_of o) w'.
Proof.
  unfold licenses_of, _get_licenses, concluded_license.
  destruct (sbom_licenselist o) as [license_list|].
  - destruct (0 <? List.length license_list)%nat.
    + destruct (0 <? List.length (license_list_simple license_list))%nat.
      * eexists; reflexivity.
      * destruct (get_default (sbom_licenseconcluded o) "NOT KNOWN" =? "NOT KNOWN");
          eexists; reflexivity.
    + destruct (get_default (sbom_licenseconcluded o) "NOT KNOWN" =? "NOT KNOWN");
        eexists; reflexivity.
  - destruct (get_default (sbom_licenseconcluded o) "NOT KNOWN" =? "NOT KNOWN");
      eexists; reflexivity.
Qed.

Lemma extend_licenses_returns (l : list SbomRecord) (acc : list string) (w : World) :
  exists w',
    for_each l
      (fun sbom_licenses o =>
         licenses <- _get_licenses o ;; ret (sbom_licenses ++ licenses)%list) acc w
    = Returns (acc ++ flat_map licenses_of l)%list w'.
Proof.
  revert acc w. induction l as [|o l IH]; intros acc w; simpl.
  - rewrite app_nil_r. eexists; reflexivity.
  - destruct (get_licenses_returns o w) as [w1 H1].
    destruct (IH (acc ++ licenses_of o)%list w1) as [w2 H2].
    exists w2. rewrite <- app_assoc in H2. rewrite <- H2.
    apply bind_Returns. now rewrite (bind_Returns _ _ _ _ _ H1).
Qed.

Section CountingFacts.
Context {license_info : LicenseScanner} {platform : Platform}.

Lemma collect_licenses_returns (packages files : list SbomRecord) (w : World) :
  exists w',
    collect_licenses packages files w
    = Returns (flat_map licenses_of (packages ++ files)) w'.
Proof.
  unfold collect_licenses.
  destruct (extend_licenses_returns packages [] w) as [w1 H1].
  destruct (extend_licenses_returns files ([] ++ flat_map licenses_of packages)%list w1)
    as [w2 H2].
  exists w2. rewrite flat_map_app. simpl in H2. rewrite <- H2.
  now apply bind_Returns.
Qed.

Lemma count_occurrences (l : list string) (x : string) :
  count l x = occurrences x l.
Proof.
  unfold count, occurrences. induction l as [|a l IH]; simpl; [reflexivity|].
  destruct (string_dec a x) as [->|Hne].
  - rewrite String.eqb_refl. simpl. now rewrite IH.
  - destruct (String.eqb_spec x a); [congruence|exact IH].
Qed.

Lemma insert_perm {A K} (le : K -> K -> bool) (key : A -> K) (x : A) (l : list A) :
  Permutation (insert le key x l) (x :: l).
Proof.
  induction l as [|y r IH]; simpl; [reflexivity|].
  destruct (le (key x) (key y)); [reflexivity|].
  rewrite IH. apply perm_swap.
Qed.

Lemma sorted_by_perm {A K} (le : K -> K -> bool) (key : A -> K) (l : list A) :
  Permutation (sorted_by le key l) l.
Proof.
  induction l as [|x r IH]; simpl; [reflexivity|].
  rewrite insert_perm. now constructor.
Qed.

Lemma insert_Sorted {A K} (le : K -> K -> bool) (key : A -> K) (x : A) (l : list A) :
  (forall a b, le a b = true \/ le b a = true) ->
  Sorted (fun a b => le (key a) (key b) = true) l ->
  Sorted (fun a b => le (key a) (key b) = true) (insert le key x l).
Proof.
  intros Htotal. induction l as [|y r IH]; intros Hs; simpl.
  - repeat constructor.
  - destruct (le (key x) (key y)) eqn:E.
    + constructor; [exact Hs|now constructor].
    + inversion Hs as [|? ? Hr Hy]; subst. constructor; [now apply IH|].
      destruct r as [|z r]; simpl.
      * constructor. destruct (Htotal (key x) (key y)); congruence.
      * destruct (le (key x) (key z)).
        -- constructor. destruct (Htotal (key x) (key y)); congruence.
        -- inversion Hy; subst. now constructor.
Qed.

(** [sorted_by] sorts, for an order in which any two keys compare. *)
Lemma sorted_by_Sorted {A K} (le : K -> K -> bool) (key : A -> K) (l : list A) :
  (forall a b, le a b = true \/ le b a = true) ->
  Sorted (fun a b => le (key a) (key b) = true) (sorted_by le key l).
Proof.
  intros Htotal. induction l as [|x r IH]; simpl; [constructor|].
  now apply insert_Sorted.
Qed.

Lemma sorted_Sorted (l : list string) :
  Sorted (fun a b => (a <=? b) = true) (sorted l).
Proof. apply sorted_by_Sorted. apply String.leb_total. Qed.

Lemma In_sorted (l : list string) (x : string) : In x (sorted l) <-> In x l.
Proof.
  unfold sorted. split; apply Permutation_in;
    [|symmetry]; apply sorted_by_perm.
Qed.

(** The dict a loop [for x in l: d[x] = f(x)] builds. *)
Lemma get_fold_set {V} (f : string -> V) (l : list string) (d : dict V) (k : string) :
  get (fold_left (fun d x => set d x (f x)) l d) k
  = if in_dec string_dec k l then Some (f k) else get d k.
Proof.
  revert d. induction l as [|x l IH]; intros d; simpl; [reflexivity|].
  rewrite IH. destruct (in_dec string_dec k l) as [Hin|Hnin].
  - destruct (string_dec x k); reflexivity.
  - destruct (string_dec x k) as [->|Hne].
    + apply get_set_same.
    + now apply get_set_other.
Qed.

Lemma NoDup_keys_fold_set {V} (f : string -> V) (l : list string) (d : dict V) :
  NoDup (keys d) -> NoDup (keys (fold_left (fun d x => set d x (f x)) l d)).
Proof.
  revert d. induction l as [|x l IH]; intros d Hd; simpl; [exact Hd|].
  apply IH. now apply NoDup_keys_set.
Qed.

Lemma In_keys_fold_set {V} (f : string -> V) (l : list string) (d : dict V) (k : string) :
  In k (keys (fold_left (fun d x => set d x (f x)) l d)) <-> In k l \/ In k (keys d).
Proof.
  revert d. induction l as [|x l IH]; intros d; simpl; [tauto|].
  rewrite IH, In_keys_set. intuition.
Qed.

Lemma values_fold_set {V} (f : string -> V) (l : list string) (d : dict V) :
  (forall k v, In (k, v) d -> v = f k) ->
  forall k v, In (k, v) (fold_left (fun d x => set d x (f x)) l d) -> v = f k.
Proof.
  revert d. induction l as [|x l IH]; intros d Hd; simpl; [exact Hd|].
  apply IH. intros k v Hin. apply In_set_inv in Hin.
  destruct Hin as [[-> ->]|Hin]; auto.
Qed.

Lemma list_sum_indicator (a : string) (ks : list string) :
  NoDup ks -> In a ks ->
  list_sum (map (fun k => if string_dec a k then 1 else 0) ks) = 1.
Proof.
  induction ks as [|k ks IH]; simpl; [intros _ []|].
  intros Hnd Hin. inversion Hnd as [|? ? Hk Hnd']; subst.
  destruct (string_dec a k) as [->|Hne].
  - f_equal. clear -Hk. induction ks as [|k' ks IH]; simpl; [reflexivity|].
    simpl in Hk. destruct (string_dec k k'); [subst; tauto|]. apply IH. tauto.
  - destruct Hin as [->|Hin]; [congruence|]. now apply IH.
Qed.

Lemma list_sum_count (l ks : list string) :
  NoDup ks -> (forall x, In x l -> In x ks) ->
  list_sum (map (count l) ks) = List.length l.
Proof.
  intros Hnd. induction l as [|a l IH]; intros Hall.
  - clear. induction ks; simpl; auto.
  - assert (Hsplit : forall ks',
               list_sum (map (count (a :: l)) ks')
               = list_sum (map (fun k => if string_dec a k then 1 else 0) ks')
                 + list_sum (map (count l) ks')).
    { induction ks' as [|k ks' IHk]; [reflexivity|].
      simpl. rewrite IHk. unfold count. simpl.
      destruct (string_dec a k); lia. }
    rewrite Hsplit, list_sum_indicator, IH; simpl; auto.
    + intros x Hx. apply Hall. now right.
    + apply Hall. now left.
Qed.

Lemma list_sum_values_freq (sbom_licenses : list string) :
  list_sum (values (build_freq sbom_licenses)) = List.length sbom_licenses.
Proof.
  set (freq := build_freq sbom_licenses).
  assert (Hv : values freq = map (count sbom_licenses) (keys freq)).
  { assert (H : forall k v, In (k, v) freq -> v = count sbom_licenses k).
    { apply values_fold_set. intros k v []. }
    unfold values, keys. clearbody freq.
    induction freq as [|[k v] r IH]; simpl; [reflexivity|].
    f_equal; [apply H; now left|]. apply IH. intros k' v' Hin. apply H. now right. }
  rewrite Hv. apply list_sum_count.
  - apply NoDup_keys_fold_set. constructor.
  - intros x Hx. apply In_keys_fold_set. left. now apply In_sorted.
Qed.

Lemma length_collected (l : list SbomRecord) :
  List.length (flat_map licenses_of l)
  = list_sum (map (fun o => List.length (licenses_of o)) l).
Proof.
  induction l as [|o l IH]; simpl; [reflexivity|].
  now rewrite length_app, IH.
Qed.

(** C6: for every sequence of packages and files, the counts of the
    frequency table [freq] sum to the number of license references collected
    from all packages and files, and the table holds, for each value
    collected, the exact number of its occurrences in the collected sequence
    (and nothing for any other value). *)
Theorem frequency_table_counts (packages files : list SbomRecord) (w : World) :
  exists sbom_licenses w',
    collect_licenses packages files w = Returns sbom_licenses w'
    /\ sbom_licenses = flat_map licenses_of (packages ++ files)
    /\ list_sum (values (build_freq sbom_licenses)) = List.length sbom_licenses
    /\ list_sum (values (build_freq sbom_licenses))
       = list_sum (map (fun o => List.length (licenses_of o)) (packages ++ files))
    /\ NoDup (keys (build_freq sbom_licenses))
    /\ forall k,
         get (build_freq sbom_licenses) k
         = if in_dec string_dec k sbom_licenses
           then Some (occurrences k sbom_licenses) else None.
Proof.
  destruct (collect_licenses_returns packages files w) as [w' Hc].
  exists (flat_map licenses_of (packages ++ files)), w'.
  split; [exact Hc|]. split; [reflexivity|].
  split; [apply list_sum_values_freq|].
  split.
  - rewrite list_sum_values_freq. apply length_collected.
  - split.
    + apply NoDup_keys_fold_set. constructor.
    + intros k. unfold build_freq. rewrite get_fold_set. simpl.
      rewrite count_occurrences.
      destruct (in_dec string_dec k (sorted _)) as [Hin|Hnin];
        destruct (in_dec string_dec k _) as [Hin'|Hnin']; try reflexivity.
      * elim Hnin'. now apply In_sorted.
      * elim Hnin. now apply In_sorted.
Qed.

End CountingFacts.

(** ** Grouping (lines 182-220) *)

Lemma printed_nil (w : World) : printed w [] = w.
Proof. destruct w. unfold printed. simpl. now rewrite app_nil_r. Qed.

Lemma printed_app (w : World) (a b : list Msg) :
  printed (printed w a) b = printed w (a ++ b).
Proof. unfold printed. simpl. now rewrite app_assoc. Qed.

Lemma print_printed (m : Msg) (w : World) : print m w = Returns tt (printed w [m]).
Proof. reflexivity. Qed.

Lemma when_printed (b : bool) (m : Msg) (w : World) :
  when b (print m) w = Returns tt (printed w (if b then [m] else [])).
Proof. destruct b; simpl; [reflexivity|]. now rewrite printed_nil. Qed.

Section GroupingFacts.
Context {license_info : LicenseScanner}.

Lemma find_license_id_value (value : string) (w : World) :
  _find_license_id value w = Returns (resolved_id value) w.
Proof.
  unfold _find_license_id, resolved_id, contains, getitem.
  destruct (get license_syns_reverse value); [reflexivity|].
  now destruct (negb _).
Qed.

Lemma ensure_len_value (text : string) (n : Z) (w : World) :
  (3 <= n)%Z -> _ensure_len (Some text) n w = Returns (Some (shortened text n)) w.
Proof.
  intros Hn. unfold _ensure_len, shortened.
  destruct (Z.ltb_spec n 3); [lia|].
  now destruct (n <? Z.of_nat (String.length text))%Z.
Qed.

Lemma is_license_text_known (k : string) :
  is_license_text k = true -> k <> "NOT KNOWN".
Proof. intros H ->. vm_compute in H. discriminate. Qed.

Lemma group_license_skip (debug : bool) (d : dict LicenseEntry) (w : World) :
  group_license debug d "NOT KNOWN" w = Returns d w.
Proof. reflexivity. Qed.

Lemma group_license_value (debug : bool) (d : dict LicenseEntry) (k : string) (w : World) :
  k <> "NOT KNOWN" ->
  group_license debug d k w
  = Returns (set d (resolved_id k) (group_entry d k))
            (printed w (group_messages debug d k)).
Proof.
  intros Hk. unfold group_license, group_messages, group_entry.
  destruct (String.eqb_spec k "NOT KNOWN") as [|_]; [contradiction|].
  set (text := if is_license_text k then Some k else None).
  set (m1 := if is_license_text k then []
             else if license_expression k then [ExpressionWarning k] else []).
  rewrite (bind_Returns _ _ w (printed w m1) tt).
  2:{ subst m1. destruct (is_license_text k).
      - unfold ret. now rewrite printed_nil.
      - destruct (license_expression k); [reflexivity|].
        unfold ret. now rewrite printed_nil. }
  rewrite (bind_Returns _ _ _ _ _ (find_license_id_value k _)).
  set (r := resolved_id k).
  set (m2 := if negb (r =? k) && debug
             then [ResolvedWith (Some (shortened k 20)) r] else []).
  rewrite (bind_Returns _ _ _ (printed (printed w m1) m2) r).
  2:{ subst m2. destruct (String.eqb_spec r k) as [Heq|Hne]; simpl.
      - unfold ret. now rewrite printed_nil, Heq.
      - destruct debug; simpl.
        + unfold bind. rewrite ensure_len_value by lia. reflexivity.
        + unfold bind, ret. now rewrite printed_nil. }
  unfold stored_text, contains, getitem.
  destruct (get d r) as [entry|]; simpl.
  - unfold bind, ret; simpl.
    destruct text as [new_text|]; destruct (license_text entry) as [old_text|]; simpl;
      rewrite ?when_printed, ?printed_app, ?app_nil_r; reflexivity.
  - unfold bind, ret. rewrite printed_app.
    destruct text; rewrite app_nil_r; reflexivity.
Qed.

Lemma group_loop_value (debug : bool) (ks : list string) (d : dict LicenseEntry)
    (w : World) :
  exists msgs,
    for_each ks (group_license debug) d w = Returns (grouped ks d) (printed w msgs).
Proof.
  revert d w. induction ks as [|k ks IH]; intros d w; simpl.
  - exists []. unfold ret. now rewrite printed_nil.
  - destruct (String.eqb_spec k "NOT KNOWN") as [->|Hk].
    + destruct (IH d w) as [msgs H]. exists msgs.
      now rewrite (bind_Returns _ _ _ _ _ (group_license_skip debug d w)).
    + destruct (IH (set d (resolved_id k) (group_entry d k))
                  (printed w (group_messages debug d k))) as [msgs H].
      exists (group_messages debug d k ++ msgs)%list.
      rewrite (bind_Returns _ _ _ _ _ (group_license_value debug d k w Hk)).
      now rewrite H, printed_app.
Qed.

Lemma stored_text_set (d : dict LicenseEntry) (k id : string) (e : LicenseEntry) :
  stored_text (set d k e) id = if k =? id then license_text e else stored_text d id.
Proof.
  unfold stored_text. destruct (String.eqb_spec k id) as [->|Hne].
  - now rewrite get_set_same.
  - now rewrite get_set_other.
Qed.

Lemma grouped_step_text (d : dict LicenseEntry) (k id : string) :
  stored_text (if k =? "NOT KNOWN" then d else set d (resolved_id k) (group_entry d k)) id
  = match stored_text d id with
    | Some old => Some old
    | None => if is_license_text k && (resolved_id k =? id) then Some k else None
    end.
Proof.
  destruct (String.eqb_spec k "NOT KNOWN") as [->|Hk].
  - replace (is_license_text "NOT KNOWN") with false by (vm_compute; reflexivity).
    simpl. now destruct (stored_text d id).
  - rewrite stored_text_set. unfold group_entry; simpl.
    destruct (String.eqb_spec (resolved_id k) id) as [->|Hne].
    + rewrite andb_true_r. reflexivity.
    + rewrite andb_false_r. now destruct (stored_text d id).
Qed.

(** The text the loop leaves under an id is the one found there before, or
    else the first value taken for a license text that resolves to the id. *)
Lemma grouped_text (ks : list string) (d : dict LicenseEntry) (id : string) :
  stored_text (grouped ks d) id
  = match stored_text d id with
    | Some old => Some old
    | None => find (fun k => is_license_text k && (resolved_id k =? id)) ks
    end.
Proof.
  revert d. induction ks as [|k ks IH]; intros d; simpl.
  - now destruct (stored_text d id).
  - unfold grouped in *. simpl. rewrite IH, grouped_step_text.
    destruct (stored_text d id); [reflexivity|].
    now destruct (is_license_text k && (resolved_id k =? id)).
Qed.

Lemma grouped_NoDup (ks : list string) (d : dict LicenseEntry) :
  NoDup (keys d) -> NoDup (keys (grouped ks d)).
Proof.
  revert d. induction ks as [|k ks IH]; intros d Hd; simpl; [exact Hd|].
  apply IH. destruct (k =? "NOT KNOWN"); [exact Hd|]. now apply NoDup_keys_set.
Qed.

Lemma grouped_keyed_by_id (ks : list string) (d : dict LicenseEntry) :
  keyed_by_id d -> keyed_by_id (grouped ks d).
Proof.
  revert d. induction ks as [|k ks IH]; intros d Hd; simpl; [exact Hd|].
  apply IH. destruct (k =? "NOT KNOWN"); [exact Hd|].
  intros key value Hin. apply In_set_inv in Hin.
  destruct Hin as [[-> ->]|Hin]; [reflexivity|now apply Hd].
Qed.

Lemma In_printed (w : World) (msgs : list Msg) (m : Msg) :
  In m (stdout (printed w msgs)) <-> In m (stdout w) \/ In m msgs.
Proof. unfold printed; simpl. apply in_app_iff. Qed.

Lemma group_licenses_returns (debug : bool) (freq : dict nat) (w : World) :
  exists by_id w',
    group_licenses debug freq w = Returns by_id w'
    /\ NoDup (keys by_id)
    /\ keyed_by_id by_id
    /\ same_diagnostics w w'
    /\ forall id,
         stored_text by_id id
         = find (fun k => is_license_text k && (resolved_id k =? id)) (keys freq).
Proof.
  unfold group_licenses.
  destruct (group_loop_value debug (keys freq) empty w) as [msgs H].
  exists (grouped (keys freq) empty), (printed w msgs).
  split; [exact H|]. split; [|split; [|split]].
  - apply grouped_NoDup. constructor.
  - apply grouped_keyed_by_id. intros key value [].
  - repeat split.
  - intros id. now rewrite grouped_text.
Qed.

(** C1: in the map [licenses_by_id] the loop over [freq.keys()] builds, an id
    is a key once and so holds at most one text; that text is a raw value of
    the input, the first one taken for a license text that resolves to the
    id.  When the loop comes to a value [k] taken for a license text that
    resolves to an id with a different text [old] stored, a conflict is
    printed and [old] is still the text of the id after [k], and after the
    rest of the loop. *)
Theorem grouped_text_is_retained (debug : bool) :
  (forall (freq : dict nat) (w : World),
     exists by_id w',
       group_licenses debug freq w = Returns by_id w'
       /\ NoDup (keys by_id)
       /\ keyed_by_id by_id
       /\ forall id,
            stored_text by_id id
            = find (fun k => is_license_text k && (resolved_id k =? id)) (keys freq))
  /\ (forall (d : dict LicenseEntry) (k id old : string) (rest : list string)
             (w : World),
        is_license_text k = true ->
        _find_license_id k w = Returns id w ->
        stored_text d id = Some old ->
        old <> k ->
        exists d1 w1 d2 w2,
          group_license debug d k w = Returns d1 w1
          /\ stdout w1
             = (stdout w
                ++ (if negb (id =? k) && debug
                    then [ResolvedWith (Some (shortened k 20)) id] else [])
                ++ [if debug then ConflictVersions id k old
                    else ConflictCheckWithDebug id])%list
          /\ stored_text d1 id = Some old
          /\ for_each rest (group_license debug) d1 w1 = Returns d2 w2
          /\ stored_text d2 id = Some old).
Proof.
  split.
  - intros freq w.
    destruct (group_licenses_returns debug freq w)
      as (by_id & w' & Hrun & Hnd & Hkeyed & _ & Hfind).
    exists by_id, w'. auto.
  - intros d k id old rest w Htext Hres Hold Hne.
    rewrite find_license_id_value in Hres. inversion Hres as [Hid]. clear Hres.
    subst id.
    pose proof (is_license_text_known k Htext) as Hk.
    destruct (group_loop_value debug rest
                (set d (resolved_id k) (group_entry d k))
                (printed w (group_messages debug d k))) as [msgs Hloop].
    exists (set d (resolved_id k) (group_entry d k)),
           (printed w (group_messages debug d k)),
           (grouped rest (set d (resolved_id k) (group_entry d k))),
           (printed (printed w (group_messages debug d k)) msgs).
    split; [now apply group_license_value|].
    assert (Hstep : stored_text (set d (resolved_id k) (group_entry d k)) (resolved_id k)
                    = Some old).
    { rewrite stored_text_set, String.eqb_refl. unfold group_entry; simpl.
      now rewrite Hold. }
    split; [|split; [exact Hstep|split; [exact Hloop|]]].
    + unfold printed, group_messages; simpl. rewrite Htext, Hold.
      destruct (String.eqb_spec k old) as [->|_]; [now elim Hne|]. reflexivity.
    + now rewrite grouped_text, Hstep.
Qed.

End GroupingFacts.

Lemma grouped_text_is_retained_witness :
  exists d1 w1 d2 w2,
    @group_license text_scanner false
      [("MIT", {| entry_id := "MIT"; license_text := Some mit_text_one |})]
      mit_text_two initial_world = Returns d1 w1
    /\ stdout w1 = [ConflictCheckWithDebug "MIT"]
    /\ stored_text d1 "MIT" = Some mit_text_one
    /\ for_each [] (@group_license text_scanner false) d1 w1 = Returns d2 w2
    /\ stored_text d2 "MIT" = Some mit_text_one.
Proof.
  apply (proj2 (@grouped_text_is_retained text_scanner false)
           [("MIT", {| entry_id := "MIT"; license_text := Some mit_text_one |})]
           mit_text_two "MIT" mit_text_one [] initial_world).
  - vm_compute. reflexivity.
  - vm_compute. reflexivity.
  - reflexivity.
  - intros H. vm_compute in H. discriminate H.
Defined.

Section ExpressionFacts.
Context {license_info : LicenseScanner}.

(** C3, as the code has it: for a value [k] (other than [NOT KNOWN]) that
    the scanner takes for an expression and that is not taken for a license
    text, [group_license] prints the warning and then resolves [k] like any
    other value: the entry is stored under the id [_find_license_id] gives
    for [k], and no other key of the map changes.  So [k] is grouped under
    itself only when the resolver leaves it as it is. *)
Theorem expression_is_warned_and_resolved (debug : bool) (d : dict LicenseEntry)
    (k : string) (w : World) :
  k <> "NOT KNOWN" ->
  license_expression k = true ->
  is_license_text k = false ->
  exists id d' w',
    _find_license_id k w = Returns id w
    /\ group_license debug d k w = Returns d' w'
    /\ In (ExpressionWarning k) (stdout w')
    /\ (exists entry, get d' id = Some entry /\ entry_id entry = id)
    /\ (forall k', k' <> id -> get d' k' = get d k').
Proof.
  intros Hk Hexpr Htext.
  exists (resolved_id k), (set d (resolved_id k) (group_entry d k)),
         (printed w (group_messages debug d k)).
  split; [apply find_license_id_value|].
  split; [now apply group_license_value|].
  split; [|split].
  - apply In_printed. right. unfold group_messages. rewrite Htext, Hexpr.
    simpl. now left.
  - exists (group_entry d k). split; [apply get_set_same|reflexivity].
  - intros k' Hne. apply get_set_other. congruence.
Qed.

(** C7, as the code has it: the two raw values resolve to [Apache-2.0]; the
    frequency table is keyed by the raw values and counts each of them once
    (2 in sum, nothing under [Apache-2.0]); the grouping leaves the single
    entry [Apache-2.0], which holds an id and a text and no count. *)
Theorem apache_synonyms_one_entry (debug : bool) (w : World) :
  let url := "https://www.apache.org/licenses/LICENSE-2.0" in
  let name := "Apache-2.0 license" in
  exists w',
    collect_licenses [package_apache_url; package_apache_name] [] w
    = Returns [url; name] w
    /\ _find_license_id url w = Returns "Apache-2.0" w
    /\ _find_license_id name w = Returns "Apache-2.0" w
    /\ build_freq [url; name] = [(name, 1); (url, 1)]
    /\ get (build_freq [url; name]) "Apache-2.0" = None
    /\ list_sum (values (build_freq [url; name])) = 2
    /\ group_licenses debug (build_freq [url; name]) w
       = Returns [("Apache-2.0", {| entry_id := "Apache-2.0"; license_text := None |})] w'.
Proof.
  intros url name.
  destruct (group_loop_value debug (keys (build_freq [url; name])) empty w)
    as [msgs H].
  exists (printed w msgs).
  split; [reflexivity|].
  split; [rewrite find_license_id_value; reflexivity|].
  split; [rewrite find_license_id_value; reflexivity|].
  split; [vm_compute; reflexivity|].
  split; [vm_compute; reflexivity|].
  split; [vm_compute; reflexivity|].
  unfold group_licenses. rewrite H. reflexivity.
Qed.

End ExpressionFacts.

Lemma expression_is_warned_and_resolved_witness :
  exists id d' w',
    @_find_license_id sample_scanner "MIT OR Apache-2.0" initial_world
    = Returns id initial_world
    /\ @group_license sample_scanner false empty "MIT OR Apache-2.0" initial_world
       = Returns d' w'
    /\ In (ExpressionWarning "MIT OR Apache-2.0") (stdout w')
    /\ (exists entry, get d' id = Some entry /\ entry_id entry = id)
    /\ (forall k', k' <> id -> get d' k' = get empty k').
Proof.
  apply (@expression_is_warned_and_resolved sample_scanner false empty
           "MIT OR Apache-2.0" initial_world).
  - discriminate.
  - reflexivity.
  - reflexivity.
Defined.

(** C3 as it is worded fails: the name of GPL-2.0-or-later is taken for an
    expression, and is grouped under the id the resolver gives for it. *)
Lemma expression_grouped_under_resolved_id :
  ~ (forall (scanner : LicenseScanner) (debug : bool) (d : dict LicenseEntry)
            (k : string) (w : World),
       k <> "NOT KNOWN" ->
       license_expression k = true ->
       is_license_text k = false ->
       exists d' w',
         group_license debug d k w = Returns d' w' /\ In k (keys d')).
Proof.
  intros H.
  destruct (H sample_scanner false empty
              "GNU General Public License v2.0 or later" initial_world)
    as (d' & w' & Hrun & Hin).
  - discriminate.
  - reflexivity.
  - reflexivity.
  - vm_compute in Hrun. inversion Hrun; subst. simpl in Hin.
    destruct Hin as [Hin|[]]. discriminate Hin.
Qed.

(** C7 as it is worded fails: no key of the frequency table has the count 2,
    and the grouped entry has no count of its own. *)
Lemma apache_frequency_is_not_two :
  exists freq by_id w',
    @build_document sample_scanner offline
      [package_apache_url; package_apache_name] [] false false None initial_world
    = Returns (freq, by_id) w'
    /\ keys by_id = ["Apache-2.0"]
    /\ get freq "Apache-2.0" = None
    /\ ~ (exists key, get freq key = Some 2).
Proof.
  eexists _, _, _. split; [vm_compute; reflexivity|].
  split; [reflexivity|]. split; [reflexivity|].
  intros [key H]. cbn [get] in H.
  destruct ("Apache-2.0 license" =? key); [discriminate|].
  destruct ("https://www.apache.org/licenses/LICENSE-2.0" =? key); discriminate.
Qed.

(** ** Fetching license texts (lines 222-268) *)

Lemma after_requests_refl (w : World) : after_requests w w [].
Proof.
  unfold after_requests, same_diagnostics. rewrite app_nil_r.
  repeat split. exists []. now rewrite app_nil_r.
Qed.

Lemma after_requests_trans (w1 w2 w3 : World) (a b : list string) :
  after_requests w1 w2 a -> after_requests w2 w3 b -> after_requests w1 w3 (a ++ b).
Proof.
  unfold after_requests, same_diagnostics.
  intros ((Ha1 & Ha2 & Ha3) & Hf & Hr & m1 & Hs) ((Hb1 & Hb2 & Hb3) & Hf' & Hr' & m2 & Hs').
  repeat split; try congruence.
  - rewrite Hr', Hr. now rewrite app_assoc.
  - exists (m1 ++ m2)%list. rewrite Hs', Hs. now rewrite app_assoc.
Qed.

Lemma after_requests_printed (w : World) (msgs : list Msg) :
  after_requests w (printed w msgs) [].
Proof.
  unfold after_requests, same_diagnostics, printed; simpl. rewrite app_nil_r.
  repeat split. now exists msgs.
Qed.

Section EnrichmentFacts.
Context {license_info : LicenseScanner} {platform : Platform}.

Lemma requests_get_json_Failed (url : string) (w : World) :
  spdx_response url = Failed ->
  exists w', requests_get_json url w = Raises RequestException w'
             /\ after_requests w w' [url].
Proof.
  intros H. unfold requests_get_json. rewrite H. eexists. split; [reflexivity|].
  unfold after_requests, same_diagnostics; simpl. repeat split.
  exists []. now rewrite app_nil_r.
Qed.

Lemma requests_get_json_Json (url : string) (t : option string) (w : World) :
  spdx_response url = Json t ->
  exists w', requests_get_json url w = Returns t w'
             /\ after_requests w w' [url].
Proof.
  intros H. unfold requests_get_json. rewrite H. eexists. split; [reflexivity|].
  unfold after_requests, same_diagnostics; simpl. repeat split.
  exists []. now rewrite app_nil_r.
Qed.

Lemma skip_lookup_false (key : string) (value : LicenseEntry) :
  skip_lookup key value = false ->
  (key =? "NOASSERTION") = false
  /\ license_text value = None
  /\ (200 <? String.length key)%nat = false
  /\ license_expression key = false
  /\ char_in space (strip key) = false
  /\ startswith (strip key) "http" = false.
Proof.
  unfold skip_lookup. intros H.
  repeat (apply orb_false_elim in H; destruct H as [H ?]).
  repeat split; auto. now destruct (license_text value).
Qed.

Lemma fetch_license_text_skipped (debug : bool) (add : option (dict string))
    (key : string) (value : LicenseEntry) (w : World) :
  skip_lookup key value = true ->
  exists msgs, fetch_license_text debug add key value w = Returns value (printed w msgs).
Proof.
  unfold skip_lookup, fetch_license_text. intros H.
  destruct (key =? "NOASSERTION");
    [exists []; unfold ret; now rewrite printed_nil|].
  destruct (license_text value);
    [exists []; unfold ret; now rewrite printed_nil|].
  destruct (200 <? String.length key)%nat.
  { exists (if debug then [IgnoreLongKey (String.length key)] else []).
    unfold bind. rewrite when_printed. reflexivity. }
  destruct (license_expression key).
  { exists (if debug then [IgnoreExpression key] else []).
    unfold bind. rewrite when_printed. reflexivity. }
  destruct (char_in space (strip key)).
  { exists (if debug then [IgnoreSpace (strip key)] else []).
    unfold bind. rewrite when_printed. reflexivity. }
  destruct (startswith (strip key) "http");
    [exists []; unfold ret; now rewrite printed_nil|].
  discriminate H.
Qed.

Lemma requests_get_json_after (url : string) (w : World) :
  after_requests w (world_after (requests_get_json url w)) [url].
Proof.
  unfold requests_get_json.
  destruct (spdx_response url); simpl;
    (unfold after_requests, same_diagnostics; simpl; repeat split;
     exists []; now rewrite app_nil_r).
Qed.

Lemma lookup_value (key : string) (value : LicenseEntry) (w : World) :
  answered (license_url key) ->
  exists w1,
    try_except
      (licenseText <- requests_get_json (license_url key) ;;
       match licenseText with
       | Some t => ret ({| entry_id := entry_id value; license_text := Some t |}, true)
       | None => ret (value, false)
       end)
      (fun e => match e with RequestException => true | _ => false end)
      (print (NoSpdxText (strip key)) ;; ret (value, false)) w
    = Returns
        match spdx_response (license_url key) with
        | Json (Some t) => ({| entry_id := entry_id value; license_text := Some t |}, true)
        | _ => (value, false)
        end w1
    /\ after_requests w w1 [license_url key].
Proof.
  unfold try_except. intros [E|[t E]]; rewrite E.
  - destruct (requests_get_json_Failed _ w E) as (w1 & Hr & Hw1).
    rewrite (bind_Raises _ _ _ _ _ Hr). simpl.
    exists (printed w1 [NoSpdxText (strip key)]). split; [reflexivity|].
    rewrite <- (app_nil_r [license_url key]).
    eapply after_requests_trans; [exact Hw1|apply after_requests_printed].
  - destruct (requests_get_json_Json _ _ w E) as (w1 & Hr & Hw1).
    rewrite (bind_Returns _ _ _ _ _ Hr).
    exists w1. split; [now destruct t|exact Hw1].
Qed.

(** Lines 257-261 when the answer is no object, or when another exception
    than [RequestException] is raised: nothing catches it. *)
Lemma lookup_raises (key : string) (value : LicenseEntry) (e : Exn) (w : World) :
  (spdx_response (license_url key) = JsonOther /\ e = AttributeError)
  \/ (spdx_response (license_url key) = Crashed e /\ e <> RequestException) ->
  exists w1,
    try_except
      (licenseText <- requests_get_json (license_url key) ;;
       match licenseText with
       | Some t => ret ({| entry_id := entry_id value; license_text := Some t |}, true)
       | None => ret (value, false)
       end)
      (fun e => match e with RequestException => true | _ => false end)
      (print (NoSpdxText (strip key)) ;; ret (value, false)) w
    = Raises e w1
    /\ after_requests w w1 [license_url key].
Proof.
  intros H. pose proof (requests_get_json_after (license_url key) w) as Hafter.
  unfold try_except, bind. unfold requests_get_json in *.
  destruct H as [[E ->]|[E Hne]]; rewrite E in *; simpl in *.
  - eexists. split; [reflexivity|exact Hafter].
  - eexists. split; [|exact Hafter]. destruct e; try reflexivity. now elim Hne.
Qed.

Lemma fetch_license_text_looked_up (debug : bool) (add : option (dict string))
    (key : string) (value : LicenseEntry) (w : World) :
  skip_lookup key value = false ->
  answered (license_url key) ->
  exists w',
    fetch_license_text debug add key value w = Returns (fetched_entry add key value) w'
    /\ after_requests w w' [license_url key].
Proof.
  intros Hskip Hans. unfold fetched_entry. rewrite Hskip.
  destruct (skip_lookup_false key value Hskip) as (H1 & H2 & H3 & H4 & H5 & H6).
  unfold fetch_license_text. rewrite H1, H2, H3, H4, H5, H6.
  fold (license_url key).
  destruct (lookup_value key value w Hans) as (w1 & Htry & Hw1).
  rewrite (bind_Returns _ _ _ _ _ Htry). clear Htry.
  assert (Hmiss : exists w',
             (if negb false
              then match add with
                   | Some texts =>
                       if contains texts (upper (strip key))
                       then t <- getitem texts (upper (strip key)) ;;
                            ret {| entry_id := entry_id value; license_text := Some t |}
                       else print (NoLicenseText (strip key)) ;; ret value
                   | None => print (NoLicenseText (strip key)) ;; ret value
                   end
              else ret value) w1
             = Returns
                 match override_text add key with
                 | Some t => {| entry_id := entry_id value; license_text := Some t |}
                 | None => value
                 end w'
             /\ after_requests w w' [license_url key]).
  { simpl negb. cbv iota. unfold override_text. destruct add as [texts|].
    - unfold contains, getitem. destruct (get texts (upper (strip key))) as [t|].
      + exists w1. split; [reflexivity|exact Hw1].
      + exists (printed w1 [NoLicenseText (strip key)]). split; [reflexivity|].
        rewrite <- (app_nil_r [license_url key]).
        eapply after_requests_trans; [exact Hw1|apply after_requests_printed].
    - exists (printed w1 [NoLicenseText (strip key)]). split; [reflexivity|].
      rewrite <- (app_nil_r [license_url key]).
      eapply after_requests_trans; [exact Hw1|apply after_requests_printed]. }
  destruct Hans as [E|[[t|] E]]; rewrite E.
  - exact Hmiss.
  - exists w1. split; [reflexivity|exact Hw1].
  - exact Hmiss.
Qed.

Lemma fetch_license_text_value (debug : bool) (add : option (dict string))
    (key : string) (value : LicenseEntry) (w : World) :
  (skip_lookup key value = false -> answered (license_url key)) ->
  exists w',
    fetch_license_text debug add key value w = Returns (fetched_entry add key value) w'
    /\ after_requests w w' (fetched_urls key value).
Proof.
  intros Hans. unfold fetched_urls. destruct (skip_lookup key value) eqn:Hskip.
  - destruct (fetch_license_text_skipped debug add key value w Hskip) as [msgs H].
    exists (printed w msgs). unfold fetched_entry. rewrite Hskip.
    split; [exact H|apply after_requests_printed].
  - apply fetch_license_text_looked_up; auto.
Qed.

Lemma fetch_license_text_raises (debug : bool) (add : option (dict string))
    (key : string) (value : LicenseEntry) (e : Exn) (w : World) :
  skip_lookup key value = false ->
  (spdx_response (license_url key) = JsonOther /\ e = AttributeError)
  \/ (spdx_response (license_url key) = Crashed e /\ e <> RequestException) ->
  exists w',
    fetch_license_text debug add key value w = Raises e w'
    /\ after_requests w w' [license_url key].
Proof.
  intros Hskip Hbad.
  destruct (skip_lookup_false key value Hskip) as (H1 & H2 & H3 & H4 & H5 & H6).
  unfold fetch_license_text. rewrite H1, H2, H3, H4, H5, H6.
  fold (license_url key).
  destruct (lookup_raises key value e w Hbad) as (w1 & Htry & Hw1).
  exists w1. split; [|exact Hw1]. now rewrite (bind_Raises _ _ _ _ _ Htry).
Qed.

Lemma lookups_answered_cons (key : string) (value : LicenseEntry)
    (d : dict LicenseEntry) :
  lookups_answered ((key, value) :: d) ->
  (skip_lookup key value = false -> answered (license_url key))
  /\ lookups_answered d.
Proof.
  intros H. split.
  - apply H. now left.
  - intros k v Hin. apply H. now right.
Qed.

Lemma lookups_answered_app (d1 d2 : dict LicenseEntry) :
  lookups_answered (d1 ++ d2)%list -> lookups_answered d1 /\ lookups_answered d2.
Proof.
  intros H. split; intros k v Hin; apply H; apply in_app_iff; auto.
Qed.

Lemma fetch_license_texts_value (debug : bool) (add : option (dict string))
    (d : dict LicenseEntry) (w : World) :
  lookups_answered d ->
  exists w',
    fetch_license_texts debug add d w
    = Returns (map (fun '(key, value) => (key, fetched_entry add key value)) d) w'
    /\ after_requests w w' (flat_map (fun '(key, value) => fetched_urls key value) d).
Proof.
  unfold fetch_license_texts. revert w.
  induction d as [|[key value] r IH]; intros w Hans; simpl.
  - exists w. split; [reflexivity|apply after_requests_refl].
  - apply lookups_answered_cons in Hans. destruct Hans as [Hkey Hr].
    destruct (fetch_license_text_value debug add key value w Hkey) as (w1 & H1 & Hw1).
    destruct (IH w1 Hr) as (w2 & H2 & Hw2).
    exists w2. split.
    + rewrite (bind_Returns _ _ _ _ _ H1), (bind_Returns _ _ _ _ _ H2). reflexivity.
    + eapply after_requests_trans; eauto.
Qed.

(** The loop stops at the first entry whose lookup raises. *)
Lemma fetch_license_texts_raises (debug : bool) (add : option (dict string))
    (d1 d2 : dict LicenseEntry) (key : string) (value : LicenseEntry) (e : Exn)
    (w : World) :
  lookups_answered d1 ->
  skip_lookup key value = false ->
  (spdx_response (license_url key) = JsonOther /\ e = AttributeError)
  \/ (spdx_response (license_url key) = Crashed e /\ e <> RequestException) ->
  exists w',
    fetch_license_texts debug add (d1 ++ (key, value) :: d2)%list w = Raises e w'
    /\ after_requests w w'
         (flat_map (fun '(key, value) => fetched_urls key value) d1
          ++ [license_url key])%list.
Proof.
  intros Hans Hskip Hbad. unfold fetch_license_texts. revert w.
  induction d1 as [|[k v] r IH]; intros w; simpl.
  - destruct (fetch_license_text_raises debug add key value e w Hskip Hbad)
      as (w' & H & Hw'). exists w'. split; [|exact Hw'].
    now rewrite (bind_Raises _ _ _ _ _ H).
  - apply lookups_answered_cons in Hans. destruct Hans as [Hk Hr].
    destruct (fetch_license_text_value debug add k v w Hk) as (w1 & H1 & Hw1).
    destruct (IH Hr w1) as (w2 & H2 & Hw2).
    exists w2. split.
    + rewrite (bind_Returns _ _ _ _ _ H1), (bind_Raises _ _ _ _ _ H2). reflexivity.
    + rewrite <- app_assoc. eapply after_requests_trans; eauto.
Qed.

End EnrichmentFacts.

(** ** The license texts of the document (lines 314-333) *)

Lemma license_text_paragraph_value (l : LicenseEntry) (w : World) :
  license_text_paragraph l w
  = if reported_without_text l
    then set_unknown_license_text (entry_id l) w
    else Returns tt w.
Proof.
  unfold license_text_paragraph, reported_without_text.
  destruct (existsb _ _); [reflexivity|]. simpl negb. simpl andb.
  destruct (ensure_len_returns (entry_id l) 50 w) as [r Hr]; [lia|].
  rewrite (bind_Returns _ _ _ _ _ Hr).
  now destruct (license_text l).
Qed.

Lemma license_text_paragraphs_value (ls : list LicenseEntry) (w : World) :
  exists w',
    for_each ls (fun _ l => license_text_paragraph l) tt w = Returns tt w'
    /\ copyright_info_missing_package_name_list w'
       = copyright_info_missing_package_name_list w
    /\ license_info_missing_package_id_list w' = license_info_missing_package_id_list w
    /\ stdout w' = stdout w /\ requested w' = requested w
    /\ filesystem w' = filesystem w
    /\ forall id,
         In id (keys (unknown_license_text_id_list w'))
         <-> In id (keys (unknown_license_text_id_list w))
             \/ exists l, In l ls /\ reported_without_text l = true /\ entry_id l = id.
Proof.
  revert w. induction ls as [|l ls IH]; intros w; simpl.
  - exists w. repeat split; auto. intros [H|(l & [] & _)]. exact H.
  - rewrite (bind_Returns _ _ w
               (if reported_without_text l
                then world_after (set_unknown_license_text (entry_id l) w) else w) tt).
    2:{ rewrite license_text_paragraph_value.
        now destruct (reported_without_text l). }
    destruct (IH (if reported_without_text l
                  then world_after (set_unknown_license_text (entry_id l) w) else w))
      as (w' & Hrun & H1 & H2 & H3 & H4 & H5 & H6).
    exists w'. split; [exact Hrun|].
    destruct (reported_without_text l) eqn:Hl; simpl in *.
    + repeat split; auto. 
      * intros Hin. apply H6 in Hin. destruct Hin as [Hin|(l' & Hl' & Hrep & Hid)].
        -- apply In_keys_set in Hin. destruct Hin as [->|Hin]; [|now left].
           right. exists l. auto.
        -- right. exists l'. auto.
      * intros Hin. apply H6. destruct Hin as [Hin|(l' & [<-|Hl'] & Hrep & Hid)].
        -- left. apply In_keys_set. now right.
        -- left. apply In_keys_set. now left.
        -- right. exists l'. auto.
    + repeat split; auto.
      * intros Hin. apply H6 in Hin. destruct Hin as [Hin|(l' & Hl' & Hrep & Hid)].
        -- now left.
        -- right. exists l'. auto.
      * intros Hin. apply H6. destruct Hin as [Hin|(l' & [<-|Hl'] & Hrep & Hid)].
        -- now left.
        -- congruence.
        -- right. exists l'. auto.
Qed.

Lemma license_texts_section_value (by_id : dict LicenseEntry) (w : World) :
  exists w',
    license_texts_section by_id w = Returns tt w'
    /\ copyright_info_missing_package_name_list w'
       = copyright_info_missing_package_name_list w
    /\ license_info_missing_package_id_list w' = license_info_missing_package_id_list w
    /\ stdout w' = stdout w /\ requested w' = requested w
    /\ filesystem w' = filesystem w
    /\ forall id,
         In id (keys (unknown_license_text_id_list w'))
         <-> In id (keys (unknown_license_text_id_list w))
             \/ exists l, In l (values by_id)
                          /\ reported_without_text l = true /\ entry_id l = id.
Proof.
  unfold license_texts_section.
  destruct (license_text_paragraphs_value
              (sorted_by String.leb entry_id (values by_id)) w)
    as (w' & Hrun & H1 & H2 & H3 & H4 & H5 & H6).
  exists w'. repeat split; auto.
  - intros Hin. apply H6 in Hin. destruct Hin as [Hin|(l & Hl & Hrep & Hid)]; [now left|].
    right. exists l. repeat split; auto.
    exact (Permutation_in l (sorted_by_perm String.leb entry_id (values by_id)) Hl).
  - intros Hin. apply H6. destruct Hin as [Hin|(l & Hl & Hrep & Hid)]; [now left|].
    right. exists l. repeat split; auto.
    exact (Permutation_in l
             (Permutation_sym (sorted_by_perm String.leb entry_id (values by_id))) Hl).
Qed.

Section FallbackFacts.
Context {license_info : LicenseScanner} {platform : Platform}.

Lemma fetched_entry_id (add : option (dict string)) (key : string) (value : LicenseEntry) :
  entry_id (fetched_entry add key value) = entry_id value.
Proof.
  unfold fetched_entry. destruct (skip_lookup key value); [reflexivity|].
  destruct (spdx_response (license_url key)) as [|[t|]| |e]; simpl;
    try reflexivity; now destruct (override_text add key).
Qed.

Lemma fetched_keyed_by_id (add : option (dict string)) (d : dict LicenseEntry) :
  keyed_by_id d ->
  keyed_by_id (map (fun '(key, value) => (key, fetched_entry add key value)) d).
Proof.
  intros Hd key value Hin. apply in_map_iff in Hin.
  destruct Hin as ([k v] & Heq & Hin). inversion Heq; subst.
  rewrite fetched_entry_id. now apply Hd.
Qed.

Lemma fetched_urls_In (d : dict LicenseEntry) (key : string) (value : LicenseEntry) :
  In (key, value) d -> skip_lookup key value = false ->
  In (license_url key) (flat_map (fun '(key, value) => fetched_urls key value) d).
Proof.
  intros Hin Hskip. apply in_flat_map. exists (key, value). split; [exact Hin|].
  unfold fetched_urls. rewrite Hskip. now left.
Qed.

Lemma get_Some_split {V} (d : dict V) (k : string) (v : V) :
  get d k = Some v ->
  exists d1 d2, d = (d1 ++ (k, v) :: d2)%list /\ ~ In k (keys d1).
Proof.
  induction d as [|[k0 v0] d IH]; simpl; [discriminate|].
  destruct (String.eqb_spec k0 k) as [->|Hne].
  - intros H. inversion H; subst. exists [], d. split; [reflexivity|intros []].
  - intros H. destruct (IH H) as (d1 & d2 & -> & Hnot).
    exists ((k0, v0) :: d1), d2. split; [reflexivity|].
    simpl. intros [Heq|Hin]; [now elim Hne|now elim Hnot].
Qed.

(** C4, as the code has it: let [licenses_by_id] come from the grouping and
    hold under [key] an entry without text that the loop does not pass over.
    When every lookup of the loop is answered with a JSON object or a
    [RequestException], [fetch_license_texts] returns and leaves the three
    diagnostic dicts as they were; the SPDX URL of the stripped key was
    requested; when the request fails or the answer has no [licenseText], the
    entry's text is what the table of additional texts has under the
    upper-cased stripped key, and stays absent when the table has nothing.
    The id goes to [unknown_license_text_id_list] later, when the license
    texts of the document are written: there it is recorded exactly when the
    entry still has no text and the id is neither [UNKNOWN] nor empty.
    When the answer for [key] is JSON that is no object, and the other
    lookups are answered as above, [fetch_license_texts] raises
    [AttributeError] (line 258, which line 261 does not catch), with the
    diagnostic dicts as they were. *)
Theorem enrichment_falls_back (debug : bool) (add : option (dict string))
    (freq : dict nat) (w0 w : World) (by_id : dict LicenseEntry)
    (key : string) (value : LicenseEntry) :
  group_licenses debug freq w0 = Returns by_id w ->
  get by_id key = Some value ->
  license_text value = None ->
  skip_lookup key value = false ->
  (lookups_answered by_id ->
   exists by_id' w' value',
     fetch_license_texts debug add by_id w = Returns by_id' w'
     /\ same_diagnostics w w'
     /\ In ("https://spdx.org/licenses/" ++ strip key ++ ".json") (requested w')
     /\ get by_id' key = Some value'
     /\ entry_id value' = key
     /\ (spdx_response ("https://spdx.org/licenses/" ++ strip key ++ ".json") = Failed
         \/ spdx_response ("https://spdx.org/licenses/" ++ strip key ++ ".json")
            = Json None ->
         license_text value'
         = match add with
           | Some texts => get texts (upper (strip key))
           | None => None
           end)
     /\ forall w2, exists w3,
          license_texts_section by_id' w2 = Returns tt w3
          /\ (In key (keys (unknown_license_text_id_list w3))
              <-> In key (keys (unknown_license_text_id_list w2))
                  \/ (license_text value' = None
                      /\ key <> "UNKNOWN" /\ key <> EmptyString)))
  /\ ((forall key' value',
         In (key', value') by_id -> key' <> key -> skip_lookup key' value' = false ->
         answered ("https://spdx.org/licenses/" ++ strip key' ++ ".json")) ->
      spdx_response ("https://spdx.org/licenses/" ++ strip key ++ ".json") = JsonOther ->
      exists w',
        fetch_license_texts debug add by_id w = Raises AttributeError w'
        /\ same_diagnostics w w'
        /\ In ("https://spdx.org/licenses/" ++ strip key ++ ".json") (requested w')).
Proof.
  intros Hgroup Hget Htext Hskip.
  destruct (group_licenses_returns debug freq w0)
    as (by_id0 & w0' & Hrun & Hnd & Hkeyed & _).
  rewrite Hgroup in Hrun. inversion Hrun; subst by_id0 w0'. clear Hrun.
  split; cycle 1.
  { intros Hothers Hbad.
    destruct (get_Some_split by_id key value Hget) as (d1 & d2 & -> & Hnot).
    destruct (fetch_license_texts_raises debug add d1 d2 key value AttributeError w)
      as (w' & Hraise & Hafter).
    - intros k v Hin Hs. apply (Hothers k v); [apply in_app_iff; now left| |exact Hs].
      intros ->. apply Hnot. change key with (fst (key, v)) at 1. now apply in_map.
    - exact Hskip.
    - left. split; [exact Hbad|reflexivity].
    - exists w'. split; [exact Hraise|]. split; [apply Hafter|].
      destruct Hafter as (_ & _ & Hreq & _). rewrite Hreq.
      apply in_app_iff. right. apply in_app_iff. right. now left. }
  intros Hans.
  destruct (fetch_license_texts_value debug add by_id w Hans) as (w' & Hfetch & Hafter).
  set (by_id' := map (fun '(key, value) => (key, fetched_entry add key value)) by_id)
    in *.
  exists by_id', w', (fetched_entry add key value).
  assert (Hget' : get by_id' key = Some (fetched_entry add key value)).
  { unfold by_id'. now rewrite get_map_values, Hget. }
  assert (Hid : entry_id value = key).
  { apply Hkeyed. now apply get_In_items. }
  destruct (skip_lookup_false key value Hskip) as (Hna & _).
  split; [exact Hfetch|]. split; [apply Hafter|]. split.
  { destruct Hafter as (_ & _ & Hreq & _). rewrite Hreq. apply in_app_iff. right.
    apply (fetched_urls_In by_id key value); [now apply get_In_items|exact Hskip]. }
  split; [exact Hget'|]. split; [now rewrite fetched_entry_id|]. split.
  { fold (license_url key). fold (override_text add key).
    unfold fetched_entry. rewrite Hskip.
    intros [-> | ->]; destruct (override_text add key); simpl; auto. }
  intros w2.
  destruct (license_texts_section_value by_id' w2) as (w3 & Hsec & _ & _ & _ & _ & _ & H6).
  exists w3. split; [exact Hsec|]. rewrite H6.
  assert (Hnd' : NoDup (keys by_id')) by (unfold by_id'; now rewrite keys_map_values).
  assert (Hkeyed' : keyed_by_id by_id') by now apply fetched_keyed_by_id.
  split.
  - intros [Hin|(l & Hl & Hrep & Hlid)]; [now left|]. right.
    apply in_map_iff in Hl. destruct Hl as ([k v] & Heq & Hl). simpl in Heq. subst v.
    pose proof (Hkeyed' _ _ Hl) as Hk. rewrite Hlid in Hk. subst k.
    pose proof (NoDup_In_get _ _ _ Hnd' Hl) as Hl'. rewrite Hget' in Hl'.
    inversion Hl'; subst l. clear Hl'.
    unfold reported_without_text in Hrep. rewrite fetched_entry_id, Hid in Hrep.
    apply andb_true_iff in Hrep. destruct Hrep as [Hex Hnone].
    apply negb_true_iff in Hex. simpl in Hex.
    repeat (apply orb_false_elim in Hex; destruct Hex as [? Hex]).
    split; [now destruct (license_text (fetched_entry add key value))|].
    split; intros ->; discriminate.
  - intros [Hin|(Hnone & Hu & He)]; [now left|]. right.
    exists (fetched_entry add key value). split.
    + change (In (snd (key, fetched_entry add key value)) (map snd by_id')).
      apply in_map. now apply get_In_items.
    + split; [|now rewrite fetched_entry_id].
      unfold reported_without_text. rewrite fetched_entry_id, Hid, Hnone. simpl.
      destruct (String.eqb_spec key "UNKNOWN"); [contradiction|].
      destruct (String.eqb_spec key "NOASSERTION") as [->|_]; [discriminate Hna|].
      destruct (String.eqb_spec key EmptyString); [contradiction|]. reflexivity.
Qed.

End FallbackFacts.

Lemma enrichment_falls_back_witness :
  (exists by_id' w' value',
     @fetch_license_texts sample_scanner offline false
       (Some [("MIT", "MIT text")])
       [("MIT", {| entry_id := "MIT"; license_text := None |})] initial_world
     = Returns by_id' w'
     /\ same_diagnostics initial_world w'
     /\ In ("https://spdx.org/licenses/" ++ strip "MIT" ++ ".json") (requested w')
     /\ get by_id' "MIT" = Some value'
     /\ entry_id value' = "MIT"
     /\ (@spdx_response offline ("https://spdx.org/licenses/" ++ strip "MIT" ++ ".json")
         = Failed
         \/ @spdx_response offline ("https://spdx.org/licenses/" ++ strip "MIT" ++ ".json")
            = Json None ->
         license_text value' = get [("MIT", "MIT text")] (upper (strip "MIT")))
     /\ forall w2, exists w3,
          license_texts_section by_id' w2 = Returns tt w3
          /\ (In "MIT" (keys (unknown_license_text_id_list w3))
              <-> In "MIT" (keys (unknown_license_text_id_list w2))
                  \/ (license_text value' = None
                      /\ "MIT" <> "UNKNOWN" /\ "MIT" <> EmptyString)))
  /\ (exists w',
        @fetch_license_texts sample_scanner spdx_lists false
          (Some [("MIT", "MIT text")])
          [("MIT", {| entry_id := "MIT"; license_text := None |})] initial_world
        = Raises AttributeError w'
        /\ same_diagnostics initial_world w').
Proof.
  split.
  - destruct (@enrichment_falls_back sample_scanner offline false
                (Some [("MIT", "MIT text")]) [("MIT", 1)] initial_world initial_world
                [("MIT", {| entry_id := "MIT"; license_text := None |})]
                "MIT" {| entry_id := "MIT"; license_text := None |}) as [Hreturns _].
    + vm_compute. reflexivity.
    + reflexivity.
    + reflexivity.
    + vm_compute. reflexivity.
    + apply Hreturns. intros key value _ _. left. reflexivity.
  - destruct (@enrichment_falls_back sample_scanner spdx_lists false
                (Some [("MIT", "MIT text")]) [("MIT", 1)] initial_world initial_world
                [("MIT", {| entry_id := "MIT"; license_text := None |})]
                "MIT" {| entry_id := "MIT"; license_text := None |}) as [_ Hraises].
    + vm_compute. reflexivity.
    + reflexivity.
    + reflexivity.
    + vm_compute. reflexivity.
    + destruct Hraises as (w' & Hrun & Hsame & _).
      * intros key value [H|[]] Hne. inversion H; subst. now elim Hne.
      * reflexivity.
      * exists w'. split; [exact Hrun|exact Hsame].
Defined.

(** C4 as it is worded fails: for the id [UNKNOWN] the lookup is made and
    fails, there is no additional text, and yet the id is not recorded in
    [unknown_license_text_id_list]. *)
Lemma unknown_id_is_not_recorded :
  exists freq by_id w',
    @build_document sample_scanner offline [package_unknown] [] true false None
      initial_world
    = Returns (freq, by_id) w'
    /\ get by_id "UNKNOWN" = Some {| entry_id := "UNKNOWN"; license_text := None |}
    /\ @skip_lookup sample_scanner "UNKNOWN"
         {| entry_id := "UNKNOWN"; license_text := None |} = false
    /\ requested w' = ["https://spdx.org/licenses/UNKNOWN.json"]
    /\ @spdx_response offline "https://spdx.org/licenses/UNKNOWN.json" = Failed
    /\ ~ In "UNKNOWN" (keys (unknown_license_text_id_list w')).
Proof.
  eexists _, _, _. split; [vm_compute; reflexivity|].
  repeat split. intros [].
Qed.

(** ** Code that does not read the diagnostic dicts *)

Lemma grows_refl (w : World) : grows (fun _ => []) w w.
Proof. split; [|reflexivity]. intros s k. simpl. tauto. Qed.

Lemma grows_trans (a b : Diagnostic -> list string) (w1 w2 w3 : World) :
  grows a w1 w2 -> grows b w2 w3 -> grows (fun s => a s ++ b s)%list w1 w3.
Proof.
  intros [Ha Hfa] [Hb Hfb]. split; [|congruence].
  intros s k. rewrite Hb, Ha, in_app_iff. tauto.
Qed.

Lemma grows_same (w w' : World) :
  same_diagnostics w w' -> filesystem w' = filesystem w -> grows (fun _ => []) w w'.
Proof.
  intros (H1 & H2 & H3) Hf. split; [|exact Hf].
  intros [] k; simpl; rewrite ?H1, ?H2, ?H3; tauto.
Qed.

Lemma grows_In (add : Diagnostic -> list string) (w w' : World) (s : Diagnostic)
    (k : string) :
  grows add w w' -> In k (diagnostic_keys s w) -> In k (diagnostic_keys s w').
Proof. intros [H _] Hin. apply H. now left. Qed.

Lemma steady_ret {A} (a : A) : steady (ret a).
Proof.
  exists (inl a), (fun _ => []). intros w. exists w. split; [reflexivity|apply grows_refl].
Qed.

Lemma steady_raise {A} (e : Exn) : steady (@raise A e).
Proof.
  exists (inr e), (fun _ => []). intros w. exists w. split; [reflexivity|apply grows_refl].
Qed.

Lemma steady_bind {A B} (m : M A) (f : A -> M B) :
  steady m -> (forall a, steady (f a)) -> steady (bind m f).
Proof.
  intros ([a|e] & add1 & H1) Hf.
  - destruct (Hf a) as (o2 & add2 & H2).
    exists o2, (fun s => add1 s ++ add2 s)%list. intros w.
    destruct (H1 w) as (w1 & Hm & Hg1). destruct (H2 w1) as (w2 & Hk & Hg2).
    exists w2. split; [|eapply grows_trans; eauto].
    now rewrite (bind_Returns _ _ _ _ _ Hm).
  - exists (inr e), add1. intros w. destruct (H1 w) as (w1 & Hm & Hg1).
    exists w1. split; [|exact Hg1]. now rewrite (bind_Raises _ _ _ _ _ Hm).
Qed.

Lemma steady_print (m : Msg) : steady (print m).
Proof.
  exists (inl tt), (fun _ => []). intros w. eexists. split; [reflexivity|].
  apply grows_same; [repeat split|reflexivity].
Qed.

Lemma steady_when (b : bool) (m : M unit) : steady m -> steady (when b m).
Proof. destruct b; [auto|intros _; apply steady_ret]. Qed.

Lemma steady_getitem {V} (d : dict V) (k : string) : steady (getitem d k).
Proof.
  unfold getitem. destruct (get d k); [apply steady_ret|apply steady_raise].
Qed.

Lemma steady_for_each {A S} (l : list A) (body : S -> A -> M S) (acc : S) :
  (forall acc x, steady (body acc x)) -> steady (for_each l body acc).
Proof.
  intros Hb. revert acc. induction l as [|x l IH]; intros acc; simpl.
  - apply steady_ret.
  - apply steady_bind; [apply Hb|intros acc'; apply IH].
Qed.

Lemma steady_for_items {V} (d : dict V) (body : string -> V -> M V) :
  (forall key value, steady (body key value)) -> steady (for_items d body).
Proof.
  intros Hb. induction d as [|[key value] r IH]; simpl.
  - apply steady_ret.
  - apply steady_bind; [apply Hb|intros v'].
    apply steady_bind; [exact IH|intros r']. apply steady_ret.
Qed.

Lemma steady_try_except {A} (body : M A) (exc : Exn -> bool) (handler : M A) :
  steady body -> steady handler -> steady (try_except body exc handler).
Proof.
  intros ([a|e] & add1 & H1) Hh.
  - exists (inl a), add1. intros w. destruct (H1 w) as (w1 & Hm & Hg).
    exists w1. split; [|exact Hg]. unfold try_except. now rewrite Hm.
  - destruct (exc e) eqn:E.
    + destruct Hh as (o2 & add2 & H2).
      exists o2, (fun s => add1 s ++ add2 s)%list. intros w.
      destruct (H1 w) as (w1 & Hm & Hg1). destruct (H2 w1) as (w2 & Hk & Hg2).
      exists w2. split; [|eapply grows_trans; eauto].
      unfold try_except. now rewrite Hm, E.
    + exists (inr e), add1. intros w. destruct (H1 w) as (w1 & Hm & Hg).
      exists w1. split; [|exact Hg]. unfold try_except. now rewrite Hm, E.
Qed.

Lemma steady_set_license_info_missing (package_name : string) :
  steady (set_license_info_missing package_name).
Proof.
  exists (inl tt),
    (fun s => match s with MissingLicenseInfo => [package_name] | _ => [] end).
  intros w. eexists. split; [reflexivity|]. split; [|reflexivity].
  intros [] k; simpl; try tauto. rewrite In_keys_set. intuition.
Qed.

Lemma steady_set_copyright_info_missing (name : string) :
  steady (set_copyright_info_missing name).
Proof.
  exists (inl tt),
    (fun s => match s with MissingCopyrightInfo => [name] | _ => [] end).
  intros w. eexists. split; [reflexivity|]. split; [|reflexivity].
  intros [] k; simpl; try tauto. rewrite In_keys_set. intuition.
Qed.

Lemma steady_set_unknown_license_text (id : string) :
  steady (set_unknown_license_text id).
Proof.
  exists (inl tt),
    (fun s => match s with UnknownLicenseText => [id] | _ => [] end).
  intros w. eexists. split; [reflexivity|]. split; [|reflexivity].
  intros [] k; simpl; try tauto. rewrite In_keys_set. intuition.
Qed.

Lemma steady_requests_get_json `{Platform} (url : string) :
  steady (requests_get_json url).
Proof.
  unfold requests_get_json. destruct (spdx_response url) as [|t| |e].
  - exists (inr RequestException), (fun _ => []). intros w. eexists.
    split; [reflexivity|]. apply grows_same; [repeat split|reflexivity].
  - exists (inl t), (fun _ => []). intros w. eexists.
    split; [reflexivity|]. apply grows_same; [repeat split|reflexivity].
  - exists (inr AttributeError), (fun _ => []). intros w. eexists.
    split; [reflexivity|]. apply grows_same; [repeat split|reflexivity].
  - exists (inr e), (fun _ => []). intros w. eexists.
    split; [reflexivity|]. apply grows_same; [repeat split|reflexivity].
Qed.

Create HintDb steady.
#[local] Hint Resolve steady_ret steady_raise steady_print steady_getitem
  steady_set_license_info_missing steady_set_copyright_info_missing
  steady_set_unknown_license_text : steady.

(** One step through code that is made of the steps above. *)
Ltac steady_step :=
  first
    [ solve [auto with steady]
    | apply steady_bind; [|intros ?]
    | apply steady_when
    | apply steady_for_each; intros ? ?
    | apply steady_for_items; intros ? ?
    | apply steady_try_except
    | apply steady_requests_get_json
    | match goal with
      | |- steady (if ?b then _ else _) => destruct b
      | |- steady (match ?x with _ => _ end) => destruct x
      | |- steady (let '(_, _) := ?p in _) => destruct p
      | |- steady ((let '(_, _) := ?p in _) _) => destruct p
      end ].

Ltac steady := repeat steady_step.

Lemma steady_ensure_len (text : option string) (max_len : Z) :
  steady (_ensure_len text max_len).
Proof. unfold _ensure_len. steady. Qed.

Lemma steady_get_licenses (o : SbomRecord) : steady (_get_licenses o).
Proof. unfold _get_licenses, concluded_license. steady. Qed.

Lemma steady_get_copyright (o : SbomRecord) : steady (_get_copyright o).
Proof. unfold _get_copyright. steady. Qed.

#[local] Hint Resolve steady_ensure_len steady_get_licenses steady_get_copyright
  : steady.

Section SteadyFacts.
Context {license_info : LicenseScanner} {platform : Platform}.

Lemma steady_find_license_id (value : string) : steady (_find_license_id value).
Proof. unfold _find_license_id. steady. Qed.

#[local] Hint Resolve steady_find_license_id : steady.

Lemma steady_build_document (packages files : list SbomRecord)
    (include_license debug : bool) (add : option (dict string)) :
  steady (build_document packages files include_license debug add).
Proof.
  unfold build_document, collect_licenses, print_license_information,
    group_licenses, group_license, fetch_license_texts, fetch_license_text,
    package_information, license_texts_section, license_text_paragraph,
    component_type_summary.
  steady.
Qed.

End SteadyFacts.

(** ** Writing the diagnostics (lines 366-394) *)

Lemma same_diagnostics_refl (w : World) : same_diagnostics w w.
Proof. repeat split. Qed.

Lemma same_diagnostics_trans (w1 w2 w3 : World) :
  same_diagnostics w1 w2 -> same_diagnostics w2 w3 -> same_diagnostics w1 w3.
Proof.
  unfold same_diagnostics. intros (A1 & A2 & A3) (B1 & B2 & B3).
  repeat split; congruence.
Qed.

Lemma same_diagnostics_keys (w w' : World) (s : Diagnostic) :
  same_diagnostics w w' -> diagnostic_keys s w' = diagnostic_keys s w.
Proof. intros (H1 & H2 & H3). destruct s; simpl; congruence. Qed.

Lemma write_csv_same (b : bool) (fname : string) (lines : list string) (w : World) :
  same_diagnostics w
    (world_after (when b (print (Writing fname) ;; write_new_file fname lines) w)).
Proof.
  destruct b; simpl; [|apply same_diagnostics_refl].
  unfold bind, print, write_new_file. simpl.
  destruct (contains (filesystem w) fname); simpl; repeat split.
Qed.

Lemma write_csv_value (b : bool) (fname : string) (lines : list string) (w : World) :
  contains (filesystem w) fname = false ->
  exists w',
    when b (print (Writing fname) ;; write_new_file fname lines) w = Returns tt w'
    /\ same_diagnostics w w'
    /\ filesystem w' = if b then set (filesystem w) fname lines else filesystem w.
Proof.
  intros Hnew. destruct b; simpl.
  - unfold bind, print, write_new_file. simpl. rewrite Hnew.
    eexists. split; [reflexivity|]. repeat split.
  - exists w. repeat split.
Qed.

Lemma contains_set_other {V} (d : dict V) (k k0 : string) (v : V) :
  k <> k0 -> contains (set d k v) k0 = contains d k0.
Proof. intros H. unfold contains. now rewrite get_set_other. Qed.

Lemma csv_filenames_differ (now : string) :
  missing_license_info_filename now <> missing_copyright_info_filename now
  /\ missing_license_info_filename now <> unknown_license_text_filename now
  /\ missing_copyright_info_filename now <> unknown_license_text_filename now.
Proof.
  unfold missing_license_info_filename, missing_copyright_info_filename,
    unknown_license_text_filename.
  repeat split; intros H; simpl in H; discriminate H.
Qed.

Section DiagnosticsFacts.
Context {license_info : LicenseScanner} {platform : Platform}.

Lemma write_diagnostics_same (now : string) (w : World) :
  same_diagnostics w (world_after (write_diagnostics now w)).
Proof.
  unfold write_diagnostics.
  fold (missing_license_info_filename now) (missing_copyright_info_filename now)
    (unknown_license_text_filename now).
  unfold bind at 1. unfold gets at 1. unfold bind at 1.
  match goal with |- context [when ?b (bind (print (Writing ?f)) ?k) w] =>
    pose proof (write_csv_same b f
                  (missing_license_info_lines (license_info_missing_package_id_list w)) w)
      as H1;
    destruct (when b (bind (print (Writing f)) k) w) as [[] w1|e w1]
  end; [|exact H1]. simpl in H1.
  unfold bind at 1. unfold gets at 1. unfold bind at 1.
  match goal with |- context [when ?b (bind (print (Writing ?f)) ?k) w1] =>
    pose proof (write_csv_same b f
                  (missing_copyright_info_lines
                     (copyright_info_missing_package_name_list w1)) w1) as H2;
    destruct (when b (bind (print (Writing f)) k) w1) as [[] w2|e w2]
  end; simpl in H2; [|eapply same_diagnostics_trans; eauto].
  unfold bind at 1. unfold gets at 1.
  match goal with |- context [when ?b (bind (print (Writing ?f)) ?k) w2] =>
    pose proof (write_csv_same b f
                  (unknown_license_text_lines (unknown_license_text_id_list w2)) w2)
      as H3
  end.
  eapply same_diagnostics_trans; [exact H1|].
  eapply same_diagnostics_trans; [exact H2|exact H3].
Qed.

End DiagnosticsFacts.

(** ** The whole call *)

Lemma get_copyright_returns (o : SbomRecord) (w : World) :
  exists r w', _get_copyright o w = Returns r w'.
Proof.
  unfold _get_copyright.
  destruct (_ =? _); eexists _, _; reflexivity.
Qed.

Lemma for_each_returns {A S} (l : list A) (body : S -> A -> M S) :
  (forall acc x w, exists acc' w', body acc x w = Returns acc' w') ->
  forall acc w, exists acc' w', for_each l body acc w = Returns acc' w'.
Proof.
  intros Hb. induction l as [|x l IH]; intros acc w; simpl.
  - eexists _, _; reflexivity.
  - destruct (Hb acc x w) as (acc1 & w1 & H1).
    destruct (IH acc1 w1) as (acc2 & w2 & H2).
    exists acc2, w2. now rewrite (bind_Returns _ _ _ _ _ H1).
Qed.

Section CallFacts.
Context {license_info : LicenseScanner} {platform : Platform}.

Lemma print_license_information_returns (freq : dict nat) (w : World) :
  exists w', print_license_information freq w = Returns tt w'.
Proof.
  unfold print_license_information.
  rewrite (bind_Returns _ _ _ _ _ (print_printed LicenseInformation w)).
  match goal with |- exists w', for_each ?l ?body tt ?w0 = _ =>
    destruct (for_each_returns l body) with (acc := tt) (w := w0) as ([] & w' & H)
  end.
  - intros [] [f licenses] w0.
    destruct (ensure_len_returns licenses 200 w0) as [r Hr]; [lia|].
    eexists tt, _. now rewrite (bind_Returns _ _ _ _ _ Hr).
  - now exists w'.
Qed.

Lemma package_loop_returns (l : list SbomRecord)
    (sbom_components : list (option string)) (sbom_suppliers : list string)
    (w : World) :
  exists sbom_suppliers' w',
    for_each l
      (fun '(sbom_components, sbom_suppliers) package =>
         let type := sbom_type package in
         let supplier := sbom_supplier package in
         licenses <- _get_licenses package ;;
         licenses <- for_each licenses
                       (fun acc l => r <- _find_license_id l ;; ret (acc ++ [r])%list) [] ;;
         let licenses_multiline := join (String newline EmptyString) licenses in
         let sbom_components := (sbom_components ++ [type])%list in
         let sbom_suppliers :=
           match supplier with
           | Some s => (sbom_suppliers ++ [s])%list
           | None => sbom_suppliers
           end in
         copyright <- _get_copyright package ;;
         ret (sbom_components, sbom_suppliers))
      (sbom_components, sbom_suppliers) w
    = Returns ((sbom_components ++ map sbom_type l)%list, sbom_suppliers') w'.
Proof.
  revert sbom_components sbom_suppliers w.
  induction l as [|o l IH]; intros comps supps w; simpl.
  - rewrite app_nil_r. eexists _, _; reflexivity.
  - destruct (get_licenses_returns o w) as [w1 H1].
    destruct (for_each_returns (licenses_of o)
                (fun acc l => r <- _find_license_id l ;; ret (acc ++ [r])%list))
      with (acc := @nil string) (w := w1) as (ids & w2 & H2).
    { intros acc x w0. eexists _, _.
      now rewrite (bind_Returns _ _ _ _ _ (find_license_id_value x w0)). }
    destruct (get_copyright_returns o w2) as (c & w3 & H3).
    destruct (IH (comps ++ [sbom_type o])%list
                (match sbom_supplier o with
                 | Some s => (supps ++ [s])%list
                 | None => supps
                 end) w3) as (supps' & w4 & H4).
    exists supps', w4. rewrite <- app_assoc in H4. simpl in H4. rewrite <- H4.
    apply bind_Returns.
    rewrite (bind_Returns _ _ _ _ _ H1), (bind_Returns _ _ _ _ _ H2),
      (bind_Returns _ _ _ _ _ H3).
    reflexivity.
Qed.

Lemma package_information_returns (packages : list SbomRecord) (w : World) :
  exists sbom_suppliers w',
    package_information packages w
    = Returns (map sbom_type packages, sbom_suppliers) w'.
Proof.
  unfold package_information. destruct packages as [|o l].
  - eexists _, _; reflexivity.
  - cbn [List.length Nat.ltb Nat.leb].
    destruct (package_loop_returns (o :: l) [] [] w) as (supps & w' & H).
    now exists supps, w'.
Qed.

Lemma component_type_summary_returns (packages : list SbomRecord) (w : World) :
  components_sortable packages ->
  component_type_summary (map sbom_type packages) w = Returns tt w.
Proof.
  intros Hs. unfold component_type_summary. rewrite length_map.
  destruct Hs as [Hlt|Hall].
  - destruct (Nat.leb_spec 2 (List.length packages)); [lia|reflexivity].
  - replace (existsb _ (map sbom_type packages)) with false;
      [now rewrite andb_false_r|].
    symmetry. induction packages as [|o l IH]; simpl; [reflexivity|].
    destruct (sbom_type o) eqn:E.
    + simpl. apply IH. intros p Hp. apply Hall. now right.
    + elim (Hall o); [now left|exact E].
Qed.

Lemma answered_lookups (d : dict LicenseEntry) :
  (forall url, answered url) -> lookups_answered d.
Proof. intros H key value _ _. apply H. Qed.

Lemma enrichment_returns (include_license debug : bool) (add : option (dict string))
    (by_id : dict LicenseEntry) (w : World) :
  enrichment_answered include_license ->
  exists by_id' w',
    (if include_license then fetch_license_texts debug add by_id
     else ret by_id) w = Returns by_id' w'
    /\ after_requests w w'
         (if include_license
          then flat_map (fun '(key, value) => fetched_urls key value) by_id
          else []).
Proof.
  intros [->|Hans].
  - eexists _, _. split; [reflexivity|apply after_requests_refl].
  - destruct include_license.
    + destruct (fetch_license_texts_value debug add by_id w (answered_lookups by_id Hans))
        as (w' & H & Hw').
      eexists _, _; split; [exact H|exact Hw'].
    + eexists _, _. split; [reflexivity|apply after_requests_refl].
Qed.

Lemma build_document_returns (packages files : list SbomRecord)
    (include_license debug : bool) (add : option (dict string)) (w : World) :
  components_sortable packages ->
  enrichment_answered include_license ->
  exists r w', build_document packages files include_license debug add w = Returns r w'.
Proof.
  intros Hs Hans. unfold build_document.
  destruct (collect_licenses_returns packages files w) as [w1 H1].
  rewrite (bind_Returns _ _ _ _ _ H1).
  set (freq := build_freq _).
  assert (H2 : exists w2, when debug (print_license_information freq) w1 = Returns tt w2).
  { destruct debug; simpl; [apply print_license_information_returns|now exists w1]. }
  destruct H2 as [w2 H2]. rewrite (bind_Returns _ _ _ _ _ H2).
  destruct (group_licenses_returns debug freq w2) as (by_id & w3 & H3 & _).
  rewrite (bind_Returns _ _ _ _ _ H3).
  destruct (enrichment_returns include_license debug add by_id w3 Hans)
    as (by_id' & w4 & H4 & _).
  rewrite (bind_Returns _ _ _ _ _ H4).
  destruct (package_information_returns packages w4) as (supps & w5 & H5).
  rewrite (bind_Returns _ _ _ _ _ H5).
  assert (H6 : exists w6, when include_license (license_texts_section by_id') w5
                          = Returns tt w6).
  { destruct include_license; simpl.
    - destruct (license_texts_section_value by_id' w5) as (w6 & H6 & _).
      now exists w6.
    - now exists w5. }
  destruct H6 as [w6 H6]. rewrite (bind_Returns _ _ _ _ _ H6).
  rewrite (bind_Returns _ _ _ _ _ (component_type_summary_returns packages w6 Hs)).
  eexists _, _; reflexivity.
Qed.

End CallFacts.

(** ** Publishing the document (line 364) *)

Lemma publish_document_same `{DocBuilder} (format outfile : string) (doc : Document)
    (w : World) :
  same_diagnostics w (world_after (publish_document format outfile doc w)).
Proof.
  unfold publish_document. destruct (published_raised _); repeat split.
Qed.

Lemma publish_document_value `{DocBuilder} (format outfile : string) (doc : Document)
    (w : World) :
  exists w',
    publish_document format outfile doc w
    = match published_raised (publish format outfile doc (filesystem w)) with
      | Some e => Raises e w'
      | None => Returns tt w'
      end
    /\ same_diagnostics w w'
    /\ stdout w' = stdout w
    /\ requested w' = requested w
    /\ filesystem w' = published_files (publish format outfile doc (filesystem w)).
Proof.
  unfold publish_document. eexists. split; [reflexivity|]. repeat split.
Qed.

Section RunFacts.
Context {license_info : LicenseScanner} {platform : Platform} {builder : DocBuilder}.

(** The document a call publishes when the enrichment gave [licenses_by_id]. *)
Lemma run_Returns (c : Call) (w w1 : World) (freq : dict nat)
    (licenses_by_id : dict LicenseEntry) :
  build_document (call_packages c) (call_files c) (call_include_license c)
    (call_debug c) (call_additional_license_texts c) w
  = Returns (freq, licenses_by_id) w1 ->
  run c w
  = (publish_document (call_format c) (call_outfile c) {|
       doc_filename := call_filename c;
       doc_packages := call_packages c;
       doc_files := call_files c;
       doc_include_license := call_include_license c;
       doc_licenses_by_id := licenses_by_id |} ;;
     when (call_debug c) (write_diagnostics (call_now c))) w1.
Proof.
  intros H. unfold run, generate_document. now rewrite (bind_Returns _ _ _ _ _ H).
Qed.

Lemma run_Raises (c : Call) (w w1 : World) (e : Exn) :
  build_document (call_packages c) (call_files c) (call_include_license c)
    (call_debug c) (call_additional_license_texts c) w
  = Raises e w1 ->
  run c w = Raises e w1.
Proof.
  intros H. unfold run, generate_document. now rewrite (bind_Raises _ _ _ _ _ H).
Qed.

(** From the call of [publish] on the diagnostic dicts are not changed. *)
Lemma publish_and_write_same (format outfile : string) (doc : Document)
    (debug : bool) (now : string) (w : World) :
  same_diagnostics w
    (world_after ((publish_document format outfile doc ;;
                   when debug (write_diagnostics now)) w)).
Proof.
  pose proof (publish_document_same format outfile doc w) as S1. unfold bind.
  destruct (publish_document format outfile doc w) as [[] w1|e w1]; simpl in *;
    [|exact S1].
  eapply same_diagnostics_trans; [exact S1|].
  destruct debug; simpl; [apply write_diagnostics_same|apply same_diagnostics_refl].
Qed.

End RunFacts.

Section AccumulationFacts.
Context {license_info : LicenseScanner} {platform : Platform} {builder : DocBuilder}.

Lemma write_diagnostics_value (now : string) (w : World) :
  csv_files_new now w ->
  exists w',
    write_diagnostics now w = Returns tt w'
    /\ same_diagnostics w w'
    /\ (license_info_missing_package_id_list w <> [] ->
        get (filesystem w') (missing_license_info_filename now)
        = Some (missing_license_info_lines (license_info_missing_package_id_list w)))
    /\ (copyright_info_missing_package_name_list w <> [] ->
        get (filesystem w') (missing_copyright_info_filename now)
        = Some (missing_copyright_info_lines (copyright_info_missing_package_name_list w)))
    /\ (unknown_license_text_id_list w <> [] ->
        get (filesystem w') (unknown_license_text_filename now)
        = Some (unknown_license_text_lines (unknown_license_text_id_list w))).
Proof.
  intros (N1 & N2 & N3).
  destruct (csv_filenames_differ now) as (D12 & D13 & D23).
  unfold write_diagnostics.
  fold (missing_license_info_filename now) (missing_copyright_info_filename now)
    (unknown_license_text_filename now).
  set (f1 := missing_license_info_filename now) in *.
  set (f2 := missing_copyright_info_filename now) in *.
  set (f3 := unknown_license_text_filename now) in *.
  unfold bind at 1. unfold gets at 1.
  set (ids := license_info_missing_package_id_list w).
  destruct (write_csv_value (0 <? List.length ids)%nat f1
              (missing_license_info_lines ids) w N1) as (w1 & R1 & S1 & F1).
  rewrite (bind_Returns _ _ _ _ _ R1).
  unfold bind at 1. unfold gets at 1.
  set (names := copyright_info_missing_package_name_list w1).
  assert (N2' : contains (filesystem w1) f2 = false).
  { rewrite F1. destruct (0 <? List.length ids)%nat; [|exact N2].
    now rewrite contains_set_other. }
  destruct (write_csv_value (0 <? List.length names)%nat f2
              (missing_copyright_info_lines names) w1 N2') as (w2 & R2 & S2 & F2).
  rewrite (bind_Returns _ _ _ _ _ R2).
  unfold bind at 1. unfold gets at 1.
  set (unknown := unknown_license_text_id_list w2).
  assert (N3' : contains (filesystem w2) f3 = false).
  { rewrite F2, F1.
    destruct (0 <? List.length names)%nat; destruct (0 <? List.length ids)%nat;
      rewrite ?contains_set_other; auto. }
  destruct (write_csv_value (0 <? List.length unknown)%nat f3
              (unknown_license_text_lines unknown) w2 N3') as (w3 & R3 & S3 & F3).
  exists w3. split; [exact R3|].
  pose proof (same_diagnostics_trans _ _ _ S1 S2) as S12.
  split; [eapply same_diagnostics_trans; eauto|].
  assert (Hnames : names = copyright_info_missing_package_name_list w)
    by (subst names; apply S1).
  assert (Hunknown : unknown = unknown_license_text_id_list w)
    by (subst unknown; apply S12).
  rewrite <- Hnames, <- Hunknown. fold ids.
  assert (Hpos : forall (d : dict bool), d <> [] -> (0 <? List.length d)%nat = true).
  { intros [|x d] Hd; [now elim Hd|reflexivity]. }
  split; [|split].
  - intros Hne. rewrite F3, F2, F1, (Hpos ids Hne).
    destruct (0 <? List.length unknown)%nat; destruct (0 <? List.length names)%nat;
      rewrite ?get_set_other by congruence; apply get_set_same.
  - intros Hne. rewrite F3, F2, (Hpos names Hne).
    destruct (0 <? List.length unknown)%nat;
      rewrite ?get_set_other by congruence; apply get_set_same.
  - intros Hne. rewrite F3, (Hpos unknown Hne). apply get_set_same.
Qed.

(** The keys a call adds to the diagnostic dicts do not depend on what the
    dicts hold. *)
Lemma run_keys (c : Call) :
  exists add : Diagnostic -> list string,
    forall w s k,
      In k (diagnostic_keys s (world_after (run c w)))
      <-> In k (diagnostic_keys s w) \/ In k (add s).
Proof.
  destruct (steady_build_document (call_packages c) (call_files c)
              (call_include_license c) (call_debug c)
              (call_additional_license_texts c)) as (o & add & H).
  exists add. intros w s k. destruct (H w) as (w1 & Hrun & Hgrows & _).
  rewrite <- Hgrows. destruct o as [[freq by_id]|e].
  - rewrite (run_Returns c w w1 freq by_id Hrun).
    now rewrite (same_diagnostics_keys _ _ s (publish_and_write_same _ _ _ _ _ w1)).
  - rewrite (run_Raises c w w1 e Hrun). reflexivity.
Qed.

Lemma cleared_keys (w : World) (s : Diagnostic) : diagnostic_keys s (cleared w) = [].
Proof. now destruct s. Qed.

(** C10: [generate_document] only adds keys to the three module-level
    diagnostic dicts.  A key that is in one of them before a call is in it
    after the call, however the call ends; after a call a dict holds what it
    held before and what the call would have recorded with the dicts
    emptied, so that after two calls it holds the union of what it held at
    first and of what each call records; and when a call with [debug] comes
    to write its CSV files (the enrichment and the summary do not raise,
    [publish] returns and leaves the three names alone, and none of the three
    files is there), they have a row for every key that was there before
    the call. *)
Theorem diagnostics_accumulate :
  (forall (c : Call) (w : World) (s : Diagnostic) (k : string),
     In k (diagnostic_keys s w) -> In k (diagnostic_keys s (world_after (run c w))))
  /\ (forall (c : Call) (w : World) (s : Diagnostic) (k : string),
        In k (diagnostic_keys s (world_after (run c w)))
        <-> In k (diagnostic_keys s w)
            \/ In k (diagnostic_keys s (world_after (run c (cleared w)))))
  /\ (forall (c1 c2 : Call) (w0 : World) (s : Diagnostic) (k : string),
        In k (diagnostic_keys s (world_after (run c2 (world_after (run c1 w0)))))
        <-> In k (diagnostic_keys s w0)
            \/ In k (diagnostic_keys s (world_after (run c1 (cleared w0))))
            \/ In k (diagnostic_keys s
                       (world_after (run c2 (cleared (world_after (run c1 w0)))))))
  /\ (forall (c : Call) (w : World),
        call_debug c = true ->
        components_sortable (call_packages c) ->
        enrichment_answered (call_include_license c) ->
        publish_returns c w ->
        csv_files_new (call_now c) w ->
        exists w',
          run c w = Returns tt w'
          /\ (forall k, In k (diagnostic_keys MissingLicenseInfo w) ->
                exists lines,
                  get (filesystem w') (missing_license_info_filename (call_now c))
                  = Some lines /\ In (csv_row2 k) lines)
          /\ (forall k, In k (diagnostic_keys MissingCopyrightInfo w) ->
                exists lines,
                  get (filesystem w') (missing_copyright_info_filename (call_now c))
                  = Some lines /\ In (csv_row2 k) lines)
          /\ (forall k, In k (diagnostic_keys UnknownLicenseText w) ->
                exists lines,
                  get (filesystem w') (unknown_license_text_filename (call_now c))
                  = Some lines /\ In (csv_row3 k) lines)).
Proof.
  assert (Hone : forall (c : Call) (w : World) (s : Diagnostic) (k : string),
             In k (diagnostic_keys s (world_after (run c w)))
             <-> In k (diagnostic_keys s w)
                 \/ In k (diagnostic_keys s (world_after (run c (cleared w))))).
  { intros c w s k. destruct (run_keys c) as [add Hadd].
    rewrite (Hadd w), (Hadd (cleared w)), cleared_keys. simpl. tauto. }
  split; [|split; [exact Hone|split]].
  - intros c w s k Hin. apply Hone. now left.
  - intros c1 c2 w0 s k. rewrite (Hone c2), (Hone c1). tauto.
  - intros c w Hdebug Hsort Hans Hpub Hnew.
    destruct (steady_build_document (call_packages c) (call_files c)
                (call_include_license c) (call_debug c)
                (call_additional_license_texts c)) as (o & add & H).
    destruct (H w) as (w1 & Hrun & Hgrows & Hfs).
    destruct (build_document_returns (call_packages c) (call_files c)
                (call_include_license c) (call_debug c)
                (call_additional_license_texts c) w Hsort Hans) as (r & w1' & Hret).
    rewrite Hret in Hrun. destruct o as [r'|e]; [|discriminate Hrun].
    inversion Hrun; subst r' w1'. clear Hrun. destruct r as [freq by_id].
    destruct (publish_document_value (call_format c) (call_outfile c) {|
                doc_filename := call_filename c;
                doc_packages := call_packages c;
                doc_files := call_files c;
                doc_include_license := call_include_license c;
                doc_licenses_by_id := by_id |} w1) as (w2 & Hp & S2 & _ & _ & F2).
    rewrite Hfs in Hp, F2.
    destruct (Hpub {| doc_filename := call_filename c;
                      doc_packages := call_packages c;
                      doc_files := call_files c;
                      doc_include_license := call_include_license c;
                      doc_licenses_by_id := by_id |}) as [Hnone Hleft].
    rewrite Hnone in Hp.
    assert (Hnew2 : csv_files_new (call_now c) w2).
    { unfold csv_files_new, contains in *. rewrite F2.
      rewrite !Hleft by (simpl; tauto). exact Hnew. }
    destruct (write_diagnostics_value (call_now c) w2 Hnew2)
      as (w' & Hw & _ & L1 & L2 & L3).
    exists w'. split.
    { rewrite (run_Returns c w w1 freq by_id Hret).
      rewrite (bind_Returns _ _ _ _ _ Hp). rewrite Hdebug. exact Hw. }
    assert (Hne : forall (d : dict bool) k, In k (keys d) -> d <> []).
    { intros d k Hin ->. destruct Hin. }
    assert (Hkeys : forall s k, In k (diagnostic_keys s w) -> In k (diagnostic_keys s w2)).
    { intros s k Hin. rewrite (same_diagnostics_keys _ _ s S2). apply Hgrows. now left. }
    split; [|split]; intros k Hin.
    + pose proof (Hkeys MissingLicenseInfo k Hin) as Hin1.
      simpl in Hin1. eexists. split; [apply L1; eapply Hne; eauto|].
      right. now apply (in_map csv_row2).
    + pose proof (Hkeys MissingCopyrightInfo k Hin) as Hin1.
      simpl in Hin1. eexists. split; [apply L2; eapply Hne; eauto|].
      right. now apply (in_map csv_row2).
    + pose proof (Hkeys UnknownLicenseText k Hin) as Hin1.
      simpl in Hin1. eexists. split; [apply L3; eapply Hne; eauto|].
      right. now apply (in_map csv_row3).
Qed.

End AccumulationFacts.

Lemma diagnostics_accumulate_witness :
  exists w' lines,
    @run sample_scanner offline file_builder later_call
      (world_after (@run sample_scanner offline file_builder first_call initial_world))
    = Returns tt w'
    /\ In "foo" (diagnostic_keys MissingLicenseInfo w')
    /\ get (filesystem w') (missing_license_info_filename (call_now later_call))
       = Some lines
    /\ In (@csv_row2 offline "foo") lines.
Proof.
  destruct (proj2 (proj2 (proj2 (@diagnostics_accumulate sample_scanner offline
                                   file_builder)))
              later_call
              (world_after (@run sample_scanner offline file_builder first_call
                              initial_world)))
    as (w' & Hrun & Hlicense & _).
  - reflexivity.
  - left. simpl. lia.
  - left. reflexivity.
  - intros doc. split; [reflexivity|].
    intros f [<-|[<-|[<-|[]]]]; vm_compute; reflexivity.
  - repeat split.
  - destruct (Hlicense "foo") as (lines & Hget & Hin).
    + vm_compute. now left.
    + exists w', lines. split; [exact Hrun|]. split; [|split; assumption].
      replace w' with
        (world_after
           (@run sample_scanner offline file_builder later_call
              (world_after (@run sample_scanner offline file_builder first_call initial_world))))
        by (now rewrite Hrun).
      apply (proj1 (@diagnostics_accumulate sample_scanner offline file_builder)).
      vm_compute. now left.
Defined.

(** * Further properties of the code *)

(** ** The order of strings *)

Lemma ascii_compare_N (a b : ascii) :
  Ascii.compare a b = N.compare (N_of_ascii a) (N_of_ascii b).
Proof. reflexivity. Qed.

Lemma string_compare_cons (a b : ascii) (s t : string) :
  String.compare (String a s) (String b t)
  = match Ascii.compare a b with
    | Eq => String.compare s t
    | o => o
    end.
Proof. reflexivity. Qed.

Lemma string_compare_Lt_trans (s1 s2 s3 : string) :
  String.compare s1 s2 = Lt -> String.compare s2 s3 = Lt -> String.compare s1 s3 = Lt.
Proof.
  revert s2 s3. induction s1 as [|a s1 IH]; intros [|b s2] [|c s3]; simpl;
    try discriminate; auto.
  rewrite !ascii_compare_N.
  destruct (N.compare_spec (N_of_ascii a) (N_of_ascii b)) as [Hab|Hab|Hab];
    try discriminate;
    destruct (N.compare_spec (N_of_ascii b) (N_of_ascii c)) as [Hbc|Hbc|Hbc];
    try discriminate; intros H1 H2.
  - assert (E : N.compare (N_of_ascii a) (N_of_ascii c) = Eq)
      by (apply N.compare_eq_iff; congruence).
    rewrite E. eapply IH; eauto.
  - assert (E : N.compare (N_of_ascii a) (N_of_ascii c) = Lt)
      by (apply N.compare_lt_iff; lia).
    now rewrite E.
  - assert (E : N.compare (N_of_ascii a) (N_of_ascii c) = Lt)
      by (apply N.compare_lt_iff; lia).
    now rewrite E.
  - assert (E : N.compare (N_of_ascii a) (N_of_ascii c) = Lt)
      by (apply N.compare_lt_iff; lia).
    now rewrite E.
Qed.

Lemma string_leb_trans (s1 s2 s3 : string) :
  (s1 <=? s2) = true -> (s2 <=? s3) = true -> (s1 <=? s3) = true.
Proof.
  unfold String.leb.
  destruct (String.compare s1 s2) eqn:E12; try discriminate;
    destruct (String.compare s2 s3) eqn:E23; try discriminate; intros _ _.
  - apply String.compare_eq_iff in E12. subst s2. now rewrite E23.
  - apply String.compare_eq_iff in E12. subst s2. now rewrite E23.
  - apply String.compare_eq_iff in E23. subst s3. now rewrite E12.
  - now rewrite (string_compare_Lt_trans _ _ _ E12 E23).
Qed.

Lemma string_leb_refl (s : string) : (s <=? s) = true.
Proof. destruct (String.leb_total s s); assumption. Qed.

Lemma sorted_StronglySorted (l : list string) :
  StronglySorted (fun a b => (a <=? b) = true) (sorted l).
Proof.
  apply Sorted_StronglySorted; [|apply sorted_Sorted].
  intros a b c. apply string_leb_trans.
Qed.

(** Two sorted lists with the same elements are the same list. *)
Lemma StronglySorted_Permutation_eq (l l' : list string) :
  StronglySorted (fun a b => (a <=? b) = true) l ->
  StronglySorted (fun a b => (a <=? b) = true) l' ->
  Permutation l l' -> l = l'.
Proof.
  revert l'. induction l as [|a r IH]; intros l' Hl Hl' Hp.
  - now apply Permutation_nil in Hp.
  - destruct l' as [|b r']; [symmetry in Hp; now apply Permutation_nil in Hp|].
    inversion Hl as [|? ? Hr Ha]; subst. inversion Hl' as [|? ? Hr' Hb]; subst.
    assert (Hab : a = b).
    { assert (Hin_b : In b (a :: r)) by (eapply Permutation_in; [symmetry; exact Hp|now left]).
      assert (Hin_a : In a (b :: r')) by (eapply Permutation_in; [exact Hp|now left]).
      destruct Hin_b as [|Hin_b]; [assumption|].
      destruct Hin_a as [|Hin_a]; [congruence|].
      rewrite Forall_forall in Ha, Hb.
      apply String.leb_antisym; auto. }
    subst b. f_equal. apply IH; auto. eapply Permutation_cons_inv; eauto.
Qed.

Lemma sorted_Permutation (l l' : list string) :
  Permutation l l' -> sorted l = sorted l'.
Proof.
  intros Hp. apply StronglySorted_Permutation_eq; try apply sorted_StronglySorted.
  unfold sorted. rewrite !sorted_by_perm. exact Hp.
Qed.

(** ** The frequency table and the grouping do not depend on the order of
    the records *)

Lemma fold_set_ext {V} (f g : string -> V) (ks : list string) (d : dict V) :
  (forall x, f x = g x) ->
  fold_left (fun d x => set d x (f x)) ks d = fold_left (fun d x => set d x (g x)) ks d.
Proof.
  intros H. revert d. induction ks as [|k ks IH]; intros d; simpl; [reflexivity|].
  now rewrite H, IH.
Qed.

Lemma StronglySorted_snoc (l : list string) (x : string) :
  StronglySorted (fun a b => (a <=? b) = true) l ->
  (forall a, In a l -> (a <=? x) = true) ->
  StronglySorted (fun a b => (a <=? b) = true) (l ++ [x]).
Proof.
  induction l as [|a l IH]; intros Hs Hx; simpl.
  - repeat constructor.
  - inversion Hs as [|? ? Hl Ha]; subst. constructor.
    + apply IH; auto. intros b Hb. apply Hx. now right.
    + apply Forall_app. split; [exact Ha|]. constructor; [|constructor].
      apply Hx. now left.
Qed.

Lemma keys_fold_set_sorted {V} (f : string -> V) (ks : list string) (d : dict V) :
  StronglySorted (fun a b => (a <=? b) = true) (keys d) ->
  StronglySorted (fun a b => (a <=? b) = true) ks ->
  (forall a b, In a (keys d) -> In b ks -> (a <=? b) = true) ->
  StronglySorted (fun a b => (a <=? b) = true)
    (keys (fold_left (fun d x => set d x (f x)) ks d)).
Proof.
  revert d. induction ks as [|k ks IH]; intros d Hd Hks Hle; simpl; [exact Hd|].
  inversion Hks as [|? ? Hks' Hk]; subst. rewrite Forall_forall in Hk.
  apply IH; auto.
  - rewrite keys_set. destruct (contains d k); [exact Hd|].
    apply StronglySorted_snoc; [exact Hd|]. intros a Ha. apply Hle; [exact Ha|now left].
  - intros a b Ha Hb. apply In_keys_set in Ha. destruct Ha as [->|Ha].
    + now apply Hk.
    + apply Hle; [exact Ha|now right].
Qed.

Lemma find_least (P : string -> bool) (ks : list string) (t : string) :
  StronglySorted (fun a b => (a <=? b) = true) ks ->
  find P ks = Some t ->
  In t ks /\ P t = true /\ forall k, In k ks -> P k = true -> (t <=? k) = true.
Proof.
  induction ks as [|a ks IH]; intros Hs Hf; simpl in *; [discriminate|].
  inversion Hs as [|? ? Hks Ha]; subst. rewrite Forall_forall in Ha.
  destruct (P a) eqn:E.
  - inversion Hf; subst. split; [now left|]. split; [exact E|].
    intros k [<-|Hk] _; [apply string_leb_refl|now apply Ha].
  - destruct (IH Hks Hf) as (Hin & Ht & Hleast).
    split; [now right|]. split; [exact Ht|].
    intros k [<-|Hk] Hp; [congruence|now apply Hleast].
Qed.

Lemma find_some_exists (P : string -> bool) (ks : list string) (k : string) :
  In k ks -> P k = true -> exists t, find P ks = Some t.
Proof.
  induction ks as [|a ks IH]; simpl; [tauto|].
  intros Hin Hp. destruct (P a) eqn:E; [eauto|].
  destruct Hin as [->|Hin]; [congruence|auto].
Qed.

Section OrderFacts.
Context {license_info : LicenseScanner} {platform : Platform}.

Lemma build_freq_Permutation (l l' : list string) :
  Permutation l l' -> build_freq l = build_freq l'.
Proof.
  intros Hp. unfold build_freq. rewrite (sorted_Permutation l l' Hp).
  apply fold_set_ext. intros x. unfold count.
  now apply Permutation_count_occ.
Qed.

Lemma keys_build_freq_sorted (l : list string) :
  StronglySorted (fun a b => (a <=? b) = true) (keys (build_freq l)).
Proof.
  unfold build_freq. apply keys_fold_set_sorted.
  - constructor.
  - apply sorted_StronglySorted.
  - intros a b [].
Qed.

Lemma In_keys_build_freq (l : list string) (k : string) :
  In k (keys (build_freq l)) <-> In k l.
Proof.
  unfold build_freq. rewrite In_keys_fold_set, In_sorted. simpl. tauto.
Qed.

(** X1: the frequency table and the grouped map are the same for every
    order of the packages and files: what is collected is sorted before it
    is counted and grouped. *)
Theorem grouping_order_independent (debug : bool)
    (packages files packages' files' : list SbomRecord) (w w' : World) :
  Permutation (packages ++ files) (packages' ++ files') ->
  exists l l' w1 w1' by_id w2 w2',
    collect_licenses packages files w = Returns l w1
    /\ collect_licenses packages' files' w' = Returns l' w1'
    /\ build_freq l = build_freq l'
    /\ group_licenses debug (build_freq l) w1 = Returns by_id w2
    /\ group_licenses debug (build_freq l') w1' = Returns by_id w2'.
Proof.
  intros Hp.
  destruct (collect_licenses_returns packages files w) as [w1 H1].
  destruct (collect_licenses_returns packages' files' w') as [w1' H1'].
  assert (Hfreq : build_freq (flat_map licenses_of (packages ++ files))
                  = build_freq (flat_map licenses_of (packages' ++ files'))).
  { apply build_freq_Permutation. now apply Permutation_flat_map. }
  destruct (group_loop_value debug
              (keys (build_freq (flat_map licenses_of (packages ++ files)))) empty w1)
    as [msgs H2].
  destruct (group_loop_value debug
              (keys (build_freq (flat_map licenses_of (packages' ++ files')))) empty w1')
    as [msgs' H2'].
  eexists _, _, w1, w1', _, _, _.
  split; [exact H1|]. split; [exact H1'|]. split; [exact Hfreq|].
  split; [exact H2|]. unfold group_licenses. rewrite H2', Hfreq. reflexivity.
Qed.

(** X2: the text the grouping keeps for an id is one of the collected
    values, taken for a license text and resolving to the id, and it is the
    least of them in the order of strings; an id to which such a value
    resolves always has a text. *)
Theorem least_text_is_kept (debug : bool) (sbom_licenses : list string) (w : World) :
  exists by_id w',
    group_licenses debug (build_freq sbom_licenses) w = Returns by_id w'
    /\ (forall id t,
          stored_text by_id id = Some t ->
          In t sbom_licenses
          /\ is_license_text t = true
          /\ _find_license_id t w = Returns id w
          /\ forall k, In k sbom_licenses -> is_license_text k = true ->
                       _find_license_id k w = Returns id w -> (t <=? k) = true)
    /\ (forall id k,
          In k sbom_licenses -> is_license_text k = true ->
          _find_license_id k w = Returns id w ->
          exists t, stored_text by_id id = Some t).
Proof.
  destruct (group_licenses_returns debug (build_freq sbom_licenses) w)
    as (by_id & w' & Hrun & _ & _ & _ & Hfind).
  exists by_id, w'. split; [exact Hrun|]. split.
  - intros id t Ht. rewrite Hfind in Ht.
    destruct (find_least _ _ _ (keys_build_freq_sorted sbom_licenses) Ht)
      as (Hin & Hp & Hleast).
    apply andb_true_iff in Hp. destruct Hp as [Htext Hres].
    apply String.eqb_eq in Hres.
    split; [now apply In_keys_build_freq|]. split; [exact Htext|].
    split; [rewrite find_license_id_value; now rewrite Hres|].
    intros k Hk Hktext Hkres. apply Hleast; [now apply In_keys_build_freq|].
    rewrite find_license_id_value in Hkres. inversion Hkres as [Hid].
    now rewrite Hktext, String.eqb_refl.
  - intros id k Hk Hktext Hkres. rewrite Hfind.
    apply (find_some_exists _ _ k); [now apply In_keys_build_freq|].
    rewrite find_license_id_value in Hkres. inversion Hkres as [Hid].
    now rewrite Hktext, String.eqb_refl.
Qed.

Lemma In_keys_grouped (ks : list string) (d : dict LicenseEntry) (id : string) :
  In id (keys (grouped ks d))
  <-> In id (keys d) \/ exists k, In k ks /\ k <> "NOT KNOWN" /\ resolved_id k = id.
Proof.
  revert d. induction ks as [|k ks IH]; intros d; simpl.
  - split; [auto|]. intros [H|(k & [] & _)]. exact H.
  - rewrite IH. destruct (String.eqb_spec k "NOT KNOWN") as [->|Hk].
    + split.
      * intros [H|(k' & Hin & Hne & Hres)]; [now left|]. right. exists k'. auto.
      * intros [H|(k' & [<-|Hin] & Hne & Hres)]; [now left|now elim Hne|].
        right. exists k'. auto.
    + rewrite In_keys_set. split.
      * intros [[->|H]|(k' & Hin & Hne & Hres)].
        -- right. exists k. auto.
        -- now left.
        -- right. exists k'. auto.
      * intros [H|(k' & [<-|Hin] & Hne & Hres)].
        -- left. now right.
        -- left. left. now rewrite Hres.
        -- right. exists k'. auto.
Qed.

(** X3: the keys of the grouped map are exactly the ids the values of the
    frequency table, [NOT KNOWN] apart, resolve to. *)
Theorem grouped_keys_are_resolved_ids (debug : bool) (freq : dict nat) (w : World) :
  exists by_id w',
    group_licenses debug freq w = Returns by_id w'
    /\ forall id,
         In id (keys by_id)
         <-> exists k, In k (keys freq) /\ k <> "NOT KNOWN"
                       /\ _find_license_id k w = Returns id w.
Proof.
  unfold group_licenses.
  destruct (group_loop_value debug (keys freq) empty w) as [msgs H].
  eexists _, _. split; [exact H|]. intros id. rewrite In_keys_grouped. simpl.
  split.
  - intros [[]|(k & Hin & Hne & Hres)]. exists k. split; [exact Hin|].
    split; [exact Hne|]. rewrite find_license_id_value. now rewrite Hres.
  - intros (k & Hin & Hne & Hres). right. exists k. split; [exact Hin|].
    split; [exact Hne|]. rewrite find_license_id_value in Hres. now inversion Hres.
Qed.

End OrderFacts.

(** ** More on fetching license texts *)

Section FetchFacts.
Context {license_info : LicenseScanner} {platform : Platform}.

Lemma fetched_urls_filter (d : dict LicenseEntry) :
  flat_map (fun '(key, value) => fetched_urls key value) d
  = map (fun '(key, _) => "https://spdx.org/licenses/" ++ strip key ++ ".json")
      (filter (fun '(key, value) => negb (skip_lookup key value)) d).
Proof.
  induction d as [|[key value] r IH]; simpl; [reflexivity|].
  unfold fetched_urls at 1. destruct (skip_lookup key value); simpl; now rewrite IH.
Qed.

(** X4: when every lookup is answered with a JSON object or a
    [RequestException], [fetch_license_texts] returns; it keeps the keys,
    their order and the ids of the entries, leaves the diagnostic dicts and
    the files alone, and requests one URL for each entry it does not pass
    over, in the order of the map, and nothing else.  An entry it passes over
    (it has a text already, or its key is [NOASSERTION], too long, an
    expression, with a space, or a URL) is left as it is. *)
Theorem fetch_requests_only_open_entries (debug : bool) (add : option (dict string))
    (by_id : dict LicenseEntry) (w : World) :
  lookups_answered by_id ->
  exists by_id' w',
    fetch_license_texts debug add by_id w = Returns by_id' w'
    /\ keys by_id' = keys by_id
    /\ map entry_id (values by_id') = map entry_id (values by_id)
    /\ same_diagnostics w w'
    /\ filesystem w' = filesystem w
    /\ requested w'
       = (requested w
          ++ map (fun '(key, _) =>
                    ("https://spdx.org/licenses/" ++ strip key ++ ".json")%string)
               (filter (fun '(key, value) => negb (skip_lookup key value)) by_id))%list
    /\ forall key value,
         In (key, value) by_id -> skip_lookup key value = true ->
         In (key, value) by_id'.
Proof.
  intros Hans.
  destruct (fetch_license_texts_value debug add by_id w Hans)
    as (w' & Hrun & Hdiag & Hfs & Hreq & _).
  eexists _, w'. split; [exact Hrun|].
  split; [apply keys_map_values|]. split.
  { unfold values. rewrite !map_map. apply map_ext. intros [key value]. simpl.
    apply fetched_entry_id. }
  split; [exact Hdiag|]. split; [exact Hfs|]. split.
  { now rewrite Hreq, fetched_urls_filter. }
  intros key value Hin Hskip. apply in_map_iff. exists (key, value).
  split; [|exact Hin]. unfold fetched_entry. now rewrite Hskip.
Qed.

(** X5: for an entry that is looked up, a [licenseText] in the answer of
    SPDX becomes the text of the entry, whatever the table of additional
    texts holds for the id (every lookup of the loop being answered with a
    JSON object or a [RequestException], so that the loop returns). *)
Theorem spdx_text_wins (debug : bool) (add : option (dict string))
    (by_id : dict LicenseEntry) (key : string) (value : LicenseEntry) (t : string)
    (w : World) :
  lookups_answered by_id ->
  In (key, value) by_id ->
  skip_lookup key value = false ->
  spdx_response ("https://spdx.org/licenses/" ++ strip key ++ ".json") = Json (Some t) ->
  exists by_id' w',
    fetch_license_texts debug add by_id w = Returns by_id' w'
    /\ In (key, {| entry_id := entry_id value; license_text := Some t |}) by_id'.
Proof.
  intros Hans Hin Hskip Hresp.
  destruct (fetch_license_texts_value debug add by_id w Hans) as (w' & Hrun & _).
  eexists _, w'. split; [exact Hrun|].
  apply in_map_iff. exists (key, value). split; [|exact Hin].
  unfold fetched_entry, license_url. now rewrite Hskip, Hresp.
Qed.

(** X26: the enrichment stops at the first entry whose lookup raises
    something else than a [RequestException]: an answer that is JSON but no
    object gives [AttributeError] at line 258, and any other exception of
    [requests.get(...).json()] goes through as it is.  The entries after it
    are not requested, and the diagnostic dicts and the files are as they
    were. *)
Theorem lookup_error_stops_enrichment (debug : bool) (add : option (dict string))
    (d1 d2 : dict LicenseEntry) (key : string) (value : LicenseEntry) (e : Exn)
    (w : World) :
  lookups_answered d1 ->
  skip_lookup key value = false ->
  (spdx_response ("https://spdx.org/licenses/" ++ strip key ++ ".json") = JsonOther
   /\ e = AttributeError)
  \/ (spdx_response ("https://spdx.org/licenses/" ++ strip key ++ ".json") = Crashed e
      /\ e <> RequestException) ->
  exists w',
    fetch_license_texts debug add (d1 ++ (key, value) :: d2)%list w = Raises e w'
    /\ same_diagnostics w w'
    /\ filesystem w' = filesystem w
    /\ requested w'
       = (requested w
          ++ map (fun '(key, _) =>
                    ("https://spdx.org/licenses/" ++ strip key ++ ".json")%string)
               (filter (fun '(key, value) => negb (skip_lookup key value)) d1)
          ++ [("https://spdx.org/licenses/" ++ strip key ++ ".json")%string])%list.
Proof.
  intros Hans Hskip Hbad.
  destruct (fetch_license_texts_raises debug add d1 d2 key value e w Hans Hskip Hbad)
    as (w' & Hrun & Hdiag & Hfs & Hreq & _).
  exists w'. split; [exact Hrun|]. split; [exact Hdiag|]. split; [exact Hfs|].
  now rewrite Hreq, fetched_urls_filter.
Qed.

End FetchFacts.

(** ** What a call leaves alone *)

Section Keeps.
Variable I : World -> World -> Prop.
Hypothesis I_refl : forall w, I w w.
Hypothesis I_trans : forall w1 w2 w3, I w1 w2 -> I w2 w3 -> I w1 w3.

Lemma keeps_ret {A} (a : A) : keeps I (ret a).
Proof. intros w. apply I_refl. Qed.

Lemma keeps_raise {A} (e : Exn) : keeps I (@raise A e).
Proof. intros w. apply I_refl. Qed.

Lemma keeps_gets {A} (f : World -> A) : keeps I (gets f).
Proof. intros w. apply I_refl. Qed.

Lemma keeps_bind {A B} (m : M A) (f : A -> M B) :
  keeps I m -> (forall a, keeps I (f a)) -> keeps I (bind m f).
Proof.
  intros Hm Hf w. specialize (Hm w). unfold bind.
  destruct (m w) as [a w1|e w1]; simpl in *; [|exact Hm].
  eapply I_trans; [exact Hm|apply Hf].
Qed.

Lemma keeps_when (b : bool) (m : M unit) : keeps I m -> keeps I (when b m).
Proof. destruct b; [auto|intros _; apply keeps_ret]. Qed.

Lemma keeps_getitem {V} (d : dict V) (k : string) : keeps I (getitem d k).
Proof. unfold getitem. destruct (get d k); [apply keeps_ret|apply keeps_raise]. Qed.

Lemma keeps_for_each {A S} (l : list A) (body : S -> A -> M S) (acc : S) :
  (forall acc x, keeps I (body acc x)) -> keeps I (for_each l body acc).
Proof.
  intros Hb. revert acc. induction l as [|x l IH]; intros acc; simpl.
  - apply keeps_ret.
  - apply keeps_bind; [apply Hb|intros acc'; apply IH].
Qed.

Lemma keeps_for_items {V} (d : dict V) (body : string -> V -> M V) :
  (forall key value, keeps I (body key value)) -> keeps I (for_items d body).
Proof.
  intros Hb. induction d as [|[key value] r IH]; simpl.
  - apply keeps_ret.
  - apply keeps_bind; [apply Hb|intros v'].
    apply keeps_bind; [exact IH|intros r']. apply keeps_ret.
Qed.

Lemma keeps_try_except {A} (body : M A) (exc : Exn -> bool) (handler : M A) :
  keeps I body -> keeps I handler -> keeps I (try_except body exc handler).
Proof.
  intros Hb Hh w. specialize (Hb w). unfold try_except.
  destruct (body w) as [a w1|e w1]; simpl in *; [exact Hb|].
  destruct (exc e); [|exact Hb]. eapply I_trans; [exact Hb|apply Hh].
Qed.

Lemma keeps_ensure_len (text : option string) (max_len : Z) :
  keeps I (_ensure_len text max_len).
Proof.
  unfold _ensure_len. destruct (max_len <? 3)%Z; [apply keeps_raise|].
  destruct text as [text|]; [|apply keeps_ret].
  destruct (max_len <? _)%Z; apply keeps_ret.
Qed.

End Keeps.

(** One step through code made of the pieces above; [prim] closes the
    primitive actions. *)
Ltac keeps_step prim :=
  first
    [ apply keeps_ret; assumption
    | apply keeps_raise; assumption
    | apply keeps_gets; assumption
    | apply keeps_getitem; assumption
    | apply keeps_ensure_len; assumption
    | solve [prim]
    | apply keeps_bind; [assumption| |intros ?]
    | apply keeps_when; [assumption|]
    | apply keeps_for_each; [assumption|assumption|intros ? ?]
    | apply keeps_for_items; [assumption|assumption|intros ? ?]
    | apply keeps_try_except; [assumption| |]
    | match goal with
      | |- keeps _ (if ?b then _ else _) => destruct b
      | |- keeps _ (match ?x with _ => _ end) => destruct x
      | |- keeps _ ((let '(_, _) := ?p in _) _) => destruct p
      end ].

Lemma no_lookup_refl (w : World) : no_lookup w w.
Proof. split; reflexivity. Qed.

Lemma no_lookup_trans (w1 w2 w3 : World) :
  no_lookup w1 w2 -> no_lookup w2 w3 -> no_lookup w1 w3.
Proof. intros [A1 A2] [B1 B2]. split; congruence. Qed.

Lemma no_lookup_print (m : Msg) : keeps no_lookup (print m).
Proof. intros w. split; reflexivity. Qed.

Lemma no_lookup_set_license_info_missing (name : string) :
  keeps no_lookup (set_license_info_missing name).
Proof. intros w. split; reflexivity. Qed.

Lemma no_lookup_set_copyright_info_missing (name : string) :
  keeps no_lookup (set_copyright_info_missing name).
Proof. intros w. split; reflexivity. Qed.

Section LookupFacts.
Context {license_info : LicenseScanner} {platform : Platform}.

(** X6: without the include-license flag, building the document requests
    nothing from SPDX and adds nothing to [unknown_license_text_id_list],
    whether it returns or raises. *)
Theorem no_lookup_without_include_license (packages files : list SbomRecord)
    (debug : bool) (add : option (dict string)) (w : World) :
  requested (world_after (build_document packages files false debug add w))
  = requested w
  /\ unknown_license_text_id_list
       (world_after (build_document packages files false debug add w))
     = unknown_license_text_id_list w.
Proof.
  pose proof no_lookup_refl as Hrefl. pose proof no_lookup_trans as Htrans.
  assert (H : keeps no_lookup (build_document packages files false debug add)).
  { unfold build_document, collect_licenses, print_license_information,
      group_licenses, group_license, package_information, component_type_summary,
      _get_licenses, concluded_license, _get_copyright, _find_license_id.
    cbv beta iota.
    repeat keeps_step ltac:(first [ apply no_lookup_print
                                  | apply no_lookup_set_license_info_missing
                                  | apply no_lookup_set_copyright_info_missing ]). }
  exact (H w).
Qed.

End LookupFacts.

Lemma files_kept_refl (now : string) (w : World) : files_kept now w w.
Proof. split; auto. Qed.

Lemma files_kept_trans (now : string) (w1 w2 w3 : World) :
  files_kept now w1 w2 -> files_kept now w2 w3 -> files_kept now w1 w3.
Proof.
  intros [A1 A2] [B1 B2]. split; [auto|].
  intros f Hf. destruct (B2 f Hf) as [H|H]; auto.
Qed.

Lemma files_kept_same (now : string) (w w' : World) :
  filesystem w' = filesystem w -> files_kept now w w'.
Proof. intros H. unfold files_kept. rewrite H. split; auto. Qed.

Lemma files_kept_print (now : string) (m : Msg) : keeps (files_kept now) (print m).
Proof. intros w. now apply files_kept_same. Qed.

Lemma files_kept_write_new_file (now fname : string) (lines : list string) :
  In fname [missing_license_info_filename now;
            missing_copyright_info_filename now;
            unknown_license_text_filename now] ->
  keeps (files_kept now) (write_new_file fname lines).
Proof.
  intros Hname w. unfold write_new_file.
  destruct (contains (filesystem w) fname) eqn:E; simpl.
  - apply files_kept_refl.
  - split; simpl.
    + intros f lines' Hget. rewrite get_set_other; [exact Hget|].
      intros ->. unfold contains in E. now rewrite Hget in E.
    + intros f Hf. destruct (String.eqb_spec fname f) as [<-|Hne]; [now right|].
      left. now rewrite contains_set_other in Hf.
Qed.

Section FileFacts.
Context {license_info : LicenseScanner} {platform : Platform} {builder : DocBuilder}.

Lemma write_diagnostics_files_kept (now : string) :
  keeps (files_kept now) (write_diagnostics now).
Proof.
  pose proof (files_kept_refl now) as Hrefl.
  pose proof (files_kept_trans now) as Htrans.
  unfold write_diagnostics.
  fold (missing_license_info_filename now) (missing_copyright_info_filename now)
    (unknown_license_text_filename now).
  repeat keeps_step ltac:(first [ apply files_kept_print
                                | apply files_kept_write_new_file; simpl; tauto ]).
Qed.

Lemma build_document_filesystem (packages files : list SbomRecord)
    (include_license debug : bool) (add : option (dict string)) (w : World) :
  filesystem (world_after (build_document packages files include_license debug add w))
  = filesystem w.
Proof.
  destruct (steady_build_document packages files include_license debug add)
    as (o & added & H).
  destruct (H w) as (w1 & Hrun & _ & Hfs). rewrite Hrun. now destruct o.
Qed.



Lemma component_type_summary_raises (packages : list SbomRecord) (w : World) :
  2 <= List.length packages ->
  (exists package, In package packages /\ sbom_type package = None) ->
  component_type_summary (map sbom_type packages) w = Raises TypeError w.
Proof.
  intros Hlen (p & Hin & Hnone). unfold component_type_summary.
  rewrite length_map.
  destruct (Nat.leb_spec 2 (List.length packages)); [|lia].
  replace (existsb _ (map sbom_type packages)) with true; [reflexivity|].
  symmetry. apply existsb_exists. exists None. split; [|reflexivity].
  rewrite <- Hnone. now apply in_map.
Qed.

Lemma build_document_outcome (packages files : list SbomRecord)
    (include_license debug : bool) (add : option (dict string)) (w : World) :
  enrichment_answered include_license ->
  exists r w',
    build_document packages files include_license debug add w
    = bind (component_type_summary (map sbom_type packages)) (fun _ => ret r) w'.
Proof.
  intros Hans. unfold build_document.
  destruct (collect_licenses_returns packages files w) as [w1 H1].
  rewrite (bind_Returns _ _ _ _ _ H1).
  set (freq := build_freq _).
  assert (H2 : exists w2, when debug (print_license_information freq) w1 = Returns tt w2).
  { destruct debug; simpl; [apply print_license_information_returns|now exists w1]. }
  destruct H2 as [w2 H2]. rewrite (bind_Returns _ _ _ _ _ H2).
  destruct (group_licenses_returns debug freq w2) as (by_id & w3 & H3 & _).
  rewrite (bind_Returns _ _ _ _ _ H3).
  destruct (enrichment_returns include_license debug add by_id w3 Hans)
    as (by_id' & w4 & H4 & _).
  rewrite (bind_Returns _ _ _ _ _ H4).
  destruct (package_information_returns packages w4) as (supps & w5 & H5).
  rewrite (bind_Returns _ _ _ _ _ H5).
  assert (H6 : exists w6, when include_license (license_texts_section by_id') w5
                          = Returns tt w6).
  { destruct include_license; simpl.
    - destruct (license_texts_section_value by_id' w5) as (w6 & H6 & _).
      now exists w6.
    - now exists w5. }
  destruct H6 as [w6 H6]. rewrite (bind_Returns _ _ _ _ _ H6).
  eexists _, w6. reflexivity.
Qed.

(** X8: with two or more packages of which one has no [type], a call
    whose enrichment does not raise (there is none, or SPDX answers with
    JSON objects or [RequestException]s) raises [TypeError] when it comes to
    the summary of the component types: the document is not published and no
    diagnostics file is written, with [debug] or without. *)
Theorem untyped_package_raises (c : Call) (w : World) :
  2 <= List.length (call_packages c) ->
  (exists package, In package (call_packages c) /\ sbom_type package = None) ->
  enrichment_answered (call_include_license c) ->
  exists w',
    run c w = Raises TypeError w'
    /\ filesystem w' = filesystem w.
Proof.
  intros Hlen Hnone Hans.
  destruct (build_document_outcome (call_packages c) (call_files c)
              (call_include_license c) (call_debug c)
              (call_additional_license_texts c) w Hans) as (r & w1 & Hrun).
  rewrite (bind_Raises _ _ _ _ _
             (component_type_summary_raises (call_packages c) w1 Hlen Hnone)) in Hrun.
  exists w1. split.
  - exact (run_Raises c w w1 TypeError Hrun).
  - pose proof (build_document_filesystem (call_packages c) (call_files c)
                  (call_include_license c) (call_debug c)
                  (call_additional_license_texts c) w) as Hfs.
    now rewrite Hrun in Hfs.
Qed.

(** X9: a call with [debug] that finds the CSV file for the missing licenses
    already there (a second call within the same second), while a package is
    recorded as missing a license, raises [FileExistsError] for that name
    when it gets as far as the diagnostics (the enrichment and the summary
    do not raise, [publish] returns and leaves the three names alone); no
    CSV file is written: the files are as [publish] left them. *)
Theorem second_csv_in_same_second_raises (c : Call) (w : World) (k : string) :
  call_debug c = true ->
  components_sortable (call_packages c) ->
  enrichment_answered (call_include_license c) ->
  publish_returns c w ->
  In k (keys (license_info_missing_package_id_list w)) ->
  contains (filesystem w) (missing_license_info_filename (call_now c)) = true ->
  exists w' doc,
    run c w = Raises (FileExistsError (missing_license_info_filename (call_now c))) w'
    /\ filesystem w'
       = published_files (publish (call_format c) (call_outfile c) doc (filesystem w)).
Proof.
  intros Hdebug Hsort Hans Hpub Hin Hthere.
  destruct (steady_build_document (call_packages c) (call_files c)
              (call_include_license c) (call_debug c)
              (call_additional_license_texts c)) as (o & added & H).
  destruct (H w) as (w1 & Hrun & Hgrows & Hfs).
  destruct (build_document_returns (call_packages c) (call_files c)
              (call_include_license c) (call_debug c)
              (call_additional_license_texts c) w Hsort Hans) as (r & w1' & Hret).
  rewrite Hret in Hrun. destruct o as [r'|e]; [|discriminate Hrun].
  inversion Hrun; subst r' w1'. clear Hrun. destruct r as [freq by_id].
  set (doc := {| doc_filename := call_filename c;
                 doc_packages := call_packages c;
                 doc_files := call_files c;
                 doc_include_license := call_include_license c;
                 doc_licenses_by_id := by_id |}).
  destruct (publish_document_value (call_format c) (call_outfile c) doc w1)
    as (w2 & Hp & S2 & _ & _ & F2).
  rewrite Hfs in Hp, F2. destruct (Hpub doc) as [Hnone Hleft]. rewrite Hnone in Hp.
  assert (Hin2 : In k (keys (license_info_missing_package_id_list w2))).
  { destruct S2 as (_ & _ & ->). apply (Hgrows MissingLicenseInfo). now left. }
  assert (Hthere2 : contains (filesystem w2)
                      (missing_license_info_filename (call_now c)) = true).
  { unfold contains in *. rewrite F2, Hleft by (simpl; tauto). exact Hthere. }
  exists (printed w2 [Writing (missing_license_info_filename (call_now c))]), doc.
  split; [|exact F2].
  rewrite (run_Returns c w w1 freq by_id Hret). fold doc.
  rewrite (bind_Returns _ _ _ _ _ Hp), Hdebug.
  simpl when. unfold write_diagnostics.
  fold (missing_license_info_filename (call_now c)).
  unfold bind at 1. unfold gets at 1.
  destruct (license_info_missing_package_id_list w2) as [|x ids] eqn:E; [destruct Hin2|].
  unfold bind at 1. simpl when. unfold bind at 1. rewrite print_printed.
  unfold write_new_file. simpl filesystem. rewrite Hthere2. reflexivity.
Qed.

End FileFacts.

Lemma grouping_order_independent_witness :
  exists l l' w1 w1' by_id w2 w2',
    collect_licenses [package_apache_url; package_gpl] [package_house] initial_world
    = Returns l w1
    /\ collect_licenses [package_house; package_gpl] [package_apache_url] initial_world
       = Returns l' w1'
    /\ build_freq l = build_freq l'
    /\ @group_licenses sample_scanner false (build_freq l) w1 = Returns by_id w2
    /\ @group_licenses sample_scanner false (build_freq l') w1' = Returns by_id w2'.
Proof.
  apply (@grouping_order_independent sample_scanner false
           [package_apache_url; package_gpl] [package_house]
           [package_house; package_gpl] [package_apache_url]
           initial_world initial_world).
  simpl. apply Permutation_sym.
  apply (perm_trans (l' := [package_gpl; package_house; package_apache_url])).
  - apply perm_swap.
  - apply (perm_trans (l' := [package_gpl; package_apache_url; package_house])).
    + apply perm_skip. apply perm_swap.
    + apply perm_swap.
Defined.

Lemma least_text_is_kept_witness :
  exists by_id w' t,
    @group_licenses text_scanner false (build_freq [mit_text_two; mit_text_one])
      initial_world = Returns by_id w'
    /\ stored_text by_id "MIT" = Some t
    /\ (t <=? mit_text_one) = true.
Proof.
  destruct (@least_text_is_kept text_scanner false [mit_text_two; mit_text_one]
              initial_world) as (by_id & w' & Hrun & Hleast & Hsome).
  destruct (Hsome "MIT" mit_text_one) as [t Ht].
  - simpl. auto.
  - vm_compute. reflexivity.
  - vm_compute. reflexivity.
  - exists by_id, w', t. split; [exact Hrun|]. split; [exact Ht|].
    destruct (Hleast "MIT" t Ht) as (_ & _ & _ & Hle).
    apply Hle.
    + simpl. auto.
    + vm_compute. reflexivity.
    + vm_compute. reflexivity.
Defined.

(** ** The time stamp of the CSV files (lines 367-368) *)

Lemma char_in_remove_char (c : ascii) (s : string) :
  char_in c (remove_char c s) = false.
Proof.
  induction s as [|a s IH]; simpl; [reflexivity|].
  destruct (Ascii.eqb a c) eqn:E; [exact IH|]. simpl. now rewrite E.
Qed.

Lemma char_in_substring0 (c : ascii) (m : nat) (s : string) :
  char_in c s = false -> char_in c (substring 0 m s) = false.
Proof.
  revert m. induction s as [|a s IH]; intros [|m]; simpl; auto.
  intros H. apply orb_false_elim in H. destruct H as [Ha Hs].
  now rewrite Ha, IH.
Qed.

Lemma find_char_range (c : ascii) (s : string) :
  (-1 <= find_char c s < Z.of_nat (String.length s))%Z.
Proof.
  induction s as [|a s IH]; simpl String.length; simpl find_char; [lia|].
  destruct (Ascii.eqb a c); [lia|].
  destruct (Z.ltb_spec (find_char c s) 0); lia.
Qed.

Lemma find_char_none (c : ascii) (s : string) :
  char_in c s = false <-> find_char c s = (-1)%Z.
Proof.
  induction s as [|a s IH]; simpl; [tauto|].
  destruct (Ascii.eqb a c); simpl; [split; [discriminate|lia]|].
  rewrite IH. pose proof (find_char_range c s).
  destruct (Z.ltb_spec (find_char c s) 0); split; intros; lia.
Qed.

(** [s] is cut in front of its first [c]. *)
Lemma find_char_split (c : ascii) (s : string) :
  char_in c s = true ->
  exists rest,
    s = substring 0 (Z.to_nat (find_char c s)) s ++ String c rest
    /\ char_in c (substring 0 (Z.to_nat (find_char c s)) s) = false
    /\ (0 <= find_char c s)%Z.
Proof.
  induction s as [|a s IH]; simpl; [discriminate|].
  destruct (Ascii.eqb_spec a c) as [->|Hne]; simpl.
  - intros _. exists s. repeat split. lia.
  - intros Hin. destruct (IH Hin) as (rest & Hs & Hnot & Hpos).
    destruct (Z.ltb_spec (find_char c s) 0); [lia|].
    exists rest. replace (Z.to_nat (find_char c s + 1)) with (S (Z.to_nat (find_char c s)))
      by lia.
    simpl. rewrite <- Hs. split; [reflexivity|]. split; [|lia].
    destruct (Ascii.eqb_spec a c); [contradiction|]. exact Hnot.
Qed.

(** X10: the time stamp in the names of the CSV files has no colon.  When
    the ISO time has a fraction of a second, the stamp is what stands before
    the dot, colons dropped; when it has none (the microseconds are 0), the
    stamp is the time without colons and without its last character. *)
Theorem csv_timestamp_spec (now : string) :
  char_in ":"%char (csv_timestamp now) = false
  /\ (char_in "."%char now = true ->
      char_in "."%char (csv_timestamp now) = false
      /\ exists rest,
           remove_char ":"%char now = csv_timestamp now ++ String "."%char rest)
  /\ (char_in "."%char now = false ->
      csv_timestamp now
      = substring 0 (String.length (remove_char ":"%char now) - 1)
          (remove_char ":"%char now)).
Proof.
  unfold csv_timestamp. set (t := remove_char ":"%char now).
  assert (Hdot : char_in "."%char t = char_in "."%char now).
  { subst t. induction now as [|a s IH]; simpl; [reflexivity|].
    destruct (Ascii.eqb_spec a ":"%char) as [->|Hne]; simpl; [exact IH|].
    now rewrite IH. }
  split; [|split].
  - unfold slice_to. apply char_in_substring0. apply char_in_remove_char.
  - intros Hin. rewrite <- Hdot in Hin.
    destruct (find_char_split "."%char t Hin) as (rest & Hs & Hnot & Hpos).
    rewrite slice_to_prefix by exact Hpos. split; [exact Hnot|].
    exists rest. exact Hs.
  - intros Hnot. rewrite <- Hdot in Hnot. apply find_char_none in Hnot.
    rewrite Hnot. unfold slice_to. change (-1 <? 0)%Z with true. cbv iota.
    replace (Z.to_nat (Z.max 0 (Z.of_nat (String.length t) + -1)))
      with (String.length t - 1) by lia.
    reflexivity.
Qed.

Lemma csv_timestamp_spec_witness :
  (char_in "."%char (csv_timestamp "2026-11-04T09:43:00.123456") = false
   /\ exists rest,
        remove_char ":"%char "2026-11-04T09:43:00.123456"
        = csv_timestamp "2026-11-04T09:43:00.123456" ++ String "."%char rest)
  /\ csv_timestamp "2026-11-04T09:43:00"
     = substring 0 (String.length (remove_char ":"%char "2026-11-04T09:43:00") - 1)
         (remove_char ":"%char "2026-11-04T09:43:00").
Proof.
  split.
  - apply (proj1 (proj2 (csv_timestamp_spec "2026-11-04T09:43:00.123456"))).
    reflexivity.
  - apply (proj2 (proj2 (csv_timestamp_spec "2026-11-04T09:43:00"))).
    reflexivity.
Defined.

(** ** More on the helpers *)

Lemma shortened_length (text : string) (n : Z) :
  (3 <= n)%Z -> (Z.of_nat (String.length (shortened text n)) <= n)%Z.
Proof.
  intros Hn. unfold shortened.
  destruct (Z.ltb_spec n (Z.of_nat (String.length text))); [|lia].
  rewrite length_append, length_slice_to by lia. simpl. lia.
Qed.

(** X11: truncating twice to the same length is truncating once: what
    [_ensure_len] returns for a string goes through it unchanged. *)
Theorem ensure_len_idempotent (text : string) (n : Z) (w : World) :
  (3 <= n)%Z ->
  (r <- _ensure_len (Some text) n ;; _ensure_len r n) w
  = _ensure_len (Some text) n w.
Proof.
  intros Hn. rewrite (bind_Returns _ _ _ _ _ (ensure_len_value text n w Hn)).
  rewrite !ensure_len_value by exact Hn. do 2 f_equal.
  pose proof (shortened_length text n Hn) as Hlen.
  unfold shortened at 1.
  destruct (Z.ltb_spec n (Z.of_nat (String.length (shortened text n)))); [lia|].
  reflexivity.
Qed.

Lemma ensure_len_idempotent_witness :
  (r <- _ensure_len (Some "Apache-2.0 license") 10 ;; _ensure_len r 10) initial_world
  = _ensure_len (Some "Apache-2.0 license") 10 initial_world.
Proof. apply ensure_len_idempotent. lia. Defined.

Lemma license_list_simple_flat_map (license_list : list (option LicenseObject)) :
  license_list_simple license_list = flat_map listed_license license_list.
Proof.
  unfold license_list_simple.
  assert (H : forall acc,
             fold_left
               (fun acc l =>
                  match l with
                  | None => acc
                  | Some license =>
                      match lic_id license, lic_name license, lic_text license with
                      | Some id, _, _ => (acc ++ [id])%list
                      | None, Some name, _ => (acc ++ [name])%list
                      | None, None, Some text => (acc ++ [text])%list
                      | None, None, None => acc
                      end
                  end) license_list acc
             = (acc ++ flat_map listed_license license_list)%list).
  { induction license_list as [|l r IH]; intros acc; simpl.
    - now rewrite app_nil_r.
    - rewrite IH. destruct l as [license|]; simpl; [|reflexivity].
      destruct (lic_id license); [now rewrite <- app_assoc|].
      destruct (lic_name license); [now rewrite <- app_assoc|].
      destruct (lic_text license); [now rewrite <- app_assoc|reflexivity]. }
  apply (H []).
Qed.

(** X12: [_get_licenses] returns for every record, and never an empty
    list.  Each entry of [licenselist] gives at most one value, in the order
    of the list: its [id], or without an [id] its [name], or without both its
    [text]; only when that gives nothing is [licenseconcluded] (or [NOT
    KNOWN]) returned.  The world changes only when the result is
    [["NOT KNOWN"]]. *)
Theorem get_licenses_nonempty (o : SbomRecord) (w : World) :
  exists licenses w',
    _get_licenses o w = Returns licenses w'
    /\ licenses <> []
    /\ licenses
       = match sbom_licenselist o with
         | Some license_list =>
             match flat_map listed_license license_list with
             | [] => [get_default (sbom_licenseconcluded o) "NOT KNOWN"]
             | listed => listed
             end
         | None => [get_default (sbom_licenseconcluded o) "NOT KNOWN"]
         end
    /\ (licenses <> ["NOT KNOWN"] -> w' = w).
Proof.
  assert (Hc : forall name,
             exists w',
               concluded_license o name w
               = Returns [get_default (sbom_licenseconcluded o) "NOT KNOWN"] w'
               /\ ([get_default (sbom_licenseconcluded o) "NOT KNOWN"] <> ["NOT KNOWN"]
                   -> w' = w)).
  { intros name. unfold concluded_license.
    destruct (String.eqb_spec (get_default (sbom_licenseconcluded o) "NOT KNOWN")
                "NOT KNOWN") as [E|E].
    - eexists. split; [reflexivity|]. intros H. elim H. now rewrite E.
    - exists w. split; [reflexivity|auto]. }
  unfold _get_licenses.
  destruct (sbom_licenselist o) as [license_list|].
  - rewrite license_list_simple_flat_map.
    destruct license_list as [|l r].
    + simpl. destruct (Hc (get_default (sbom_name o) "(package name missing)"))
        as (w' & Hrun & Hw).
      eexists _, w'. split; [exact Hrun|]. split; [discriminate|]. split; [reflexivity|exact Hw].
    + cbn [List.length Nat.ltb Nat.leb].
      destruct (flat_map listed_license (l :: r)) as [|x listed] eqn:E.
      * simpl. destruct (Hc (get_default (sbom_name o) "(package name missing)"))
          as (w' & Hrun & Hw).
        eexists _, w'. split; [exact Hrun|]. split; [discriminate|].
        split; [reflexivity|exact Hw].
      * simpl. eexists _, w. split; [reflexivity|]. split; [discriminate|]. auto.
  - destruct (Hc (get_default (sbom_name o) "(package name missing)"))
      as (w' & Hrun & Hw).
    eexists _, w'. split; [exact Hrun|]. split; [discriminate|]. split; [reflexivity|exact Hw].
Qed.

Example get_licenses_listed_example :
  licenses_of package_listed = ["MIT License"; "MIT"].
Proof. reflexivity. Qed.

(** ** More on the synonym table and the resolver *)

Lemma get_fold_set_const (id value : string) (v : list string) (rev : dict string) :
  get (fold_left (fun rev kk => set rev kk id) v rev) value
  = if in_dec string_dec value v then Some id else get rev value.
Proof. apply (get_fold_set (fun _ => id)). Qed.

Lemma find_append {A} (f : A -> bool) (l l' : list A) :
  find f (l ++ l') = match find f l with Some x => Some x | None => find f l' end.
Proof.
  induction l as [|x l IH]; simpl; [reflexivity|]. now destruct (f x).
Qed.

Lemma reverse_syns_step (syns : dict (list string)) (rev : dict string) (value : string) :
  get (fold_left
         (fun rev '(k, v) => fold_left (fun rev kk => set rev kk k) v rev)
         syns rev) value
  = match find (fun '(k, v) => if in_dec string_dec value v then true else false)
                 (List.rev syns) with
    | Some (k, _) => Some k
    | None => get rev value
    end.
Proof.
  revert rev. induction syns as [|[k v] syns IH]; intros rev; simpl; [reflexivity|].
  rewrite IH, find_append.
  destruct (find _ (List.rev syns)) as [[k' v']|]; [reflexivity|].
  simpl. rewrite get_fold_set_const. now destruct (in_dec string_dec value v).
Qed.

Lemma reverse_syns_origin (syns : dict (list string)) (value id : string) :
  get (reverse_syns syns) value = Some id ->
  exists v, In (id, v) syns /\ In value v.
Proof.
  unfold reverse_syns, items. rewrite reverse_syns_step.
  destruct (find _ (List.rev syns)) as [[k v]|] eqn:E; [|discriminate].
  intros Hid. inversion Hid; subst k. apply find_some in E. destruct E as [Hin Hv].
  exists v. split; [now apply in_rev|].
  now destruct (in_dec string_dec value v).
Qed.

(** X13: the loop that turns a table of synonyms around gives, for a
    string, the id of the LAST entry of the table that lists it, and nothing
    for a string that no entry lists; the table of the module is turned
    around by it. *)
Theorem reverse_syns_last_wins (syns : dict (list string)) (value : string) :
  license_syns_reverse = reverse_syns license_syns
  /\ get (reverse_syns syns) value
     = match find (fun '(k, v) => if in_dec string_dec value v then true else false)
                    (List.rev syns) with
       | Some (k, _) => Some k
       | None => None
       end
  /\ (forall id, get (reverse_syns syns) value = Some id ->
                 exists v, In (id, v) syns /\ In value v)
  /\ ((forall id v, In (id, v) syns -> ~ In value v) ->
      get (reverse_syns syns) value = None).
Proof.
  assert (Hget : get (reverse_syns syns) value
                 = match find (fun '(k, v) =>
                                 if in_dec string_dec value v then true else false)
                              (List.rev syns) with
                   | Some (k, _) => Some k
                   | None => None
                   end).
  { unfold reverse_syns, items. now rewrite reverse_syns_step. }
  split; [reflexivity|]. split; [exact Hget|]. split.
  - intros id Hid. rewrite Hget in Hid.
    destruct (find _ (List.rev syns)) as [[k v]|] eqn:E; [|discriminate].
    inversion Hid; subst k. apply find_some in E. destruct E as [Hin Hv].
    exists v. split; [now apply in_rev|].
    now destruct (in_dec string_dec value v).
  - intros Hnone. rewrite Hget.
    destruct (find _ (List.rev syns)) as [[k v]|] eqn:E; [|reflexivity].
    apply find_some in E. destruct E as [Hin Hv].
    destruct (in_dec string_dec value v) as [Hval|]; [|discriminate].
    elim (Hnone k v); [now apply in_rev|exact Hval].
Qed.

Lemma reverse_syns_last_wins_witness :
  get (reverse_syns [("MIT", ["Expat"; "MIT license"]); ("X11", ["Expat"])]) "Expat"
  = Some "X11"
  /\ get (reverse_syns [("MIT", ["Expat"; "MIT license"]); ("X11", ["Expat"])])
       "Apache" = None.
Proof.
  split.
  - rewrite (proj1 (proj2 (reverse_syns_last_wins
                             [("MIT", ["Expat"; "MIT license"]); ("X11", ["Expat"])]
                             "Expat"))).
    reflexivity.
  - apply (proj2 (proj2 (proj2 (reverse_syns_last_wins
                                  [("MIT", ["Expat"; "MIT license"]); ("X11", ["Expat"])]
                                  "Apache")))).
    intros id v [H|[H|[]]]; inversion H; subst; simpl; intuition discriminate.
Defined.

Section ResolverFacts.
Context {license_info : LicenseScanner}.

Lemma license_syns_ids_not_synonyms (id : string) (syns : list string) :
  In (id, syns) license_syns -> get license_syns_reverse id = None.
Proof.
  intros Hin. unfold license_syns in Hin. simpl in Hin.
  repeat (destruct Hin as [Heq|Hin];
          [inversion Heq; subst; vm_compute; reflexivity|]).
  destruct Hin.
Qed.

(** X14: resolving is idempotent for a scanner that stands by its answers:
    if every id the scanner returns is no synonym of the table and is
    returned for itself, and the scanner returns the ids of the table for
    themselves or does not know them, then resolving what
    [_find_license_id] returned gives the same id again. *)
Theorem find_license_id_idempotent (value : string) (w : World) :
  (forall s, find_license_id s = DEFAULT_LICENSE
             \/ (get license_syns_reverse (find_license_id s) = None
                 /\ find_license_id (find_license_id s) = find_license_id s)) ->
  (forall id syns, In (id, syns) license_syns ->
                   find_license_id id = id \/ find_license_id id = DEFAULT_LICENSE) ->
  (r <- _find_license_id value ;; _find_license_id r) w = _find_license_id value w.
Proof.
  intros Hscan Htable.
  rewrite (bind_Returns _ _ _ _ _ (find_license_id_value value w)).
  rewrite !find_license_id_value. f_equal.
  unfold resolved_id at 2 3.
  destruct (get license_syns_reverse value) as [id|] eqn:E.
  - destruct (reverse_syns_origin license_syns value id E) as (syns & Hin & _).
    unfold resolved_id. rewrite (license_syns_ids_not_synonyms id syns Hin).
    destruct (Htable id syns Hin) as [H|H]; rewrite H.
    + now destruct (negb (id =? DEFAULT_LICENSE)).
    + now rewrite String.eqb_refl.
  - destruct (String.eqb_spec (find_license_id value) DEFAULT_LICENSE) as [Hd|Hd]; simpl.
    + unfold resolved_id. rewrite E, Hd. now rewrite String.eqb_refl.
    + destruct (Hscan value) as [H|[Hrev Hfix]]; [contradiction|].
      unfold resolved_id. rewrite Hrev, Hfix.
      destruct (String.eqb_spec (find_license_id value) DEFAULT_LICENSE);
        [contradiction|reflexivity].
Qed.

End ResolverFacts.

Lemma sample_scanner_answers (s : string) :
  In (@find_license_id sample_scanner s)
     ["MIT"; "Apache-2.0"; "GPL-2.0-or-later"; "UNKNOWN"].
Proof.
  unfold find_license_id, sample_scanner, spdx_licenses, find.
  destruct (_ || _); [simpl; tauto|].
  destruct (_ || _); [simpl; tauto|].
  destruct (_ || _); simpl; tauto.
Qed.

Lemma find_license_id_idempotent_witness :
  (r <- @_find_license_id sample_scanner "Apache-2.0 license" ;;
   @_find_license_id sample_scanner r) initial_world
  = @_find_license_id sample_scanner "Apache-2.0 license" initial_world.
Proof.
  apply (@find_license_id_idempotent sample_scanner).
  - intros s. destruct (sample_scanner_answers s) as [H|[H|[H|[H|[]]]]];
      rewrite <- H; [right|right|right|left]; try split; reflexivity.
  - intros id syns Hin. unfold license_syns in Hin. simpl in Hin.
    repeat (destruct Hin as [Heq|Hin];
            [inversion Heq; subst; vm_compute; tauto|]).
    destruct Hin.
Defined.

(** ** The listing of the licenses with [debug] (lines 175-180) *)

Lemma Sorted_ext_count (l : list (nat * string)) :
  Sorted (fun a b => (fst b <=? fst a)%nat = true) l ->
  Sorted (fun a b => fst b <= fst a) l.
Proof.
  induction 1 as [|a l Hs IH Hhd]; constructor; auto.
  destruct Hhd; constructor. now apply Nat.leb_le.
Qed.

Lemma print_times_lines (rows : list (nat * string)) (w : World) :
  for_each rows
    (fun _ '(f, licenses) =>
       shown <- _ensure_len (Some licenses) 200 ;; print (TimesLine f shown)) tt w
  = Returns tt
      (printed w (map (fun '(f, licenses) => TimesLine f (Some (shortened licenses 200)))
                    rows)).
Proof.
  revert w. induction rows as [|[f licenses] rows IH]; intros w; simpl.
  - unfold ret. now rewrite printed_nil.
  - rewrite (bind_Returns _ _ w (printed w [TimesLine f (Some (shortened licenses 200))]) tt).
    + rewrite IH, printed_app. reflexivity.
    + rewrite (bind_Returns _ _ _ _ _ (ensure_len_value licenses 200 w ltac:(lia))).
      reflexivity.
Qed.

Section ListingFacts.
Context {license_info : LicenseScanner} {platform : Platform}.

(** X15: with [debug] the licenses are listed after a heading, one line for
    each key of the frequency table with its count and its value cut to 200
    characters, a line with a larger count before every line with a smaller
    one; nothing but the output changes. *)
Theorem license_information_by_count (freq : dict nat) (w : World) :
  exists rows,
    print_license_information freq w
    = Returns tt
        (printed w
           (LicenseInformation
            :: map (fun '(f, licenses) => TimesLine f (Some (shortened licenses 200)))
                 rows))
    /\ Permutation rows (map (fun '(license, f) => (f, license)) freq)
    /\ StronglySorted (fun a b => fst b <= fst a) rows.
Proof.
  exists (sorted_by (fun x y => (y <=? x)%nat) fst
            (map (fun '(license, f) => (f, license)) (items freq))).
  split; [|split].
  - unfold print_license_information.
    rewrite (bind_Returns _ _ _ _ _ (print_printed LicenseInformation w)).
    rewrite print_times_lines, printed_app. reflexivity.
  - apply sorted_by_perm.
  - apply Sorted_StronglySorted.
    + intros a b c Hab Hbc. lia.
    + apply Sorted_ext_count.
      apply (sorted_by_Sorted (fun x y : nat => (y <=? x)%nat) fst).
      intros a b. destruct (Nat.leb_spec b a); [now left|right].
      apply Nat.leb_le. lia.
Qed.

End ListingFacts.

(** ** [cli.py]: the table of additional texts *)

Lemma upper_char_idempotent (c : ascii) : upper_char (upper_char c) = upper_char c.
Proof.
  unfold upper_char.
  destruct ((97 <=? nat_of_ascii c)%nat && (nat_of_ascii c <=? 122)%nat) eqn:E.
  - apply andb_true_iff in E. destruct E as [E1 E2].
    apply Nat.leb_le in E1, E2.
    rewrite nat_ascii_embedding by lia.
    destruct (Nat.leb_spec 97 (nat_of_ascii c - 32)); [lia|reflexivity].
  - now rewrite E.
Qed.

Lemma upper_idempotent (s : string) : upper (upper s) = upper s.
Proof.
  induction s as [|a s IH]; simpl; [reflexivity|].
  now rewrite upper_char_idempotent, IH.
Qed.

Lemma get_fold_upper (l : dict string) (acc : dict string) (K : string) :
  get (fold_left (fun caps '(k, v) => set caps (upper k) v) l acc) K
  = match find (fun '(k, _) => upper k =? K) (List.rev l) with
    | Some (_, v) => Some v
    | None => get acc K
    end.
Proof.
  revert acc. induction l as [|[k v] l IH]; intros acc; simpl; [reflexivity|].
  rewrite IH, find_append.
  destruct (find _ (List.rev l)) as [[k' v']|]; [reflexivity|].
  simpl. destruct (String.eqb_spec (upper k) K) as [<-|Hne].
  - apply get_set_same.
  - now apply get_set_other.
Qed.

Lemma In_keys_fold_upper (l : dict string) (acc : dict string) (K : string) :
  In K (keys (fold_left (fun caps '(k, v) => set caps (upper k) v) l acc)) ->
  In K (keys acc) \/ exists k, In k (keys l) /\ K = upper k.
Proof.
  revert acc. induction l as [|[k v] l IH]; intros acc; simpl; [auto|].
  intros H. apply IH in H. destruct H as [H|(k' & Hk' & ->)].
  - apply In_keys_set in H. destruct H as [->|H]; [|now left].
    right. exists k. auto.
  - right. exists k'. auto.
Qed.

Lemma upper_keys_loop (o : dict string) (l : dict string) (acc : dict string)
    (w : World) :
  (forall k v, In (k, v) l -> get o k = Some v) ->
  for_each (keys l)
    (fun caps k => v <- getitem o k ;; ret (set caps (upper k) v)) acc w
  = Returns (fold_left (fun caps '(k, v) => set caps (upper k) v) l acc) w.
Proof.
  revert acc. induction l as [|[k v] l IH]; intros acc Hl; simpl; [reflexivity|].
  rewrite (bind_Returns _ _ w w (set acc (upper k) v)).
  - apply IH. intros k' v' Hin. apply Hl. now right.
  - rewrite (bind_Returns _ _ _ _ _ (getitem_get o k v w (Hl k v (or_introl eq_refl)))).
    reflexivity.
Qed.

Section AdditionalTexts.
Context {license_info : LicenseScanner} {platform : Platform} {shell : Shell}.

Lemma parse_additional_license_texts_value (file : string) (o : dict string)
    (w : World) :
  json_load file = JsonObject o ->
  NoDup (keys o) ->
  parse_additional_license_texts file w
  = Returns (fold_left (fun caps '(k, v) => set caps (upper k) v) o empty) w.
Proof.
  intros Hload Hnd. unfold parse_additional_license_texts. rewrite Hload.
  unfold try_except. rewrite upper_keys_loop; [reflexivity|].
  intros k v Hin. now apply NoDup_In_get.
Qed.

(** X16: [parse_additional_license_texts] returns, for a file with a JSON
    object, the table with every name upper-cased: under an upper-cased name
    it holds the text of the last member of the object whose name has that
    upper-case form, and it has no other keys.  For a file that cannot be
    read or holds no object it raises the [Exception] that names the path. *)
Theorem parse_additional_license_texts_spec (file : string) (w : World) :
  (forall o, json_load file = JsonObject o -> NoDup (keys o) ->
     exists texts,
       parse_additional_license_texts file w = Returns texts w
       /\ (forall K,
             get texts K
             = match find (fun '(k, _) => upper k =? K) (List.rev o) with
               | Some (_, v) => Some v
               | None => None
               end)
       /\ (forall K, In K (keys texts) ->
                     upper K = K /\ exists k, In k (keys o) /\ K = upper k))
  /\ (json_load file = Unreadable \/ json_load file = NotAnObject ->
      parse_additional_license_texts file w
      = Raises (Exception ("Expected path to JSON file with object, got '"
                           ++ file ++ "'")) w).
Proof.
  split.
  - intros o Hload Hnd. eexists.
    split; [exact (parse_additional_license_texts_value file o w Hload Hnd)|].
    split.
    + intros K. now rewrite get_fold_upper.
    + intros K HK. apply In_keys_fold_upper in HK. destruct HK as [[]|(k & Hk & ->)].
      split; [apply upper_idempotent|]. exists k. auto.
  - intros [H|H]; unfold parse_additional_license_texts; now rewrite H.
Qed.

Lemma find_unique_upper (o : dict string) (k t : string) :
  In (k, t) o ->
  NoDup (keys o) ->
  (forall k' t', In (k', t') o -> upper k' = upper k -> k' = k) ->
  find (fun '(k', _) => upper k' =? upper k) (List.rev o) = Some (k, t).
Proof.
  intros Hin Hnd Huniq.
  destruct (find _ (List.rev o)) as [[k' t']|] eqn:E.
  - apply find_some in E. destruct E as [Hin' Heq]. apply String.eqb_eq in Heq.
    apply in_rev in Hin'. pose proof (Huniq k' t' Hin' Heq). subst k'.
    pose proof (NoDup_In_get _ _ _ Hnd Hin) as G1.
    pose proof (NoDup_In_get _ _ _ Hnd Hin') as G2. congruence.
  - eapply find_none in E; [|apply in_rev; rewrite rev_involutive; exact Hin].
    simpl in E. now rewrite String.eqb_refl in E.
Qed.

(** X17: a text given in the JSON file under a name in any mix of cases
    reaches the entry: when the object has a member whose name has the same
    upper-case form as the stripped id (and no other member with that form),
    and SPDX gives no text for an entry that is looked up, the entry gets
    the text of that member (every lookup of the loop being answered with a
    JSON object or a [RequestException], so that the loop returns). *)
Theorem additional_text_matches_any_case (debug : bool) (file : string)
    (o : dict string) (k t : string) (by_id : dict LicenseEntry) (key : string)
    (value : LicenseEntry) (w : World) :
  json_load file = JsonObject o ->
  NoDup (keys o) ->
  In (k, t) o ->
  (forall k' t', In (k', t') o -> upper k' = upper k -> k' = k) ->
  upper k = upper (strip key) ->
  lookups_answered by_id ->
  In (key, value) by_id ->
  skip_lookup key value = false ->
  (spdx_response ("https://spdx.org/licenses/" ++ strip key ++ ".json") = Failed
   \/ spdx_response ("https://spdx.org/licenses/" ++ strip key ++ ".json") = Json None) ->
  exists texts by_id' w',
    parse_additional_license_texts file w = Returns texts w
    /\ fetch_license_texts debug (Some texts) by_id w = Returns by_id' w'
    /\ In (key, {| entry_id := entry_id value; license_text := Some t |}) by_id'.
Proof.
  intros Hload Hnd Hin Huniq Hupper Hans Hentry Hskip Hresp.
  destruct (fetch_license_texts_value debug
              (Some (fold_left (fun caps '(k, v) => set caps (upper k) v) o empty))
              by_id w Hans) as (w' & Hrun & _).
  eexists _, _, w'.
  split; [exact (parse_additional_license_texts_value file o w Hload Hnd)|].
  split; [exact Hrun|].
  apply in_map_iff. exists (key, value). split; [|exact Hentry].
  unfold fetched_entry, license_url, override_text. rewrite Hskip.
  rewrite get_fold_upper, <- Hupper, (find_unique_upper o k t Hin Hnd Huniq).
  now destruct Hresp as [-> | ->].
Qed.

End AdditionalTexts.

Lemma sample_texts_NoDup : NoDup (keys [("mit", "MIT text"); ("LicenseRef-house", "House text")]).
Proof.
  repeat constructor; simpl; intuition discriminate.
Qed.

Lemma parse_additional_license_texts_spec_witness :
  (exists texts,
     @parse_additional_license_texts sample_shell "texts.json" initial_world
     = Returns texts initial_world
     /\ get texts "MIT" = Some "MIT text"
     /\ get texts "mit" = None)
  /\ @parse_additional_license_texts sample_shell "list.json" initial_world
     = Raises (Exception "Expected path to JSON file with object, got 'list.json'")
         initial_world.
Proof.
  split.
  - destruct (proj1 (@parse_additional_license_texts_spec sample_shell "texts.json"
                       initial_world)
                [("mit", "MIT text"); ("LicenseRef-house", "House text")]
                eq_refl sample_texts_NoDup) as (texts & Hrun & Hget & _).
    exists texts. split; [exact Hrun|]. rewrite !Hget. split; reflexivity.
  - apply (proj2 (@parse_additional_license_texts_spec sample_shell "list.json"
                    initial_world)).
    right. reflexivity.
Defined.

Lemma additional_text_matches_any_case_witness :
  exists texts by_id' w',
    @parse_additional_license_texts sample_shell "texts.json" initial_world
    = Returns texts initial_world
    /\ @fetch_license_texts sample_scanner offline false (Some texts)
         [("LicenseRef-house",
           {| entry_id := "LicenseRef-house"; license_text := None |})]
         initial_world
       = Returns by_id' w'
    /\ In ("LicenseRef-house",
           {| entry_id := "LicenseRef-house"; license_text := Some "House text" |})
          by_id'.
Proof.
  apply (@additional_text_matches_any_case sample_scanner offline sample_shell false
           "texts.json" [("mit", "MIT text"); ("LicenseRef-house", "House text")]
           "LicenseRef-house" "House text"
           [("LicenseRef-house",
             {| entry_id := "LicenseRef-house"; license_text := None |})]
           "LicenseRef-house"
           {| entry_id := "LicenseRef-house"; license_text := None |} initial_world).
  - reflexivity.
  - exact sample_texts_NoDup.
  - simpl. auto.
  - intros k' t' [H|[H|[]]] Hu; inversion H; subst; [vm_compute in Hu; discriminate Hu|reflexivity].
  - reflexivity.
  - intros key value _ _. left. reflexivity.
  - simpl. auto.
  - vm_compute. reflexivity.
  - left. reflexivity.
Defined.

(** ** [cli.py]: [main] *)

Lemma cli_bind_Next {A B} (m : Cli A) (f : A -> Cli B) (out out' : list CliMsg)
    (w w' : World) (a : A) :
  m out w = Next a out' w' -> cli_bind m f out w = f a out' w'.
Proof. intros H. unfold cli_bind. now rewrite H. Qed.

Lemma get_filter_truthy (d : dict PyValue) (key : string) :
  NoDup (keys d) ->
  get (filter (fun '(_, value) => truthy value) d) key
  = match get d key with
    | Some v => if truthy v then Some v else None
    | None => None
    end.
Proof.
  induction d as [|[k v] d IH]; simpl; [reflexivity|].
  intros Hnd. inversion Hnd as [|? ? Hk Hnd']; subst.
  destruct (String.eqb_spec k key) as [->|Hne].
  - destruct (truthy v); simpl.
    + now rewrite String.eqb_refl.
    + rewrite IH by assumption.
      destruct (get d key) eqn:E; [|reflexivity].
      elim Hk. eapply get_Some_In; eauto.
  - destruct (truthy v); simpl.
    + destruct (String.eqb_spec k key); [contradiction|now apply IH].
    + now apply IH.
Qed.

Lemma vars_NoDup (raw_args : Namespace) : NoDup (keys (vars raw_args)).
Proof.
  unfold vars. simpl. repeat constructor; simpl; intuition discriminate.
Qed.

(** [ChainMap(args, defaults)[key]]: the argument when it is truthy, else
    the default, and [KeyError] when there is none. *)
Lemma chain_getitem_value (raw_args : Namespace) (key : string)
    (out : list CliMsg) (w : World) :
  chain_getitem (filter (fun '(_, value) => truthy value) (vars raw_args)) key out w
  = match get (vars raw_args) key with
    | Some v =>
        if truthy v then Next v out w
        else match get defaults key with
             | Some v' => Next v' out w
             | None => Uncaught (KeyError key) out w
             end
    | None =>
        match get defaults key with
        | Some v' => Next v' out w
        | None => Uncaught (KeyError key) out w
        end
    end.
Proof.
  unfold chain_getitem. rewrite (get_filter_truthy _ _ (vars_NoDup raw_args)).
  destruct (get (vars raw_args) key) as [v|].
  - destruct (truthy v); [reflexivity|].
    unfold cli_call, getitem. now destruct (get defaults key).
  - unfold cli_call, getitem. now destruct (get defaults key).
Qed.

Lemma lookup_input_file (raw_args : Namespace) (out : list CliMsg) (w : World) :
  chain_getitem (filter (fun '(_, value) => truthy value) (vars raw_args))
    "input_file" out w
  = Next (PyStr (ns_input_file raw_args)) out w.
Proof.
  rewrite chain_getitem_value. simpl.
  destruct (String.eqb_spec (ns_input_file raw_args) EmptyString) as [->|]; reflexivity.
Qed.

Lemma lookup_output_file (raw_args : Namespace) (out : list CliMsg) (w : World) :
  chain_getitem (filter (fun '(_, value) => truthy value) (vars raw_args))
    "output_file" out w
  = Next (PyStr (ns_output_file raw_args)) out w.
Proof.
  rewrite chain_getitem_value. simpl.
  destruct (String.eqb_spec (ns_output_file raw_args) EmptyString) as [->|]; reflexivity.
Qed.

Lemma lookup_format (raw_args : Namespace) (out : list CliMsg) (w : World) :
  chain_getitem (filter (fun '(_, value) => truthy value) (vars raw_args))
    "format" out w
  = Next (PyStr (if ns_format raw_args =? EmptyString then "console"
                 else ns_format raw_args)) out w.
Proof.
  rewrite chain_getitem_value. simpl.
  destruct (ns_format raw_args =? EmptyString); reflexivity.
Qed.

Lemma lookup_debug (raw_args : Namespace) (out : list CliMsg) (w : World) :
  chain_getitem (filter (fun '(_, value) => truthy value) (vars raw_args))
    "debug" out w
  = Next (PyBool (ns_debug raw_args)) out w.
Proof.
  rewrite chain_getitem_value. simpl. destruct (ns_debug raw_args); reflexivity.
Qed.

Lemma lookup_include_license (raw_args : Namespace) (out : list CliMsg) (w : World) :
  chain_getitem (filter (fun '(_, value) => truthy value) (vars raw_args))
    "include_license" out w
  = Next (PyBool (ns_include_license raw_args)) out w.
Proof.
  rewrite chain_getitem_value. simpl.
  destruct (ns_include_license raw_args); reflexivity.
Qed.

Lemma lookup_additional_license_texts (raw_args : Namespace) (out : list CliMsg)
    (w : World) :
  chain_getitem (filter (fun '(_, value) => truthy value) (vars raw_args))
    "additional_license_texts" out w
  = Next match ns_additional_license_texts raw_args with
         | Some path => if path =? EmptyString then PyNone else PyStr path
         | None => PyNone
         end out w.
Proof.
  rewrite chain_getitem_value. simpl.
  destruct (ns_additional_license_texts raw_args) as [path|]; simpl; [|reflexivity].
  destruct (path =? EmptyString); reflexivity.
Qed.

(** [defaults] has the key [cotent_structure], so there is no default for
    [content_structure]. *)
Lemma lookup_content_structure (raw_args : Namespace) (out : list CliMsg) (w : World) :
  chain_getitem (filter (fun '(_, value) => truthy value) (vars raw_args))
    "content_structure" out w
  = if ns_content_structure raw_args =? EmptyString
    then Uncaught (KeyError "content_structure") out w
    else Next (PyStr (ns_content_structure raw_args)) out w.
Proof.
  rewrite chain_getitem_value. simpl.
  destruct (ns_content_structure raw_args =? EmptyString); reflexivity.
Qed.

Ltac cli_next H := rewrite (cli_bind_Next _ _ _ _ _ _ _ H); cbv beta.

Section MainFacts.
Context {license_info : LicenseScanner} {platform : Platform} {builder : DocBuilder}
  {shell : Shell}.

(** X18: without the name of an SBOM file, [main] prints the error and
    returns -1 at once; with a format other than [console] and no output
    file it does the same with the other error.  In both cases the parser is
    not called and the world is left as it was. *)
Theorem main_rejects_missing_names (raw_args : Namespace) (out : list CliMsg)
    (w : World) :
  (ns_input_file raw_args = EmptyString ->
   main raw_args out w = Return (-1)%Z (out ++ [ErrorSbomName])%list w)
  /\ (ns_input_file raw_args <> EmptyString ->
      ns_format raw_args <> EmptyString ->
      ns_format raw_args <> "console" ->
      ns_output_file raw_args = EmptyString ->
      main raw_args out w = Return (-1)%Z (out ++ [ErrorOutputFilename])%list w).
Proof.
  split.
  - intros Hin. unfold main. cbv zeta.
    cli_next (lookup_input_file raw_args out w).
    rewrite Hin. reflexivity.
  - intros Hin Hfmt Hconsole Hout. unfold main. cbv zeta.
    apply String.eqb_neq in Hin, Hfmt, Hconsole.
    cli_next (lookup_input_file raw_args out w).
    cbn [is_str]. rewrite Hin.
    cli_next (lookup_format raw_args out w).
    rewrite Hfmt. cbn [is_str]. rewrite Hconsole. simpl negb. cbv iota.
    rewrite (cli_bind_Next _ _ out out w w true).
    + reflexivity.
    + cli_next (lookup_output_file raw_args out w). rewrite Hout. reflexivity.
Qed.

End MainFacts.

Section MainGenerateFacts.
Context {license_info : LicenseScanner} {platform : Platform} {builder : DocBuilder}
  {shell : Shell}.

Lemma main_validated (raw_args : Namespace) (out : list CliMsg) (w : World) :
  names_given raw_args ->
  main raw_args out w
  = if ns_content_structure raw_args =? EmptyString
    then Uncaught (KeyError "content_structure") (out ++ debug_messages raw_args)%list w
    else main_generate (filter (fun '(_, value) => truthy value) (vars raw_args))
           (ns_input_file raw_args) (out ++ main_messages raw_args)%list w.
Proof.
  intros [Hin Hout]. unfold main. cbv zeta.
  apply String.eqb_neq in Hin.
  cli_next (lookup_input_file raw_args out w).
  cbn [is_str]. rewrite Hin.
  cli_next (lookup_format raw_args out w).
  rewrite (cli_bind_Next _ _ out out w w false).
  2:{ destruct (String.eqb_spec (ns_format raw_args) EmptyString) as [E|E];
        [reflexivity|].
      cbn [is_str].
      destruct (String.eqb_spec (ns_format raw_args) "console") as [E'|E'];
        [reflexivity|].
      cbn [negb]. cbv iota.
      cli_next (lookup_output_file raw_args out w). cbn [is_str].
      destruct Hout as [H|[H|H]]; try contradiction.
      apply String.eqb_neq in H. now rewrite H. }
  cbv iota.
  cli_next (lookup_debug raw_args out w).
  rewrite (cli_bind_Next _ _ out (out ++ debug_messages raw_args)%list w w tt).
  2:{ unfold debug_messages. cbn [truthy]. destruct (ns_debug raw_args).
      - cli_next (lookup_input_file raw_args out w).
        rewrite (cli_bind_Next _ _ _ _ _ _ tt
                   (eq_refl : cli_print (InputFile (PyStr (ns_input_file raw_args))) out w
                              = Next tt _ w)).
        cli_next (lookup_output_file raw_args
                    (out ++ [InputFile (PyStr (ns_input_file raw_args))])%list w).
        rewrite (cli_bind_Next _ _ _ _ _ _ tt
                   (eq_refl : cli_print (OutputFile (PyStr (ns_output_file raw_args)))
                                (out ++ [InputFile (PyStr (ns_input_file raw_args))])%list w
                              = Next tt _ w)).
        cli_next (lookup_include_license raw_args
                    ((out ++ [InputFile (PyStr (ns_input_file raw_args))])
                     ++ [OutputFile (PyStr (ns_output_file raw_args))])%list w).
        unfold cli_print. now rewrite <- !app_assoc.
      - unfold cli_ret. now rewrite app_nil_r. }
  unfold cli_bind at 1. rewrite lookup_content_structure.
  destruct (ns_content_structure raw_args =? EmptyString); [reflexivity|].
  rewrite (cli_bind_Next _ _ _ (out ++ main_messages raw_args)%list _ w tt);
    [reflexivity|].
  unfold main_messages. cbn [is_str]. rewrite app_assoc.
  destruct (_ || _); cbn [negb]; cbv iota; [|reflexivity].
  unfold cli_ret. now rewrite app_nil_r.
Qed.

(** X19: an empty content structure ([-s] with an empty value) ends [main]
    with [KeyError]: the defaults have the key [cotent_structure], so that
    [content_structure] has none.  The parser is not called. *)
Theorem main_empty_content_structure (raw_args : Namespace) (out : list CliMsg)
    (w : World) :
  names_given raw_args ->
  ns_content_structure raw_args = EmptyString ->
  main raw_args out w
  = Uncaught (KeyError "content_structure") (out ++ debug_messages raw_args)%list w.
Proof.
  intros Hnames Hcs. rewrite main_validated by exact Hnames. now rewrite Hcs.
Qed.

(** X20: when the parser does not find the SBOM file, [main] says so and
    returns 0, the code of success; nothing is generated. *)
Theorem main_sbom_not_found (raw_args : Namespace) (out : list CliMsg) (w : World) :
  names_given raw_args ->
  ns_content_structure raw_args <> EmptyString ->
  parse_file (ns_input_file raw_args) = SbomNotFound ->
  main raw_args out w
  = Return 0%Z
      (out ++ main_messages raw_args ++ [SbomFileNotFound (ns_input_file raw_args)])%list
      w.
Proof.
  intros Hnames Hcs Hparse. rewrite main_validated by exact Hnames.
  apply String.eqb_neq in Hcs. rewrite Hcs.
  unfold main_generate, sbom_parser_parse_file. rewrite Hparse.
  unfold cli_bind, cli_try_except, cli_call, raise, cli_print, cli_return.
  now rewrite app_assoc.
Qed.

(** X21: when the file of additional texts cannot be read or holds no JSON
    object, [main] ends with the [Exception] that names the path, after the
    SBOM was parsed and before anything is generated: the world is left as
    it was. *)
Theorem main_bad_additional_texts (raw_args : Namespace) (path : string)
    (packages files : list SbomRecord) (out : list CliMsg) (w : World) :
  names_given raw_args ->
  ns_content_structure raw_args <> EmptyString ->
  parse_file (ns_input_file raw_args) = Sbom packages files ->
  ns_additional_license_texts raw_args = Some path ->
  path <> EmptyString ->
  json_load path = Unreadable \/ json_load path = NotAnObject ->
  main raw_args out w
  = Uncaught (Exception ("Expected path to JSON file with object, got '" ++ path ++ "'"))
      (out ++ main_messages raw_args)%list w.
Proof.
  intros Hnames Hcs Hparse Hadd Hpath Hload. rewrite main_validated by exact Hnames.
  apply String.eqb_neq in Hcs, Hpath. rewrite Hcs.
  unfold main_generate, sbom_parser_parse_file. rewrite Hparse.
  unfold cli_bind at 1. unfold cli_try_except.
  rewrite (cli_bind_Next _ _ _ _ _ _ (packages, files) eq_refl). cbv beta zeta.
  cli_next (lookup_additional_license_texts raw_args (out ++ main_messages raw_args)%list w).
  rewrite Hadd, Hpath.
  unfold cli_bind, cli_call, parse_additional_license_texts.
  now destruct Hload as [-> | ->].
Qed.

(** X22: with the names given, the SBOM parsed and the additional texts (if
    any) read, [main] calls one generator: [generate_document] of
    [simple_format_generator] exactly when the content structure is
    [simple], and the generator of [sbom2doc.generator] for every other
    value, [full] or not.  It returns 0 when the generator returns.  When the
    generator raises [FileNotFoundError], the [except] of line 160 catches
    it: [main] prints that the SBOM file was not found and returns 0.  With
    any other exception of the generator [main] ends. *)
Theorem main_calls_one_generator (raw_args : Namespace)
    (packages files : list SbomRecord) (out : list CliMsg) (w : World) :
  names_given raw_args ->
  ns_content_structure raw_args <> EmptyString ->
  parse_file (ns_input_file raw_args) = Sbom packages files ->
  additional_texts_readable raw_args ->
  main raw_args out w
  = match
      (if ns_content_structure raw_args =? "simple"
       then generate_document
              (if ns_format raw_args =? EmptyString then "console"
               else ns_format raw_args)
              packages files (ns_input_file raw_args) (ns_output_file raw_args)
              (ns_include_license raw_args) (ns_debug raw_args)
              (additional_texts_of raw_args) datetime_now
       else generator_generate_document
              (PyStr (if ns_format raw_args =? EmptyString then "console"
                      else ns_format raw_args))
              packages files (ns_input_file raw_args)
              (PyStr (ns_output_file raw_args))
              (ns_include_license raw_args) (ns_debug raw_args)
              (additional_texts_of raw_args)) w
    with
    | Returns _ w' => Return 0%Z (out ++ main_messages raw_args)%list w'
    | Raises FileNotFoundError w' =>
        Return 0%Z
          (out ++ main_messages raw_args
           ++ [SbomFileNotFound (ns_input_file raw_args)])%list w'
    | Raises e w' => Uncaught e (out ++ main_messages raw_args)%list w'
    end.
Proof.
  intros Hnames Hcs Hparse Hread. rewrite main_validated by exact Hnames.
  apply String.eqb_neq in Hcs. rewrite Hcs.
  unfold main_generate, sbom_parser_parse_file. rewrite Hparse.
  set (out' := (out ++ main_messages raw_args)%list).
  unfold cli_bind at 1. unfold cli_try_except.
  rewrite (cli_bind_Next _ _ _ _ _ _ (packages, files) eq_refl). cbv beta zeta.
  cli_next (lookup_additional_license_texts raw_args out' w).
  rewrite (cli_bind_Next _ _ out' out' w w (additional_texts_of raw_args)).
  2:{ unfold additional_texts_of, additional_texts_readable in *.
      destruct (ns_additional_license_texts raw_args) as [path|]; [|reflexivity].
      destruct (String.eqb_spec path EmptyString) as [E|E]; [reflexivity|].
      destruct Hread as [H|(o & Hload & Hnd)]; [contradiction|].
      unfold cli_bind, cli_call.
      rewrite (parse_additional_license_texts_value path o w Hload Hnd).
      now rewrite Hload. }
  unfold cli_bind at 1. rewrite lookup_content_structure, Hcs.
  cli_next (lookup_format raw_args out' w).
  cli_next (lookup_output_file raw_args out' w).
  cli_next (lookup_include_license raw_args out' w).
  cli_next (lookup_debug raw_args out' w).
  cbn [is_str truthy str_of fst snd]. unfold cli_call, cli_print, cli_return.
  assert (Hout : ((out ++ main_messages raw_args)
                  ++ [SbomFileNotFound (ns_input_file raw_args)])%list
                 = (out ++ main_messages raw_args
                    ++ [SbomFileNotFound (ns_input_file raw_args)])%list)
    by now rewrite app_assoc.
  destruct (ns_content_structure raw_args =? "simple").
  - destruct (generate_document _ _ _ _ _ _ _ _ _ w) as [[] w'|[] w'];
      try reflexivity. subst out'. now rewrite Hout.
  - destruct (generator_generate_document _ _ _ _ _ _ _ _ w) as [[] w'|[] w'];
      try reflexivity. subst out'. now rewrite Hout.
Qed.

End MainGenerateFacts.

(** ** Examples of the further properties *)

Lemma fetch_requests_only_open_entries_witness :
  exists by_id' w',
    @fetch_license_texts sample_scanner spdx_online false None
      [("MIT", {| entry_id := "MIT"; license_text := None |});
       ("NOASSERTION", {| entry_id := "NOASSERTION"; license_text := None |});
       ("LicenseRef-house", {| entry_id := "LicenseRef-house"; license_text := None |})]
      initial_world
    = Returns by_id' w'
    /\ keys by_id' = ["MIT"; "NOASSERTION"; "LicenseRef-house"]
    /\ requested w' = ["https://spdx.org/licenses/MIT.json";
                       "https://spdx.org/licenses/LicenseRef-house.json"].
Proof.
  destruct (@fetch_requests_only_open_entries sample_scanner spdx_online false None
              [("MIT", {| entry_id := "MIT"; license_text := None |});
               ("NOASSERTION", {| entry_id := "NOASSERTION"; license_text := None |});
               ("LicenseRef-house",
                {| entry_id := "LicenseRef-house"; license_text := None |})]
              initial_world) as (by_id' & w' & Hrun & Hkeys & _ & _ & _ & Hreq & _).
  - intros key value _ _. unfold answered. simpl.
    destruct (_ =? _); [right; eexists; reflexivity|now left].
  - exists by_id', w'. split; [exact Hrun|]. split; [exact Hkeys|exact Hreq].
Defined.

Lemma lookup_error_stops_enrichment_witness :
  exists w',
    @fetch_license_texts sample_scanner spdx_lists false None
      [("NOASSERTION", {| entry_id := "NOASSERTION"; license_text := None |});
       ("MIT", {| entry_id := "MIT"; license_text := None |});
       ("Apache-2.0", {| entry_id := "Apache-2.0"; license_text := None |})]
      initial_world
    = Raises AttributeError w'
    /\ requested w' = ["https://spdx.org/licenses/MIT.json"].
Proof.
  destruct (@lookup_error_stops_enrichment sample_scanner spdx_lists false None
              [("NOASSERTION", {| entry_id := "NOASSERTION"; license_text := None |})]
              [("Apache-2.0", {| entry_id := "Apache-2.0"; license_text := None |})]
              "MIT" {| entry_id := "MIT"; license_text := None |} AttributeError
              initial_world) as (w' & Hrun & _ & _ & Hreq).
  - intros key value [H|[]] Hskip. inversion H; subst. vm_compute in Hskip. discriminate.
  - vm_compute. reflexivity.
  - left. split; reflexivity.
  - exists w'. split; [exact Hrun|exact Hreq].
Defined.

Lemma spdx_text_wins_witness :
  exists by_id' w',
    @fetch_license_texts sample_scanner spdx_online false
      (Some [("MIT", "another text")])
      [("MIT", {| entry_id := "MIT"; license_text := None |})] initial_world
    = Returns by_id' w'
    /\ In ("MIT", {| entry_id := "MIT"; license_text := Some "MIT License text" |})
          by_id'.
Proof.
  apply (@spdx_text_wins sample_scanner spdx_online false
           (Some [("MIT", "another text")])
           [("MIT", {| entry_id := "MIT"; license_text := None |})]
           "MIT" {| entry_id := "MIT"; license_text := None |} "MIT License text"
           initial_world).
  - intros key value _ _. unfold answered. simpl.
    destruct (_ =? _); [right; eexists; reflexivity|now left].
  - simpl. auto.
  - vm_compute. reflexivity.
  - reflexivity.
Defined.


Lemma file_builder_returns (c : Call) (w : World) :
  call_outfile c <> missing_license_info_filename (call_now c) ->
  call_outfile c <> missing_copyright_info_filename (call_now c) ->
  call_outfile c <> unknown_license_text_filename (call_now c) ->
  @publish_returns file_builder c w.
Proof.
  intros H1 H2 H3 doc. split; [reflexivity|]. intros f Hf. simpl.
  destruct (_ || _); [reflexivity|]. apply get_set_other.
  destruct Hf as [<-|[<-|[<-|[]]]]; assumption.
Qed.


Lemma untyped_package_raises_witness :
  exists w',
    @run sample_scanner offline file_builder untyped_call initial_world
    = Raises TypeError w'
    /\ filesystem w' = filesystem initial_world.
Proof.
  apply (@untyped_package_raises sample_scanner offline file_builder untyped_call
           initial_world).
  - simpl. lia.
  - exists package_untyped. split; [simpl; auto|reflexivity].
  - left. reflexivity.
Defined.

Lemma second_csv_in_same_second_raises_witness :
  exists w' doc,
    @run sample_scanner offline file_builder later_call
      (world_after
         (@run sample_scanner offline file_builder later_call
            (world_after
               (@run sample_scanner offline file_builder first_call initial_world))))
    = Raises (FileExistsError (missing_license_info_filename (call_now later_call))) w'
    /\ filesystem w'
       = published_files
           (@publish file_builder (call_format later_call) (call_outfile later_call) doc
              (filesystem
                 (world_after
                    (@run sample_scanner offline file_builder later_call
                       (world_after
                          (@run sample_scanner offline file_builder first_call
                             initial_world)))))).
Proof.
  apply (@second_csv_in_same_second_raises sample_scanner offline file_builder
           later_call
           (world_after
              (@run sample_scanner offline file_builder later_call
                 (world_after
                    (@run sample_scanner offline file_builder first_call
                       initial_world))))
           "foo").
  - reflexivity.
  - left. simpl. lia.
  - left. reflexivity.
  - apply file_builder_returns; discriminate.
  - vm_compute. now left.
  - vm_compute. reflexivity.
Defined.

Lemma command_line_names_given : names_given (command_line "sbom.json").
Proof. split; [discriminate|]. right. left. reflexivity. Qed.

Lemma main_rejects_missing_names_witness :
  @main sample_scanner offline file_builder sample_shell (command_line EmptyString) [] initial_world
  = Return (-1)%Z [ErrorSbomName] initial_world
  /\ @main sample_scanner offline file_builder sample_shell
       {| ns_input_file := "sbom.json"; ns_debug := false; ns_include_license := false;
          ns_additional_license_texts := None; ns_format := "pdf";
          ns_content_structure := "simple"; ns_output_file := EmptyString |}
       [] initial_world
     = Return (-1)%Z [ErrorOutputFilename] initial_world.
Proof.
  split.
  - apply (proj1 (@main_rejects_missing_names sample_scanner offline file_builder sample_shell
                    (command_line EmptyString) [] initial_world)).
    reflexivity.
  - apply (proj2 (@main_rejects_missing_names sample_scanner offline file_builder sample_shell
                    {| ns_input_file := "sbom.json"; ns_debug := false;
                       ns_include_license := false;
                       ns_additional_license_texts := None; ns_format := "pdf";
                       ns_content_structure := "simple";
                       ns_output_file := EmptyString |} [] initial_world)).
    + discriminate.
    + discriminate.
    + discriminate.
    + reflexivity.
Defined.

Lemma main_empty_content_structure_witness :
  @main sample_scanner offline file_builder sample_shell
    {| ns_input_file := "sbom.json"; ns_debug := true; ns_include_license := false;
       ns_additional_license_texts := None; ns_format := "console";
       ns_content_structure := EmptyString; ns_output_file := EmptyString |}
    [] initial_world
  = Uncaught (KeyError "content_structure")
      [InputFile (PyStr "sbom.json"); OutputFile (PyStr EmptyString);
       IncludeLicenseText (PyBool false)] initial_world.
Proof.
  apply (@main_empty_content_structure sample_scanner offline file_builder sample_shell
           {| ns_input_file := "sbom.json"; ns_debug := true;
              ns_include_license := false;
              ns_additional_license_texts := None; ns_format := "console";
              ns_content_structure := EmptyString; ns_output_file := EmptyString |}
           [] initial_world).
  - split; [discriminate|]. right. left. reflexivity.
  - reflexivity.
Defined.

Lemma main_sbom_not_found_witness :
  @main sample_scanner offline file_builder sample_shell (command_line "nothing.json") []
    initial_world
  = Return 0%Z [SbomFileNotFound "nothing.json"] initial_world.
Proof.
  apply (@main_sbom_not_found sample_scanner offline file_builder sample_shell
           (command_line "nothing.json") [] initial_world).
  - split; [discriminate|]. right. left. reflexivity.
  - discriminate.
  - reflexivity.
Defined.

Lemma main_bad_additional_texts_witness :
  @main sample_scanner offline file_builder sample_shell
    {| ns_input_file := "sbom.json"; ns_debug := false; ns_include_license := true;
       ns_additional_license_texts := Some "list.json"; ns_format := "console";
       ns_content_structure := "simple"; ns_output_file := EmptyString |}
    [] initial_world
  = Uncaught (Exception "Expected path to JSON file with object, got 'list.json'")
      [] initial_world.
Proof.
  apply (@main_bad_additional_texts sample_scanner offline file_builder sample_shell
           {| ns_input_file := "sbom.json"; ns_debug := false;
              ns_include_license := true;
              ns_additional_license_texts := Some "list.json";
              ns_format := "console"; ns_content_structure := "simple";
              ns_output_file := EmptyString |}
           "list.json" [package_house] [] [] initial_world).
  - split; [discriminate|]. right. left. reflexivity.
  - discriminate.
  - reflexivity.
  - reflexivity.
  - discriminate.
  - right. reflexivity.
Defined.

Lemma main_calls_one_generator_witness :
  exists w',
    @main sample_scanner offline file_builder sample_shell (command_line "sbom.json") []
      initial_world
    = Return 0%Z [] w'
    /\ requested w' = ["https://spdx.org/licenses/LicenseRef-house.json"]
    /\ unknown_license_text_id_list w' = [].
Proof.
  rewrite (@main_calls_one_generator sample_scanner offline file_builder sample_shell
             (command_line "sbom.json") [package_house] [] [] initial_world).
  - vm_compute. eexists. repeat split.
  - exact command_line_names_given.
  - discriminate.
  - reflexivity.
  - right. exists [("mit", "MIT text"); ("LicenseRef-house", "House text")].
    split; [reflexivity|exact sample_texts_NoDup].
Defined.

(** ** What the diagnostics files hold *)

Section CsvFacts.
Context {license_info : LicenseScanner} {platform : Platform}.

(** X23: when none of its three files is there yet, [write_diagnostics]
    returns and leaves the diagnostic dicts as they were.  For each of the
    three dicts: an empty dict gives no file; a dict with keys gives its file
    with the header line and then one row for each key, in the order in
    which the keys were first recorded. *)
Theorem diagnostics_files_hold_the_keys (now : string) (w : World) :
  csv_files_new now w ->
  exists w',
    write_diagnostics now w = Returns tt w'
    /\ same_diagnostics w w'
    /\ get (filesystem w') (missing_license_info_filename now)
       = match license_info_missing_package_id_list w with
         | [] => None
         | ids =>
             Some ((quoted "package id" ++ "," ++ quoted "license id" ++ linesep)
                   :: map csv_row2 (keys ids))
         end
    /\ get (filesystem w') (missing_copyright_info_filename now)
       = match copyright_info_missing_package_name_list w with
         | [] => None
         | names =>
             Some ((quoted "package id" ++ "," ++ quoted "copyright info" ++ linesep)
                   :: map csv_row2 (keys names))
         end
    /\ get (filesystem w') (unknown_license_text_filename now)
       = match unknown_license_text_id_list w with
         | [] => None
         | ids =>
             Some ((quoted "license id" ++ "," ++ quoted "original id synonym" ++ ","
                    ++ quoted "license text" ++ linesep)
                   :: map csv_row3 (keys ids))
         end.
Proof.
  intros Hnew.
  destruct (write_diagnostics_value now w Hnew) as (w' & Hrun & Hsame & L1 & L2 & L3).
  exists w'. split; [exact Hrun|]. split; [exact Hsame|].
  pose proof (write_diagnostics_files_kept now w) as [_ Hfiles].
  rewrite Hrun in Hfiles. simpl in Hfiles.
  destruct Hnew as (N1 & N2 & N3).
  destruct (csv_filenames_differ now) as (D12 & D13 & D23).
  assert (Hnone : forall f, contains (filesystem w') f = false ->
                             get (filesystem w') f = None).
  { intros f Hf. unfold contains in Hf. now destruct (get (filesystem w') f). }
  assert (Hfs : exists w1 w2,
             filesystem w'
             = (if (0 <? List.length (unknown_license_text_id_list w))%nat
                then set (filesystem w2) (unknown_license_text_filename now)
                       (unknown_license_text_lines (unknown_license_text_id_list w))
                else filesystem w2)
             /\ filesystem w2
                = (if (0 <? List.length (copyright_info_missing_package_name_list w))%nat
                   then set (filesystem w1) (missing_copyright_info_filename now)
                          (missing_copyright_info_lines
                             (copyright_info_missing_package_name_list w))
                   else filesystem w1)
             /\ filesystem w1
                = (if (0 <? List.length (license_info_missing_package_id_list w))%nat
                   then set (filesystem w) (missing_license_info_filename now)
                          (missing_license_info_lines
                             (license_info_missing_package_id_list w))
                   else filesystem w)).
  { clear L1 L2 L3 Hnone Hfiles Hsame. revert Hrun. unfold write_diagnostics.
    fold (missing_license_info_filename now) (missing_copyright_info_filename now)
      (unknown_license_text_filename now).
    unfold bind at 1. unfold gets at 1.
    destruct (write_csv_value
                (0 <? List.length (license_info_missing_package_id_list w))%nat
                (missing_license_info_filename now)
                (missing_license_info_lines (license_info_missing_package_id_list w))
                w N1) as (w1 & R1 & S1 & F1).
    rewrite (bind_Returns _ _ _ _ _ R1).
    unfold bind at 1. unfold gets at 1.
    assert (N2' : contains (filesystem w1) (missing_copyright_info_filename now) = false).
    { rewrite F1. destruct (0 <? _)%nat; [|exact N2]. now rewrite contains_set_other. }
    destruct (write_csv_value
                (0 <? List.length (copyright_info_missing_package_name_list w1))%nat
                (missing_copyright_info_filename now)
                (missing_copyright_info_lines (copyright_info_missing_package_name_list w1))
                w1 N2') as (w2 & R2 & S2 & F2).
    rewrite (bind_Returns _ _ _ _ _ R2).
    unfold bind at 1. unfold gets at 1.
    assert (N3' : contains (filesystem w2) (unknown_license_text_filename now) = false).
    { rewrite F2, F1. destruct (0 <? _)%nat; destruct (0 <? _)%nat;
        rewrite ?contains_set_other; auto. }
    destruct (write_csv_value
                (0 <? List.length (unknown_license_text_id_list w2))%nat
                (unknown_license_text_filename now)
                (unknown_license_text_lines (unknown_license_text_id_list w2))
                w2 N3') as (w3 & R3 & S3 & F3).
    rewrite R3. intros Heq. inversion Heq; subst w3. clear Heq.
    pose proof (same_diagnostics_trans _ _ _ S1 S2) as S12.
    destruct S1 as (A1 & A2 & A3). destruct S12 as (B1 & B2 & B3).
    exists w1, w2. rewrite <- A1, <- B2. auto. }
  destruct Hfs as (w1 & w2 & F3 & F2 & F1).
  split; [|split].
  - destruct (license_info_missing_package_id_list w) as [|x d] eqn:E.
    + apply Hnone. rewrite F3, F2, F1, ?E.
      destruct (unknown_license_text_id_list w);
        destruct (copyright_info_missing_package_name_list w);
        destruct (license_info_missing_package_id_list w);
        try discriminate E;
        cbn [List.length Nat.ltb Nat.leb]; cbv iota;
        rewrite ?contains_set_other by congruence; exact N1.
    + rewrite L1 by discriminate. reflexivity.
  - destruct (copyright_info_missing_package_name_list w) as [|x d] eqn:E.
    + apply Hnone. rewrite F3, F2, F1, ?E.
      destruct (unknown_license_text_id_list w);
        destruct (copyright_info_missing_package_name_list w);
        destruct (license_info_missing_package_id_list w);
        try discriminate E;
        cbn [List.length Nat.ltb Nat.leb]; cbv iota;
        rewrite ?contains_set_other by congruence; exact N2.
    + rewrite L2 by discriminate. reflexivity.
  - destruct (unknown_license_text_id_list w) as [|x d] eqn:E.
    + apply Hnone. rewrite F3, F2, F1, ?E.
      destruct (unknown_license_text_id_list w);
        destruct (copyright_info_missing_package_name_list w);
        destruct (license_info_missing_package_id_list w);
        try discriminate E;
        cbn [List.length Nat.ltb Nat.leb]; cbv iota;
        rewrite ?contains_set_other by congruence; exact N3.
    + rewrite L3 by discriminate. reflexivity.
Qed.

End CsvFacts.

Lemma diagnostics_files_hold_the_keys_witness :
  exists w',
    @write_diagnostics offline "2026-11-04T09:47:00.5"
      (world_after (@run sample_scanner offline file_builder first_call initial_world))
    = Returns tt w'
    /\ get (filesystem w') (missing_license_info_filename "2026-11-04T09:47:00.5")
       = Some [(quoted "package id" ++ "," ++ quoted "license id" ++ @linesep offline)%string;
               @csv_row2 offline "foo"]
    /\ get (filesystem w') (unknown_license_text_filename "2026-11-04T09:47:00.5") = None.
Proof.
  destruct (@diagnostics_files_hold_the_keys offline "2026-11-04T09:47:00.5"
              (world_after (@run sample_scanner offline file_builder first_call initial_world)))
    as (w' & Hrun & _ & H1 & _ & H3).
  - repeat split.
  - exists w'. split; [exact Hrun|]. split; [exact H1|exact H3].
Defined.

(** ** Which names are recorded *)

Lemma names_added_refl (w : World) : names_added [] [] w w.
Proof. split; intros k; simpl; tauto. Qed.

Lemma names_added_trans (L1 C1 L2 C2 : list string) (w1 w2 w3 : World) :
  names_added L1 C1 w1 w2 -> names_added L2 C2 w2 w3 ->
  names_added (L1 ++ L2) (C1 ++ C2) w1 w3.
Proof.
  intros [A1 A2] [B1 B2]. split; intros k.
  - rewrite B1, A1, in_app_iff. tauto.
  - rewrite B2, A2, in_app_iff. tauto.
Qed.

Lemma names_added_same (w w' : World) : same_diagnostics w w' -> names_added [] [] w w'.
Proof. intros (H1 & H2 & H3). split; intros k; rewrite ?H1, ?H3; simpl; tauto. Qed.

Lemma names_added_printed (w : World) (msgs : list Msg) :
  names_added [] [] w (printed w msgs).
Proof. apply names_added_same. repeat split. Qed.

Lemma get_licenses_names (o : SbomRecord) (w : World) :
  exists w',
    _get_licenses o w = Returns (licenses_of o) w'
    /\ names_added (if lacks_license o then [record_name o] else []) [] w w'.
Proof.
  destruct (get_licenses_returns o w) as [w' Hrun]. exists w'. split; [exact Hrun|].
  revert Hrun. unfold _get_licenses, lacks_license, concluded_license, record_name.
  assert (Hc : forall w',
             (when (get_default (sbom_licenseconcluded o) "NOT KNOWN" =? "NOT KNOWN")
                (print (MissingLicense (get_default (sbom_name o) "(package name missing)") o) ;;
                 set_license_info_missing
                   (get_default (sbom_name o) "(package name missing)")) ;;
              ret [get_default (sbom_licenseconcluded o) "NOT KNOWN"]) w
             = Returns (licenses_of o) w' ->
             names_added
               (if get_default (sbom_licenseconcluded o) "NOT KNOWN" =? "NOT KNOWN"
                then [get_default (sbom_name o) "(package name missing)"] else [])
               [] w w').
  { intros w0. destruct (_ =? "NOT KNOWN"); intros H; inversion H; subst.
    - split; intros k; simpl; [|tauto]. rewrite In_keys_set. intuition.
    - apply names_added_refl. }
  destruct (sbom_licenselist o) as [license_list|]; [|exact (Hc w')].
  destruct license_list as [|l r]; [exact (Hc w')|].
  cbn [List.length Nat.ltb Nat.leb].
  destruct (license_list_simple (l :: r)) as [|x xs]; [exact (Hc w')|].
  simpl. intros H. inversion H; subst. apply names_added_refl.
Qed.

Lemma get_copyright_names (o : SbomRecord) (w : World) :
  exists r w',
    _get_copyright o w = Returns r w'
    /\ names_added [] (if lacks_copyright o then [record_name o] else []) w w'.
Proof.
  unfold _get_copyright, lacks_copyright, record_name.
  destruct (_ =? _).
  - eexists _, _. split; [reflexivity|].
    split; intros k; simpl; [tauto|]. rewrite In_keys_set. intuition.
  - eexists _, w. split; [reflexivity|apply names_added_refl].
Qed.

Lemma collect_loop_names (l : list SbomRecord) (acc : list string) (w : World) :
  exists w',
    for_each l
      (fun sbom_licenses o =>
         licenses <- _get_licenses o ;; ret (sbom_licenses ++ licenses)%list) acc w
    = Returns (acc ++ flat_map licenses_of l)%list w'
    /\ names_added
         (flat_map (fun o => if lacks_license o then [record_name o] else []) l) [] w w'.
Proof.
  revert acc w. induction l as [|o l IH]; intros acc w; simpl.
  - rewrite app_nil_r. exists w. split; [reflexivity|apply names_added_refl].
  - destruct (get_licenses_names o w) as (w1 & H1 & N1).
    destruct (IH (acc ++ licenses_of o)%list w1) as (w2 & H2 & N2).
    exists w2. split.
    + rewrite <- app_assoc in H2. rewrite <- H2.
      apply bind_Returns. now rewrite (bind_Returns _ _ _ _ _ H1).
    + exact (names_added_trans _ _ _ _ _ _ _ N1 N2).
Qed.

Section NamesFacts.
Context {license_info : LicenseScanner} {platform : Platform}.

Lemma license_information_rows (freq : dict nat) (w : World) :
  exists msgs, print_license_information freq w = Returns tt (printed w msgs).
Proof.
  unfold print_license_information.
  rewrite (bind_Returns _ _ _ _ _ (print_printed LicenseInformation w)).
  rewrite print_times_lines, printed_app. eexists. reflexivity.
Qed.

Lemma resolve_all_returns (licenses acc : list string) (w : World) :
  exists r,
    for_each licenses (fun acc l => r <- _find_license_id l ;; ret (acc ++ [r])%list)
      acc w
    = Returns r w.
Proof.
  revert acc. induction licenses as [|l licenses IH]; intros acc; simpl.
  - now exists acc.
  - destruct (IH (acc ++ [resolved_id l])%list) as [r Hr]. exists r.
    rewrite <- Hr. apply bind_Returns.
    now rewrite (bind_Returns _ _ _ _ _ (find_license_id_value l w)).
Qed.

Lemma package_loop_names (l : list SbomRecord)
    (sbom_components : list (option string)) (sbom_suppliers : list string)
    (w : World) :
  exists sbom_suppliers' w',
    for_each l
      (fun '(sbom_components, sbom_suppliers) package =>
         let type := sbom_type package in
         let supplier := sbom_supplier package in
         licenses <- _get_licenses package ;;
         licenses <- for_each licenses
                       (fun acc l => r <- _find_license_id l ;; ret (acc ++ [r])%list) [] ;;
         let licenses_multiline := join (String newline EmptyString) licenses in
         let sbom_components := (sbom_components ++ [type])%list in
         let sbom_suppliers :=
           match supplier with
           | Some s => (sbom_suppliers ++ [s])%list
           | None => sbom_suppliers
           end in
         copyright <- _get_copyright package ;;
         ret (sbom_components, sbom_suppliers))
      (sbom_components, sbom_suppliers) w
    = Returns ((sbom_components ++ map sbom_type l)%list, sbom_suppliers') w'
    /\ names_added
         (flat_map (fun o => if lacks_license o then [record_name o] else []) l)
         (flat_map (fun o => if lacks_copyright o then [record_name o] else []) l)
         w w'.
Proof.
  revert sbom_components sbom_suppliers w.
  induction l as [|o l IH]; intros comps supps w; simpl.
  - rewrite app_nil_r. eexists _, w. split; [reflexivity|apply names_added_refl].
  - destruct (get_licenses_names o w) as (w1 & H1 & N1).
    destruct (resolve_all_returns (licenses_of o) [] w1) as (ids & H2).
    destruct (get_copyright_names o w1) as (c & w3 & H3 & N3).
    destruct (IH (comps ++ [sbom_type o])%list
                (match sbom_supplier o with
                 | Some s => (supps ++ [s])%list
                 | None => supps
                 end) w3) as (supps' & w4 & H4 & N4).
    exists supps', w4. split.
    + rewrite <- app_assoc in H4. simpl in H4. rewrite <- H4.
      apply bind_Returns.
      rewrite (bind_Returns _ _ _ _ _ H1), (bind_Returns _ _ _ _ _ H2),
        (bind_Returns _ _ _ _ _ H3).
      reflexivity.
    + pose proof (names_added_trans _ _ _ _ _ _ _
                    (names_added_trans _ _ _ _ _ _ _ N1 N3) N4) as N.
      simpl in N. rewrite app_nil_r in N. exact N.
Qed.

Lemma same_diagnostics_print (m : Msg) : keeps same_diagnostics (print m).
Proof. intros w. repeat split. Qed.

Lemma same_diagnostics_requests_get_json (url : string) :
  keeps same_diagnostics (requests_get_json url).
Proof. intros w. apply (requests_get_json_after url w). Qed.

(** However the enrichment ends, the diagnostic dicts are as they were. *)
Lemma fetch_license_texts_same (debug : bool) (add : option (dict string))
    (d : dict LicenseEntry) :
  keeps same_diagnostics (fetch_license_texts debug add d).
Proof.
  pose proof same_diagnostics_refl as Hrefl.
  pose proof same_diagnostics_trans as Htrans.
  unfold fetch_license_texts, fetch_license_text. cbv beta iota.
  repeat keeps_step ltac:(first [ apply same_diagnostics_print
                                | apply same_diagnostics_requests_get_json ]).
Qed.

(** Lines 270-346: the package loop, the license texts and the summary. *)
Lemma build_document_tail_names (packages : list SbomRecord) (include_license : bool)
    (freq : dict nat) (by_id : dict LicenseEntry) (w : World) :
  names_added
    (flat_map (fun o => if lacks_license o then [record_name o] else []) packages)
    (flat_map (fun o => if lacks_copyright o then [record_name o] else []) packages)
    w
    (world_after
       ((p <- package_information packages ;;
         when include_license (license_texts_section by_id) ;;
         component_type_summary (fst p) ;;
         ret (freq, by_id)) w)).
Proof.
  assert (H5 : exists supps w5,
             package_information packages w
             = Returns (map sbom_type packages, supps) w5
             /\ names_added
                  (flat_map (fun o => if lacks_license o then [record_name o] else [])
                     packages)
                  (flat_map (fun o => if lacks_copyright o then [record_name o] else [])
                     packages) w w5).
  { unfold package_information. destruct packages as [|o l].
    - eexists _, w. split; [reflexivity|apply names_added_refl].
    - cbn [List.length Nat.ltb Nat.leb].
      destruct (package_loop_names (o :: l) [] [] w) as (supps & w5 & H & N).
      now exists supps, w5. }
  destruct H5 as (supps & w5 & H5 & N5). rewrite (bind_Returns _ _ _ _ _ H5).
  assert (H6 : exists w6, when include_license (license_texts_section by_id) w5
                          = Returns tt w6
                          /\ names_added [] [] w5 w6).
  { destruct include_license; simpl.
    - destruct (license_texts_section_value by_id w5) as (w6 & H6 & E1 & E2 & _).
      exists w6. split; [exact H6|].
      split; intros k; rewrite ?E1, ?E2; simpl; tauto.
    - exists w5. split; [reflexivity|apply names_added_refl]. }
  destruct H6 as (w6 & H6 & N6). rewrite (bind_Returns _ _ _ _ _ H6).
  assert (H7 : world_after
                 ((component_type_summary (fst (map sbom_type packages, supps)) ;;
                   ret (freq, by_id)) w6) = w6).
  { unfold bind, component_type_summary. now destruct (_ && _). }
  rewrite H7.
  pose proof (names_added_trans _ _ _ _ _ _ _ N5 N6) as N.
  rewrite !app_nil_r in N. exact N.
Qed.

(** The names a call of [build_document] records.  The package loop is not
    [reached] when the enrichment raises. *)
Lemma build_document_names (packages files : list SbomRecord)
    (include_license debug : bool) (add : option (dict string)) (w : World) :
  exists reached : bool,
    names_added
      (flat_map (fun o => if lacks_license o then [record_name o] else [])
         (packages ++ files)
       ++ if reached
          then flat_map (fun o => if lacks_license o then [record_name o] else [])
                 packages
          else [])
      (if reached
       then flat_map (fun o => if lacks_copyright o then [record_name o] else [])
              packages
       else [])
      w (world_after (build_document packages files include_license debug add w))
    /\ (enrichment_answered include_license -> reached = true).
Proof.
  unfold build_document.
  (* lines 164-169 *)
  assert (H1 : exists w1,
             collect_licenses packages files w
             = Returns (flat_map licenses_of (packages ++ files)) w1
             /\ names_added
                  (flat_map (fun o => if lacks_license o then [record_name o] else [])
                     (packages ++ files)) [] w w1).
  { unfold collect_licenses.
    destruct (collect_loop_names packages [] w) as (wa & Ha & Na).
    destruct (collect_loop_names files ([] ++ flat_map licenses_of packages)%list wa)
      as (wb & Hb & Nb).
    exists wb. split.
    - rewrite flat_map_app. simpl in Hb. rewrite <- Hb. now apply bind_Returns.
    - rewrite flat_map_app.
      pose proof (names_added_trans _ _ _ _ _ _ _ Na Nb) as N. exact N. }
  destruct H1 as (w1 & H1 & N1). rewrite (bind_Returns _ _ _ _ _ H1).
  set (freq := build_freq _).
  (* lines 175-180 *)
  assert (H2 : exists w2, when debug (print_license_information freq) w1 = Returns tt w2
                          /\ names_added [] [] w1 w2).
  { destruct debug; simpl.
    - destruct (license_information_rows freq w1) as (rows & Hr).
      eexists. split; [exact Hr|apply names_added_printed].
    - exists w1. split; [reflexivity|apply names_added_refl]. }
  destruct H2 as (w2 & H2 & N2). rewrite (bind_Returns _ _ _ _ _ H2).
  (* lines 182-220 *)
  destruct (group_licenses_returns debug freq w2) as (by_id & w3 & H3 & _ & _ & S3 & _).
  rewrite (bind_Returns _ _ _ _ _ H3).
  pose proof (names_added_trans _ _ _ _ _ _ _ N1
                (names_added_trans _ _ _ _ _ _ _ N2 (names_added_same _ _ S3))) as N3.
  simpl in N3. rewrite !app_nil_r in N3.
  (* lines 222-268 *)
  assert (S4 : same_diagnostics w3
                 (world_after
                    ((if include_license then fetch_license_texts debug add by_id
                      else ret by_id) w3))).
  { destruct include_license;
      [apply fetch_license_texts_same|apply same_diagnostics_refl]. }
  unfold bind at 1.
  destruct ((if include_license then fetch_license_texts debug add by_id
             else ret by_id) w3) as [by_id' w4|e w4] eqn:H4; simpl in S4.
  - exists true. split; [|reflexivity].
    pose proof (names_added_trans _ _ _ _ _ _ _ N3
                  (names_added_trans _ _ _ _ _ _ _ (names_added_same _ _ S4)
                     (build_document_tail_names packages include_license freq
                        by_id' w4))) as N.
    simpl in N. unfold bind in N |- *.
    destruct (package_information packages w4) as [[comps supps] w5|e w5];
      simpl in N |- *; exact N.
  - exists false. split.
    + pose proof (names_added_trans _ _ _ _ _ _ _ N3 (names_added_same _ _ S4)) as N.
      simpl in N |- *. rewrite !app_nil_r in N |- *. exact N.
    + intros Hans.
      destruct (enrichment_returns include_license debug add by_id w3 Hans)
        as (by_id' & w4' & H4' & _).
      rewrite H4' in H4. discriminate H4.
Qed.

End NamesFacts.

Section RecordedNames.
Context {license_info : LicenseScanner} {platform : Platform} {builder : DocBuilder}.

Lemma run_names (c : Call) (w : World) :
  exists reached : bool,
    names_added
      (flat_map (fun o => if lacks_license o then [record_name o] else [])
         (call_packages c ++ call_files c)
       ++ if reached
          then flat_map (fun o => if lacks_license o then [record_name o] else [])
                 (call_packages c)
          else [])
      (if reached
       then flat_map (fun o => if lacks_copyright o then [record_name o] else [])
              (call_packages c)
       else [])
      w (world_after (run c w))
    /\ (enrichment_answered (call_include_license c) -> reached = true).
Proof.
  destruct (build_document_names (call_packages c) (call_files c)
              (call_include_license c) (call_debug c)
              (call_additional_license_texts c) w) as (reached & N & Hreached).
  exists reached. split; [|exact Hreached].
  destruct (build_document (call_packages c) (call_files c) (call_include_license c)
              (call_debug c) (call_additional_license_texts c) w)
    as [[freq by_id] w1|e w1] eqn:Hbuild; simpl in N.
  - rewrite (run_Returns c w w1 freq by_id Hbuild).
    pose proof (names_added_trans _ _ _ _ _ _ _ N
                  (names_added_same _ _
                     (publish_and_write_same (call_format c) (call_outfile c) {|
                        doc_filename := call_filename c;
                        doc_packages := call_packages c;
                        doc_files := call_files c;
                        doc_include_license := call_include_license c;
                        doc_licenses_by_id := by_id |}
                        (call_debug c) (call_now c) w1))) as N'.
    rewrite !app_nil_r in N'. exact N'.
  - rewrite (run_Raises c w w1 e Hbuild). exact N.
Qed.

(** X24: after a call, whatever its outcome, a name is in
    [license_info_missing_package_id_list] exactly when it was there
    before or it is the name (or ["(package name missing)"]) of a
    package or of a file whose license list yields nothing and whose
    concluded license is absent or ["NOT KNOWN"]. *)
Theorem missing_license_names (c : Call) (w : World) (k : string) :
  In k (diagnostic_keys MissingLicenseInfo (world_after (run c w)))
  <-> In k (diagnostic_keys MissingLicenseInfo w)
      \/ exists o, In o (call_packages c ++ call_files c)
                   /\ lacks_license o = true /\ k = record_name o.
Proof.
  destruct (run_names c w) as (reached & [N _] & _). unfold diagnostic_keys.
  rewrite N. rewrite in_app_iff, !in_flat_map. split.
  - intros [Hk|[(o & Ho & Hin)|Hin]]; [now left| |].
    + right. exists o. destruct (lacks_license o); simpl in Hin;
        try contradiction. destruct Hin as [<-|[]]. auto.
    + right. destruct reached; [|destruct Hin].
      apply in_flat_map in Hin. destruct Hin as (o & Ho & Hin). exists o.
      destruct (lacks_license o); simpl in Hin; try contradiction.
      destruct Hin as [<-|[]]. rewrite in_app_iff. auto.
  - intros [Hk|(o & Ho & Hl & ->)]; [now left|right; left].
    exists o. rewrite Hl. simpl. tauto.
Qed.

(** X25: after a call whose enrichment does not raise (there is none, or
    SPDX answers with JSON objects or [RequestException]s), however the
    call ends after that, a name is in
    [copyright_info_missing_package_name_list] exactly when it was there
    before or it is the name of a package whose copyright text is absent
    or equal to the placeholder; a file is never recorded for its
    copyright. *)
Theorem missing_copyright_names (c : Call) (w : World) (k : string) :
  enrichment_answered (call_include_license c) ->
  In k (diagnostic_keys MissingCopyrightInfo (world_after (run c w)))
  <-> In k (diagnostic_keys MissingCopyrightInfo w)
      \/ exists p, In p (call_packages c)
                   /\ lacks_copyright p = true /\ k = record_name p.
Proof.
  intros Hans. destruct (run_names c w) as (reached & [_ N] & Hreached).
  rewrite (Hreached Hans) in N. unfold diagnostic_keys. rewrite N.
  rewrite in_flat_map. split.
  - intros [Hk|(o & Ho & Hin)]; [now left|right; exists o].
    destruct (lacks_copyright o); simpl in Hin; try contradiction.
    destruct Hin as [<-|[]]. auto.
  - intros [Hk|(o & Ho & Hl & ->)]; [now left|right].
    exists o. rewrite Hl. simpl. tauto.
Qed.

End RecordedNames.

Lemma missing_copyright_names_witness :
  In "foo"
    (diagnostic_keys MissingCopyrightInfo
       (world_after
          (@run sample_scanner offline file_builder first_call initial_world))).
Proof.
  apply (@missing_copyright_names sample_scanner offline file_builder first_call
           initial_world "foo").
  - right. intros url. left. reflexivity.
  - right. exists package_foo. split; [simpl; auto|]. split; reflexivity.
Defined.
